(** * Lost & Found service: items, claims, listing and upload clean-up

    A shallow embedding of the request handlers of [server.js] (with the
    schema of [db.js]) and the properties of the item / claim lifecycle,
    the public listing and the upload clean-up that they satisfy.

    Conventions of the model.
    - A JavaScript string is a [string]; every character stands for one
      code unit below 256, so the white space that [trim] and [parseInt]
      strip is TAB, LF, VT, FF, CR, SPACE and NBSP.
    - A JavaScript number is a double: an integer that a double holds,
      an infinity or [NaN]; the handlers only produce numbers with
      [parseInt], [Math.max], [Math.min], [-] and [*].  [parseInt] and [-]
      round to the nearest double.  The table of an SQLite file holds
      fewer than 2^53 rows: a row count is a number as it is, and the
      product that gives the offset is kept exact and is rounded where
      SQLite checks it (the product and its double differ only above
      2^53, past the last row of such a table).
    - A request value (query, body or route parameter) is absent
      ([None], JavaScript [undefined]) or a string.
    - The SQLite tables are lists of rows in rowid order together with the
      AUTOINCREMENT counter of the table; the upload directory is a finite
      set of file names; [fs.unlink] removes its file at the point of the
      call and ignores a missing file (its callback is [() => {}]).
    - Every handler runs in a small state monad over the [world]; the
      effects on the tables and on the upload directory are also appended
      to a trace, in program order. *)

From Stdlib Require Import ZArith Ascii String List Bool Lia OrderedTypeEx.
From stdpp Require Import base tactics option list sorting gmap strings.

Local Open Scope string_scope.
Local Open Scope list_scope.
Local Open Scope Z_scope.

(** ** JavaScript primitives *)

Module JS.

Inductive jsnum : Type :=
| Num (z : Z)
| Infinity (negative : bool)
| NaN.

Definition jsnum_eq_dec (a b : jsnum) : {a = b} + {a <> b}.
Proof. decide equality; [apply Z.eq_dec|apply Bool.bool_dec]. Defined.

(** The double nearest to an integer, ties to the even significand: an
    integer up to 2^53 in absolute value is a double; above, the 53
    leading bits are kept and the rest is rounded; from 2^1024 - 2^970 on
    the result is an infinity. *)
Definition to_double (z : Z) : jsnum :=
  let a := Z.abs z in
  if a <=? 2 ^ 53 then Num z
  else
    let e := Z.log2 a - 52 in
    let q := a / 2 ^ e in
    let rest := a mod 2 ^ e in
    let half := 2 ^ (e - 1) in
    let q' := if (half <? rest) || ((rest =? half) && Z.odd q)
              then q + 1 else q in
    if 2 ^ 1024 <=? q' * 2 ^ e then Infinity (z <? 0)
    else Num (Z.sgn z * (q' * 2 ^ e)).

(** [Math.max] and [Math.min] on two arguments: [NaN] is contagious, and
    the infinities are the largest and the smallest number. *)
Definition Math_max (a b : jsnum) : jsnum :=
  match a, b with
  | NaN, _ | _, NaN => NaN
  | Infinity false, _ | _, Infinity false => Infinity false
  | Infinity true, x | x, Infinity true => x
  | Num x, Num y => Num (Z.max x y)
  end.

Definition Math_min (a b : jsnum) : jsnum :=
  match a, b with
  | NaN, _ | _, NaN => NaN
  | Infinity true, _ | _, Infinity true => Infinity true
  | Infinity false, x | x, Infinity false => x
  | Num x, Num y => Num (Z.min x y)
  end.

(** [a - b], rounded to the nearest double. *)
Definition sub (a b : jsnum) : jsnum :=
  match a, b with
  | Num x, Num y => to_double (x - y)
  | Infinity s, Num _ => Infinity s
  | Num _, Infinity s => Infinity (negb s)
  | Infinity s, Infinity t => if Bool.eqb s t then NaN else Infinity s
  | _, _ => NaN
  end.

(** [a * b]; the product of two integers is kept exact, and rounded
    where it is used ([Sql.integer]). *)
Definition mul (a b : jsnum) : jsnum :=
  match a, b with
  | Num x, Num y => Num (x * y)
  | Infinity s, Num y | Num y, Infinity s =>
      if y =? 0 then NaN else Infinity (xorb s (y <? 0))
  | Infinity s, Infinity t => Infinity (xorb s t)
  | _, _ => NaN
  end.

(** White space of [String.prototype.trim] and of [parseInt], below 256. *)
Definition is_ws (c : ascii) : bool :=
  let n := N_of_ascii c in
  (((9 <=? n) && (n <=? 13)) || (n =? 32) || (n =? 160))%N.

Fixpoint trimStart (s : string) : string :=
  match s with
  | EmptyString => EmptyString
  | String c s' => if is_ws c then trimStart s' else s
  end.

Fixpoint trimEnd (s : string) : string :=
  match s with
  | EmptyString => EmptyString
  | String c s' =>
      match trimEnd s' with
      | EmptyString => if is_ws c then EmptyString else String c EmptyString
      | t => String c t
      end
  end.

Definition trim (s : string) : string := trimEnd (trimStart s).

(** [s.slice(0, max)] for a non-negative [max]. *)
Fixpoint slice0 (max : nat) (s : string) : string :=
  match max, s with
  | O, _ => EmptyString
  | _, EmptyString => EmptyString
  | S m, String c s' => String c (slice0 m s')
  end.

(** Truthiness of a request value: [undefined] and [''] are falsy. *)
Definition truthy (v : option string) : bool :=
  match v with
  | None => false
  | Some EmptyString => false
  | Some _ => true
  end.

(** A string is truthy unless it is empty. *)
Definition nonempty (s : string) : bool :=
  match s with
  | EmptyString => false
  | _ => true
  end.

(** The value of a digit in the given radix (10 or 16). *)
Definition digit_val (radix : Z) (c : ascii) : option Z :=
  let n := Z.of_N (N_of_ascii c) in
  let v :=
    if (48 <=? n) && (n <=? 57) then Some (n - 48)
    else if (97 <=? n) && (n <=? 122) then Some (n - 87)
    else if (65 <=? n) && (n <=? 90) then Some (n - 55)
    else None in
  match v with
  | Some d => if d <? radix then Some d else None
  | None => None
  end.

(** The longest prefix of digits, read in the radix; [None] when the
    prefix is empty. *)
Fixpoint digits (radix : Z) (s : string) (acc : option Z) : option Z :=
  match s with
  | EmptyString => acc
  | String c s' =>
      match digit_val radix c with
      | Some d => digits radix s' (Some (radix * default 0 acc + d))
      | None => acc
      end
  end.

(** [parseInt(s)] without a radix argument: the double nearest to the
    integer that the digits spell. *)
Definition parseInt (s : string) : jsnum :=
  let s1 := trimStart s in
  let '(sign, s2) :=
    match s1 with
    | String "-" r => (-1, r)
    | String "+" r => (1, r)
    | _ => (1, s1)
    end in
  let '(radix, s3) :=
    match s2 with
    | String "0" (String "x" r) => (16, r)
    | String "0" (String "X" r) => (16, r)
    | _ => (10, s2)
    end in
  match digits radix s3 None with
  | Some n => to_double (sign * n)
  | None => NaN
  end.

End JS.

(** [sanitizeString(s, max)]: a falsy value gives the empty string,
    otherwise the first [max] code units, trimmed at both ends. *)
Definition sanitizeString (s : option string) (max : nat) : string :=
  if JS.truthy s then JS.trim (JS.slice0 max (default "" s)) else "".

(** ** SQLite text operators *)

Module Sql.

(** ASCII case folding of [LIKE]. *)
Definition lower (c : ascii) : ascii :=
  let n := N_of_ascii c in
  if ((65 <=? n) && (n <=? 90))%N then ascii_of_N (n + 32) else c.

Definition eq_nocase (a b : ascii) : bool :=
  Ascii.eqb (lower a) (lower b).

(** [text LIKE pattern]: [%] matches any run of characters, [_] exactly
    one character, every other character itself up to ASCII case. *)
Fixpoint like (pattern text : string) : bool :=
  match pattern with
  | EmptyString =>
      match text with EmptyString => true | _ => false end
  | String p pattern' =>
      if Ascii.eqb p "%" then
        (fix star (t : string) : bool :=
           like pattern' t ||
           match t with
           | EmptyString => false
           | String _ t' => star t'
           end) text
      else
        match text with
        | EmptyString => false
        | String c text' =>
            (Ascii.eqb p "_" || eq_nocase p c) && like pattern' text'
        end
  end.

(** The pattern [`%${q}%`]. *)
Definition around (q : string) : string := ("%" ++ q ++ "%")%string.

(** [a <= b] on TEXT values under the BINARY collation. *)
Definition text_le (a b : string) : bool := String.leb a b.

(** [LIMIT l OFFSET o] over the rows of a query: the first [o] rows are
    skipped and at most [l] rows follow; a negative offset counts as 0
    and a negative limit as no limit. *)
Fixpoint skip_rows {A} (o : Z) (rows : list A) : list A :=
  match rows with
  | [] => []
  | _ :: rows' => if 0 <? o then skip_rows (o - 1) rows' else rows
  end.

Fixpoint first_rows {A} (l : Z) (rows : list A) : list A :=
  match rows with
  | [] => []
  | x :: rows' => if 0 <? l then x :: first_rows (l - 1) rows' else []
  end.

Definition limit_offset {A} (l o : Z) (rows : list A) : list A :=
  let rest := skip_rows o rows in
  if l <? 0 then rest else first_rows l rest.

(** [WHERE id = ?]: a [NaN] parameter is bound as NULL and equals no id,
    and neither does an infinity. *)
Definition id_is (p : JS.jsnum) (id : Z) : bool :=
  match p with
  | JS.Num z => z =? id
  | _ => false
  end.

(** A number bound to [LIMIT ?] or [OFFSET ?].  The driver binds the
    double, and SQLite takes it when it is an integer strictly inside the
    signed 64-bit range; a [NaN] (bound as NULL), an infinity and a
    double outside the range are refused ("datatype mismatch").  The rows
    are then counted with the integer before rounding: it differs from
    its double only above 2^53, where both are past the last row. *)
Definition integer (p : JS.jsnum) : option Z :=
  match p with
  | JS.Num z =>
      match JS.to_double z with
      | JS.Num d => if (- 2 ^ 63 <? d) && (d <? 2 ^ 63) then Some z else None
      | _ => None
      end
  | _ => None
  end.

(** [ORDER BY]: the rows come sorted, and rows with equal keys stay in
    the order of the scan, that is in rowid order. *)
Section order_by.
Context {A : Type} (R : relation A) `{!forall x y, Decision (R x y)}.

Fixpoint insert_row (x : A) (l : list A) : list A :=
  match l with
  | [] => [x]
  | y :: l' => if decide (R x y) then x :: l else y :: insert_row x l'
  end.

Definition order_by (l : list A) : list A := foldr insert_row [] l.

End order_by.

End Sql.

(** ** Rows of the tables [items] and [claims] *)

Module Item.
Record t : Type := mk {
  id : Z;
  title : string;
  description : string;
  category : string;
  location_found : string;
  date_found : string;
  photo_filename : option string;
  status : string;
  reporter_name : string;
  reporter_email : string;
  created_at : string
}.

(** The nine columns that the public listing selects. *)
Record listed : Type := mkListed {
  l_id : Z;
  l_title : string;
  l_description : string;
  l_category : string;
  l_location_found : string;
  l_date_found : string;
  l_photo_filename : option string;
  l_status : string;
  l_created_at : string
}.

Definition project (it : t) : listed :=
  {| l_id := id it; l_title := title it; l_description := description it;
     l_category := category it; l_location_found := location_found it;
     l_date_found := date_found it; l_photo_filename := photo_filename it;
     l_status := status it; l_created_at := created_at it |}.
End Item.

Module Claim.
Record t : Type := mk {
  id : Z;
  item_id : Z;
  claimant_name : string;
  claimant_email : string;
  student_id : string;
  message : string;
  proof_filename : option string;
  status : string;
  created_at : string
}.
End Claim.

(** ** The world of the server and its effects *)

Inductive event : Type :=
| EUnlink (name : string)
| EInsertItem (id : Z)
| EUpdateItem (id : JS.jsnum)
| EDeleteItem (id : JS.jsnum)
| EInsertClaim (id : Z)
| EUpdateClaim (id : JS.jsnum).

Record world : Type := mkWorld {
  items : list Item.t;
  items_seq : Z;
  claims : list Claim.t;
  claims_seq : Z;
  uploads : gset string;
  trace : list event
}.

Definition empty_world : world :=
  {| items := []; items_seq := 0; claims := []; claims_seq := 0;
     uploads := ∅; trace := [] |}.

(** The state monad of the handlers. *)
Definition M (A : Type) : Type := world -> A * world.

Definition ret {A} (a : A) : M A := fun w => (a, w).

Definition bind {A B} (m : M A) (k : A -> M B) : M B :=
  fun w => let '(a, w') := m w in k a w'.

Notation "'let!' x ':=' m 'in' k" := (bind m (fun x => k))
  (at level 10, x name, m at level 100, k at level 200).
Notation "'do!' m 'in' k" := (bind m (fun _ => k))
  (at level 10, m at level 100, k at level 200).

Definition emit (e : event) (w : world) : world :=
  {| items := items w; items_seq := items_seq w; claims := claims w;
     claims_seq := claims_seq w; uploads := uploads w;
     trace := trace w ++ [e] |}.

(** ** Database and file primitives ([db.js], [fs.unlink]) *)

Definition with_items (f : list Item.t -> list Item.t) (w : world) : world :=
  {| items := f (items w); items_seq := items_seq w; claims := claims w;
     claims_seq := claims_seq w; uploads := uploads w; trace := trace w |}.

Definition with_claims (f : list Claim.t -> list Claim.t) (w : world) : world :=
  {| items := items w; items_seq := items_seq w; claims := f (claims w);
     claims_seq := claims_seq w; uploads := uploads w; trace := trace w |}.

(** [fs.unlink(path, () => {})]: the file goes if it is there. *)
Definition unlink (name : string) : M unit := fun w =>
  (tt, emit (EUnlink name)
         {| items := items w; items_seq := items_seq w; claims := claims w;
            claims_seq := claims_seq w; uploads := uploads w ∖ {[ name ]};
            trace := trace w |}).

(** [SELECT * FROM items WHERE id = ?] through [get]. *)
Definition select_item (id : JS.jsnum) : M (option Item.t) := fun w =>
  (List.find (fun it => Sql.id_is id (Item.id it)) (items w), w).

(** [SELECT * FROM claims WHERE id = ?] through [get]. *)
Definition select_claim (id : JS.jsnum) : M (option Claim.t) := fun w =>
  (List.find (fun c => Sql.id_is id (Claim.id c)) (claims w), w).

(** [SELECT proof_filename FROM claims WHERE item_id = ?] through [all]. *)
Definition select_claims_of (id : JS.jsnum) : M (list Claim.t) := fun w =>
  (List.filter (fun c => Sql.id_is id (Claim.item_id c)) (claims w), w).

(** [INSERT INTO items (...) VALUES (..., 'pending', ...)]: the row gets
    the next AUTOINCREMENT id and the current time stamp; the id is
    [lastID]. *)
Definition insert_item (now title description category location_found
    date_found : string) (photo_filename : option string)
    (reporter_name reporter_email : string) : M Z := fun w =>
  let id := items_seq w + 1 in
  let row :=
    {| Item.id := id; Item.title := title; Item.description := description;
       Item.category := category; Item.location_found := location_found;
       Item.date_found := date_found; Item.photo_filename := photo_filename;
       Item.status := "pending"; Item.reporter_name := reporter_name;
       Item.reporter_email := reporter_email; Item.created_at := now |} in
  (id, emit (EInsertItem id)
         {| items := items w ++ [row]; items_seq := id; claims := claims w;
            claims_seq := claims_seq w; uploads := uploads w;
            trace := trace w |}).

(** [INSERT INTO claims (...) VALUES (..., 'new')]. *)
Definition insert_claim (now : string) (item_id : Z) (claimant_name
    claimant_email student_id message : string)
    (proof_filename : option string) : M Z := fun w =>
  let id := claims_seq w + 1 in
  let row :=
    {| Claim.id := id; Claim.item_id := item_id;
       Claim.claimant_name := claimant_name;
       Claim.claimant_email := claimant_email;
       Claim.student_id := student_id; Claim.message := message;
       Claim.proof_filename := proof_filename; Claim.status := "new";
       Claim.created_at := now |} in
  (id, emit (EInsertClaim id)
         {| items := items w; items_seq := items_seq w;
            claims := claims w ++ [row]; claims_seq := id;
            uploads := uploads w; trace := trace w |}).

Definition set_status (st : string) (it : Item.t) : Item.t :=
  {| Item.id := Item.id it; Item.title := Item.title it;
     Item.description := Item.description it;
     Item.category := Item.category it;
     Item.location_found := Item.location_found it;
     Item.date_found := Item.date_found it;
     Item.photo_filename := Item.photo_filename it;
     Item.status := st;
     Item.reporter_name := Item.reporter_name it;
     Item.reporter_email := Item.reporter_email it;
     Item.created_at := Item.created_at it |}.

Definition set_fields (title description category location_found
    date_found : string) (it : Item.t) : Item.t :=
  {| Item.id := Item.id it; Item.title := title;
     Item.description := description;
     Item.category := category;
     Item.location_found := location_found;
     Item.date_found := date_found;
     Item.photo_filename := Item.photo_filename it;
     Item.status := Item.status it;
     Item.reporter_name := Item.reporter_name it;
     Item.reporter_email := Item.reporter_email it;
     Item.created_at := Item.created_at it |}.

Definition set_claim_status (st : string) (c : Claim.t) : Claim.t :=
  {| Claim.id := Claim.id c; Claim.item_id := Claim.item_id c;
     Claim.claimant_name := Claim.claimant_name c;
     Claim.claimant_email := Claim.claimant_email c;
     Claim.student_id := Claim.student_id c;
     Claim.message := Claim.message c;
     Claim.proof_filename := Claim.proof_filename c;
     Claim.status := st;
     Claim.created_at := Claim.created_at c |}.

(** [UPDATE items SET ... WHERE id = ?]: every row with the id is
    rewritten by [f]. *)
Definition update_item (id : JS.jsnum) (f : Item.t -> Item.t) : M unit :=
  fun w =>
  (tt, emit (EUpdateItem id)
         (with_items
            (List.map (fun it => if Sql.id_is id (Item.id it) then f it else it))
            w)).

(** [UPDATE claims SET status = ? WHERE id = ?]. *)
Definition update_claim_status (st : string) (id : JS.jsnum) : M unit :=
  fun w =>
  (tt, emit (EUpdateClaim id)
         (with_claims
            (List.map (fun c =>
               if Sql.id_is id (Claim.id c) then set_claim_status st c else c))
            w)).

(** [DELETE FROM items WHERE id = ?] with [PRAGMA foreign_keys = ON] and
    [ON DELETE CASCADE] on [claims.item_id]: the claims of the item go
    with it. *)
Definition delete_item_row (id : JS.jsnum) : M unit := fun w =>
  (tt, emit (EDeleteItem id)
         {| items := List.filter (fun it => negb (Sql.id_is id (Item.id it))) (items w);
            items_seq := items_seq w;
            claims := List.filter (fun c => negb (Sql.id_is id (Claim.item_id c))) (claims w);
            claims_seq := claims_seq w; uploads := uploads w;
            trace := trace w |}).

(** ** Requests and responses *)

(** The JSON bodies that the handlers send. *)
Inductive json : Type :=
| JError (error : string)
| JItem (it : Item.t)
| JPage (page limit : JS.jsnum) (total : Z) (rows : list Item.listed)
| JCreated (id : Z) (status message : string)
| JUpdated (it : option Item.t)
| JMessage (message : string)
| JClaim (c : option Claim.t).

Record response : Type := mkResponse { code : Z; body : json }.

Definition res_json (b : json) : response := {| code := 200; body := b |}.
Definition res_status (c : Z) (b : json) : response := {| code := c; body := b |}.

(** [req.session.user.role], when a user is logged in. *)
Definition session : Type := option string.

Definition isAdmin (s : session) : bool :=
  match s with
  | Some role => String.eqb role "admin"
  | None => false
  end.

(** [requireAdmin] in front of a handler. *)
Definition requireAdmin (s : session) (next : M response) : M response :=
  if negb (isAdmin s) then ret (res_status 401 (JError "Unauthorized"))
  else next.

Module Query.
Record t : Type := mk {
  q : option string;
  category : option string;
  location : option string;
  status : option string;
  date_from : option string;
  date_to : option string;
  sort : option string;
  page : option string;
  limit : option string
}.
End Query.

(** ** GET /api/items *)

Definition pageNum (r : Query.t) : JS.jsnum :=
  JS.Math_max (JS.Num 1)
    (match Query.page r with Some s => JS.parseInt s | None => JS.Num 1 end).

Definition perPage (r : Query.t) : JS.jsnum :=
  JS.Math_max (JS.Num 1)
    (JS.Math_min (JS.Num 50)
       (match Query.limit r with Some s => JS.parseInt s | None => JS.Num 20 end)).

Definition offset (r : Query.t) : JS.jsnum :=
  JS.mul (JS.sub (pageNum r) (JS.Num 1)) (perPage r).

(** The array [where] with its parameters, one predicate per conjunct. *)
Definition where_ (r : Query.t) : list (Item.t -> bool) :=
  let q := default "" (Query.q r) in
  let category := default "" (Query.category r) in
  let location := default "" (Query.location r) in
  let status := default "approved" (Query.status r) in
  let date_from := default "" (Query.date_from r) in
  let date_to := default "" (Query.date_to r) in
  (if JS.nonempty status
   then [fun it => String.eqb (Item.status it) status] else []) ++
  (if JS.nonempty q
   then [fun it => Sql.like (Sql.around q) (Item.title it)
                   || Sql.like (Sql.around q) (Item.description it)]
   else []) ++
  (if JS.nonempty category
   then [fun it => String.eqb (Item.category it) category] else []) ++
  (if JS.nonempty location
   then [fun it => Sql.like (Sql.around location) (Item.location_found it)]
   else []) ++
  (if JS.nonempty date_from
   then [fun it => Sql.text_le date_from (Item.date_found it)] else []) ++
  (if JS.nonempty date_to
   then [fun it => Sql.text_le (Item.date_found it) date_to] else []).

(** [WHERE c1 AND ... AND cn]; no conjunct, no [WHERE]. *)
Definition whereSql (ws : list (Item.t -> bool)) (it : Item.t) : bool :=
  forallb (fun c => c it) ws.

Definition created_asc (a b : Item.t) : Prop :=
  Sql.text_le (Item.created_at a) (Item.created_at b) = true.

Definition created_desc (a b : Item.t) : Prop :=
  Sql.text_le (Item.created_at b) (Item.created_at a) = true.

#[global] Instance created_asc_dec a b : Decision (created_asc a b).
Proof. unfold created_asc. apply _. Defined.

#[global] Instance created_desc_dec a b : Decision (created_desc a b).
Proof. unfold created_desc. apply _. Defined.

(** [ORDER BY created_at ASC] for [sort === 'oldest'], otherwise
    [ORDER BY created_at DESC]; rows with the same time stamp come in
    rowid order. *)
Definition orderSql (r : Query.t) (rows : list Item.t) : list Item.t :=
  if String.eqb (default "newest" (Query.sort r)) "oldest"
  then Sql.order_by created_asc rows
  else Sql.order_by created_desc rows.

(** The rows of [FROM items WHERE ...]. *)
Definition matching (r : Query.t) (w : world) : list Item.t :=
  List.filter (whereSql (where_ r)) (items w).

(** [SELECT COUNT( * ) as count FROM items WHERE ...]. *)
Definition count_items (r : Query.t) : M Z := fun w =>
  (Z.of_nat (length (matching r w)), w).

(** [SELECT ... FROM items WHERE ... ORDER BY ... LIMIT ? OFFSET ?]:
    SQLite refuses a LIMIT or OFFSET that is not a 64-bit integer (see
    [Sql.integer]), and [all] rejects. *)
Definition select_page (r : Query.t) (limit offset : JS.jsnum)
  : M (option (list Item.listed)) := fun w =>
  match Sql.integer limit, Sql.integer offset with
  | Some l, Some o =>
      (Some (List.map Item.project
               (Sql.limit_offset l o (orderSql r (matching r w)))), w)
  | _, _ => (None, w)
  end.

Definition get_items (r : Query.t) : M response :=
  let pageNum := pageNum r in
  let perPage := perPage r in
  let! total := count_items r in
  let offset := JS.mul (JS.sub pageNum (JS.Num 1)) perPage in
  let! rows := select_page r perPage offset in
  match rows with
  | Some rows => ret (res_json (JPage pageNum perPage total rows))
  | None => ret (res_status 500 (JError "Failed to fetch items"))
  end.

(** ** GET /api/items/:id *)

Definition get_item (s : session) (id_param : string) : M response :=
  let id := JS.parseInt id_param in
  let! item := select_item id in
  match item with
  | None => ret (res_status 404 (JError "Not found"))
  | Some item =>
      if negb (String.eqb (Item.status item) "approved") && negb (isAdmin s)
      then ret (res_status 403 (JError "Item not accessible"))
      else ret (res_json (JItem item))
  end.

(** ** POST /api/items *)

Module ItemForm.
Record t : Type := mk {
  title : option string;
  description : option string;
  category : option string;
  location_found : option string;
  date_found : option string;
  reporter_name : option string;
  reporter_email : option string
}.
End ItemForm.

(** [if (req.file) fs.unlink(req.file.path, () => {})]; the stored file is
    known by the name that the upload gave it in the upload directory. *)
Definition unlink_file (file : option string) : M unit :=
  match file with
  | Some name => unlink name
  | None => ret tt
  end.

Definition post_item (now : string) (body : ItemForm.t) (file : option string)
  : M response :=
  let title := sanitizeString (ItemForm.title body) 120 in
  let description := sanitizeString (ItemForm.description body) 2000 in
  let category := sanitizeString (ItemForm.category body) 60 in
  let location_found := sanitizeString (ItemForm.location_found body) 120 in
  let date_found := sanitizeString (ItemForm.date_found body) 10 in
  let reporter_name := sanitizeString (ItemForm.reporter_name body) 80 in
  let reporter_email := sanitizeString (ItemForm.reporter_email body) 120 in
  if negb (JS.nonempty title) || negb (JS.nonempty description)
     || negb (JS.nonempty category) || negb (JS.nonempty location_found)
     || negb (JS.nonempty date_found) || negb (JS.nonempty reporter_name)
     || negb (JS.nonempty reporter_email)
  then
    do! unlink_file file in
    ret (res_status 400 (JError "All required fields must be provided"))
  else
    let photo_filename := file in
    let! lastID :=
      insert_item now title description category location_found date_found
        photo_filename reporter_name reporter_email in
    ret (res_status 201 (JCreated lastID "pending" "Submitted for review")).

(** ** POST /api/items/:id/claim *)

Module ClaimForm.
Record t : Type := mk {
  claimant_name : option string;
  claimant_email : option string;
  student_id : option string;
  message : option string
}.
End ClaimForm.

Definition post_claim (now : string) (id_param : string) (body : ClaimForm.t)
    (file : option string) : M response :=
  let id := JS.parseInt id_param in
  let! item := select_item id in
  match item with
  | None =>
      do! unlink_file file in
      ret (res_status 404 (JError "Item not found"))
  | Some item =>
      if String.eqb (Item.status item) "archived" then
        do! unlink_file file in
        ret (res_status 404 (JError "Item not found"))
      else
        let claimant_name := sanitizeString (ClaimForm.claimant_name body) 80 in
        let claimant_email := sanitizeString (ClaimForm.claimant_email body) 120 in
        let student_id := sanitizeString (ClaimForm.student_id body) 40 in
        let message := sanitizeString (ClaimForm.message body) 1500 in
        let proof_filename := file in
        if negb (JS.nonempty claimant_name) || negb (JS.nonempty claimant_email)
           || negb (JS.nonempty message)
        then
          do! unlink_file file in
          ret (res_status 400 (JError "Name, email, and message are required"))
        else
          (* [item.id] is the integer that [id] parsed to *)
          let! lastID :=
            insert_claim now (Item.id item) claimant_name claimant_email
              student_id message proof_filename in
          ret (res_status 201 (JCreated lastID "new" "Claim submitted"))
  end.

(** ** PATCH /api/admin/items/:id *)

Module PatchBody.
Record t : Type := mk {
  action : option string;
  title : option string;
  description : option string;
  category : option string;
  location_found : option string;
  date_found : option string
}.
End PatchBody.

(** [action === name]. *)
Definition is_action (action : option string) (name : string) : bool :=
  match action with
  | Some a => String.eqb a name
  | None => false
  end.

(** The statement that the action runs; [None] for an unknown action. *)
Definition action_update (id : JS.jsnum) (body : PatchBody.t)
  : option (M unit) :=
  let action := PatchBody.action body in
  if is_action action "approve" then
    Some (update_item id (set_status "approved"))
  else if is_action action "archive" then
    Some (update_item id (set_status "archived"))
  else if is_action action "mark_claimed" then
    Some (update_item id (set_status "claimed"))
  else if is_action action "edit" then
    Some (update_item id
            (set_fields
               (sanitizeString (PatchBody.title body) 120)
               (sanitizeString (PatchBody.description body) 2000)
               (sanitizeString (PatchBody.category body) 60)
               (sanitizeString (PatchBody.location_found body) 120)
               (sanitizeString (PatchBody.date_found body) 10)))
  else None.

Definition patch_item (s : session) (id_param : string) (body : PatchBody.t)
  : M response :=
  requireAdmin s (
    let id := JS.parseInt id_param in
    let! item := select_item id in
    match item with
    | None => ret (res_status 404 (JError "Not found"))
    | Some _ =>
        match action_update id body with
        | Some run =>
            do! run in
            let! updated := select_item id in
            ret (res_json (JUpdated updated))
        | None => ret (res_status 400 (JError "Unknown action"))
        end
    end).

(** ** DELETE /api/admin/items/:id *)

(** [for (const c of claims) if (c.proof_filename) fs.unlink(...)]. *)
Fixpoint unlink_proofs (cs : list Claim.t) : M unit :=
  match cs with
  | [] => ret tt
  | c :: cs' =>
      do! (if JS.truthy (Claim.proof_filename c)
           then unlink (default "" (Claim.proof_filename c))
           else ret tt) in
      unlink_proofs cs'
  end.

Definition delete_item (s : session) (id_param : string) : M response :=
  requireAdmin s (
    let id := JS.parseInt id_param in
    let! item := select_item id in
    match item with
    | None => ret (res_status 404 (JError "Not found"))
    | Some item =>
        let! claims := select_claims_of id in
        do! unlink_proofs claims in
        do! (if JS.truthy (Item.photo_filename item)
             then unlink (default "" (Item.photo_filename item))
             else ret tt) in
        do! delete_item_row id in
        ret (res_json (JMessage "Deleted"))
    end).

(** ** PATCH /api/admin/claims/:id *)

Definition valid : list string :=
  ["new"; "in_review"; "approved"; "rejected"; "resolved"].

(** [valid.includes(status)]. *)
Definition includes (l : list string) (v : option string) : bool :=
  match v with
  | Some s => existsb (String.eqb s) l
  | None => false
  end.

Definition patch_claim (s : session) (id_param : string)
    (status : option string) : M response :=
  requireAdmin s (
    let id := JS.parseInt id_param in
    if negb (includes valid status) then
      ret (res_status 400 (JError "Invalid status"))
    else
      do! update_claim_status (default "" status) id in
      let! claim := select_claim id in
      ret (res_json (JClaim claim))).

(** ** Well-formed tables

    What AUTOINCREMENT and the primary keys give: no id is above the
    counter of its table and no id occurs twice. *)
Definition wf (w : world) : Prop :=
  Forall (fun it => Item.id it <= items_seq w) (items w)
  /\ NoDup (List.map Item.id (items w))
  /\ Forall (fun c => Claim.id c <= claims_seq w) (claims w)
  /\ NoDup (List.map Claim.id (claims w)).

(** The rows of a page response; no rows in any other response. *)
Definition page_rows (res : response) : list Item.listed :=
  match body res with
  | JPage _ _ _ rows => rows
  | _ => []
  end.

(** The request with another [page] parameter. *)
Definition with_page (p : option string) (r : Query.t) : Query.t :=
  {| Query.q := Query.q r; Query.category := Query.category r;
     Query.location := Query.location r; Query.status := Query.status r;
     Query.date_from := Query.date_from r; Query.date_to := Query.date_to r;
     Query.sort := Query.sort r; Query.page := p;
     Query.limit := Query.limit r |}.

(** The seven required fields of a report are all non-empty after
    [sanitizeString]. *)
Definition item_form_ok (b : ItemForm.t) : bool :=
  JS.nonempty (sanitizeString (ItemForm.title b) 120)
  && JS.nonempty (sanitizeString (ItemForm.description b) 2000)
  && JS.nonempty (sanitizeString (ItemForm.category b) 60)
  && JS.nonempty (sanitizeString (ItemForm.location_found b) 120)
  && JS.nonempty (sanitizeString (ItemForm.date_found b) 10)
  && JS.nonempty (sanitizeString (ItemForm.reporter_name b) 80)
  && JS.nonempty (sanitizeString (ItemForm.reporter_email b) 120).

(** The three required fields of a claim are non-empty after
    [sanitizeString]. *)
Definition claim_form_ok (b : ClaimForm.t) : bool :=
  JS.nonempty (sanitizeString (ClaimForm.claimant_name b) 80)
  && JS.nonempty (sanitizeString (ClaimForm.claimant_email b) 120)
  && JS.nonempty (sanitizeString (ClaimForm.message b) 1500).

(** The events of [unlink_file]. *)
Definition unlink_events (file : option string) : list event :=
  match file with
  | Some name => [EUnlink name]
  | None => []
  end.

(** The upload directory without the file of the request. *)
Definition without_file (file : option string) (u : gset string) : gset string :=
  match file with
  | Some name => u ∖ {[ name ]}
  | None => u
  end.

(** The names that [unlink_proofs] unlinks, in order. *)
Definition proof_files (cs : list Claim.t) : list string :=
  List.flat_map
    (fun c => if JS.truthy (Claim.proof_filename c)
              then [default "" (Claim.proof_filename c)] else [])
    cs.

(** The name that the photo clean-up unlinks, if any. *)
Definition photo_file (it : Item.t) : list string :=
  if JS.truthy (Item.photo_filename it)
  then [default "" (Item.photo_filename it)] else [].

(** ** The server as a transition system *)

(** [upload.single(field)]: the accepted file of a multipart request is
    stored in the upload directory, under its generated name, before the
    handler runs. *)
Definition upload_single (file : option string) : M unit := fun w =>
  (tt, match file with
       | Some name =>
           {| items := items w; items_seq := items_seq w; claims := claims w;
              claims_seq := claims_seq w; uploads := {[ name ]} ∪ uploads w;
              trace := trace w |}
       | None => w
       end).

(** The requests of the routes of the model; [now] is the time stamp that
    the database gives to a row inserted by the request. *)
Inductive request : Type :=
| GetItems (r : Query.t)
| GetItem (s : session) (id_param : string)
| PostItem (now : string) (body : ItemForm.t) (file : option string)
| PostClaim (now id_param : string) (body : ClaimForm.t) (file : option string)
| PatchItem (s : session) (id_param : string) (body : PatchBody.t)
| DeleteItem (s : session) (id_param : string)
| PatchClaim (s : session) (id_param : string) (status : option string).

Definition handle (rq : request) : M response :=
  match rq with
  | GetItems r => get_items r
  | GetItem s id_param => get_item s id_param
  | PostItem now body file =>
      do! upload_single file in post_item now body file
  | PostClaim now id_param body file =>
      do! upload_single file in post_claim now id_param body file
  | PatchItem s id_param body => patch_item s id_param body
  | DeleteItem s id_param => delete_item s id_param
  | PatchClaim s id_param status => patch_claim s id_param status
  end.

(** The worlds that the server reaches from the empty database. *)
Inductive reachable : world -> Prop :=
| reachable_init : reachable empty_world
| reachable_step w rq : reachable w -> reachable (handle rq w).2.

(** ** Rows addressed by a route parameter *)

(** The row [it] of the table [items] has the id that the parameter
    parsed to. *)
Definition item_at (w : world) (id : JS.jsnum) (it : Item.t) : Prop :=
  In it (items w) /\ id = JS.Num (Item.id it).

(** No row of [items] has the id that the parameter parsed to. *)
Definition no_item_at (w : world) (id : JS.jsnum) : Prop :=
  forall it, In it (items w) -> id <> JS.Num (Item.id it).

Definition claim_at (w : world) (id : JS.jsnum) (c : Claim.t) : Prop :=
  In c (claims w) /\ id = JS.Num (Claim.id c).

Definition no_claim_at (w : world) (id : JS.jsnum) : Prop :=
  forall c, In c (claims w) -> id <> JS.Num (Claim.id c).

#[global] Instance wf_dec w : Decision (wf w).
Proof. unfold wf. apply _. Defined.

(** ** Vocabulary of the statements *)

(** The filters of a listing request, in the words of the interface:
    every filter that is given (not empty) must hold, and a missing
    [status] stands for 'approved'. *)
Definition matches_filters (r : Query.t) (it : Item.t) : Prop :=
  let q := default "" (Query.q r) in
  let category := default "" (Query.category r) in
  let location := default "" (Query.location r) in
  let status := default "approved" (Query.status r) in
  let date_from := default "" (Query.date_from r) in
  let date_to := default "" (Query.date_to r) in
  (status <> "" -> Item.status it = status)
  /\ (q <> "" -> Sql.like (Sql.around q) (Item.title it) = true
                 \/ Sql.like (Sql.around q) (Item.description it) = true)
  /\ (category <> "" -> Item.category it = category)
  /\ (location <> "" ->
        Sql.like (Sql.around location) (Item.location_found it) = true)
  /\ (date_from <> "" -> Sql.text_le date_from (Item.date_found it) = true)
  /\ (date_to <> "" -> Sql.text_le (Item.date_found it) date_to = true).

(** The order of the rows of a response. *)
Definition listed_asc (a b : Item.listed) : Prop :=
  Sql.text_le (Item.l_created_at a) (Item.l_created_at b) = true.

Definition listed_desc (a b : Item.listed) : Prop :=
  Sql.text_le (Item.l_created_at b) (Item.l_created_at a) = true.

(** The rows of pages 1 to [n], one after the other; [pages k] is the
    [page] parameter of the request for page [k + 1]. *)
Definition pages_rows (r : Query.t) (w : world) (pages : nat -> option string)
    (n : nat) : list Item.listed :=
  concat (List.map
            (fun k => page_rows (get_items (with_page (pages k) r) w).1)
            (seq 0 n)).

(** The request with another [status] parameter. *)
Definition with_status (st : option string) (r : Query.t) : Query.t :=
  {| Query.q := Query.q r; Query.category := Query.category r;
     Query.location := Query.location r; Query.status := st;
     Query.date_from := Query.date_from r; Query.date_to := Query.date_to r;
     Query.sort := Query.sort r; Query.page := Query.page r;
     Query.limit := Query.limit r |}.

(** The request is turned down with the answer [res]: no table changes
    and the only effect is the unlinking of the stored file, if any. *)
Definition turned_down (res : response) (file : option string) (w : world)
    (out : response * world) : Prop :=
  out.1 = res
  /\ items out.2 = items w /\ items_seq out.2 = items_seq w
  /\ claims out.2 = claims w /\ claims_seq out.2 = claims_seq w
  /\ uploads out.2 = without_file file (uploads w)
  /\ trace out.2 = trace w ++ unlink_events file.

(** ** Sample data *)

(** Sample rows and worlds for the concrete instances below. *)
Module Sample.

Definition backpack (id : Z) (status : string) : Item.t :=
  {| Item.id := id; Item.title := "Blue Backpack";
     Item.description := "Found near the stairs";
     Item.category := "Bags"; Item.location_found := "Library";
     Item.date_found := "2025-01-10";
     Item.photo_filename := Some "photo.png";
     Item.status := status; Item.reporter_name := "A";
     Item.reporter_email := "a@x.com";
     Item.created_at := "2025-01-10 09:00:00" |}.

Definition inquiry (id item_id : Z) (proof : option string) : Claim.t :=
  {| Claim.id := id; Claim.item_id := item_id;
     Claim.claimant_name := "B"; Claim.claimant_email := "b@x.com";
     Claim.student_id := ""; Claim.message := "It is mine";
     Claim.proof_filename := proof; Claim.status := "new";
     Claim.created_at := "2025-01-11 10:00:00" |}.

(** One item with the given status, a claim with a proof and a claim
    without one; the proof file is on disk, the photo is not. *)
Definition one (status : string) : world :=
  {| items := [backpack 1 status]; items_seq := 1;
     claims := [inquiry 1 1 (Some "proof.png"); inquiry 2 1 None];
     claims_seq := 2; uploads := {[ "proof.png" ]}; trace := [] |}.

Definition form : ItemForm.t :=
  {| ItemForm.title := Some "Blue Backpack";
     ItemForm.description := Some "...";
     ItemForm.category := Some "Bags";
     ItemForm.location_found := Some "Library";
     ItemForm.date_found := Some "2025-01-10";
     ItemForm.reporter_name := Some "A";
     ItemForm.reporter_email := Some "a@x.com" |}.

Definition claim_form : ClaimForm.t :=
  {| ClaimForm.claimant_name := Some "B";
     ClaimForm.claimant_email := Some "b@x.com";
     ClaimForm.student_id := None;
     ClaimForm.message := Some "It is mine" |}.

Definition no_query : Query.t :=
  {| Query.q := None; Query.category := None; Query.location := None;
     Query.status := None; Query.date_from := None; Query.date_to := None;
     Query.sort := None; Query.page := None; Query.limit := None |}.

Definition only_action (a : string) : PatchBody.t :=
  {| PatchBody.action := Some a; PatchBody.title := None;
     PatchBody.description := None; PatchBody.category := None;
     PatchBody.location_found := None; PatchBody.date_found := None |}.

End Sample.

(** The listing request with the given [page] and [limit] and no filter. *)
Definition paging (page limit : option string) : Query.t :=
  {| Query.q := None; Query.category := None; Query.location := None;
     Query.status := None; Query.date_from := None; Query.date_to := None;
     Query.sort := None; Query.page := page; Query.limit := limit |}.

(** Six items of all four statuses, reported on different days. *)
Definition on_shelf (id : Z) (title status day : string) : Item.t :=
  {| Item.id := id; Item.title := title; Item.description := "as found";
     Item.category := "Other"; Item.location_found := "Library";
     Item.date_found := day; Item.photo_filename := None;
     Item.status := status; Item.reporter_name := "A";
     Item.reporter_email := "a@x.com";
     Item.created_at := (day ++ " 09:00:00")%string |}.

Definition shelf : world :=
  {| items :=
       [ on_shelf 1 "Blue Backpack" "approved" "2025-01-10";
         on_shelf 2 "Umbrella" "archived" "2025-01-11";
         on_shelf 3 "Keys" "pending" "2025-01-12";
         on_shelf 4 "Water bottle" "approved" "2025-01-13";
         on_shelf 5 "Scarf" "claimed" "2025-01-14";
         on_shelf 6 "Calculator" "approved" "2025-01-15" ];
     items_seq := 6; claims := []; claims_seq := 0; uploads := ∅;
     trace := [] |}.

(** The listing request [?limit=2]. *)
Definition two_per_page : Query.t :=
  {| Query.q := None; Query.category := None; Query.location := None;
     Query.status := None; Query.date_from := None; Query.date_to := None;
     Query.sort := None; Query.page := None; Query.limit := Some "2" |}.

(** The [page] parameters '1' and '2'. *)
Definition first_pages (k : nat) : option string :=
  match k with
  | O => Some "1"
  | S O => Some "2"
  | _ => None
  end.

(** The listing request [?status=]. *)
Definition any_status : Query.t :=
  {| Query.q := None; Query.category := None; Query.location := None;
     Query.status := Some ""; Query.date_from := None; Query.date_to := None;
     Query.sort := None; Query.page := None; Query.limit := None |}.

(** * The remaining routes and the pages that call them *)

(** ** Trimmed strings *)

Definition first_char (s : string) : option ascii :=
  match s with
  | EmptyString => None
  | String c _ => Some c
  end.

Fixpoint last_char (s : string) : option ascii :=
  match s with
  | EmptyString => None
  | String c EmptyString => Some c
  | String _ s' => last_char s'
  end.

(** Neither the first nor the last character is white space. *)
Definition trimmed (s : string) : Prop :=
  (forall c, first_char s = Some c -> JS.is_ws c = false)
  /\ (forall c, last_char s = Some c -> JS.is_ws c = false).

(** ** Responses of the administration and login routes *)

Module AdminRow.
(** The seven columns of the administration listing of items. *)
Record t : Type := mk {
  id : Z;
  title : string;
  category : string;
  location_found : string;
  date_found : string;
  status : string;
  created_at : string
}.

Definition project (it : Item.t) : t :=
  {| id := Item.id it; title := Item.title it; category := Item.category it;
     location_found := Item.location_found it;
     date_found := Item.date_found it; status := Item.status it;
     created_at := Item.created_at it |}.
End AdminRow.

Module ClaimRow.
(** A claim joined with the title and the status of its item. *)
Record t : Type := mk {
  id : Z;
  item_id : Z;
  claimant_name : string;
  claimant_email : string;
  student_id : string;
  status : string;
  created_at : string;
  item_title : string;
  item_status : string
}.

Definition join (c : Claim.t) (i : Item.t) : t :=
  {| id := Claim.id c; item_id := Claim.item_id c;
     claimant_name := Claim.claimant_name c;
     claimant_email := Claim.claimant_email c;
     student_id := Claim.student_id c; status := Claim.status c;
     created_at := Claim.created_at c; item_title := Item.title i;
     item_status := Item.status i |}.
End ClaimRow.

Module Stats.
Record t : Type := mk {
  items_total : Z;
  items_pending : Z;
  items_approved : Z;
  items_claimed : Z;
  claims_total : Z;
  claims_new : Z
}.
End Stats.

Inductive admin_json : Type :=
| AError (error : string)
| AItems (items : list AdminRow.t)
| AClaims (claims : list ClaimRow.t)
| AStats (stats : Stats.t)
| AMessage (message : string)
| ALoggedIn (message username role : string).

Record admin_response : Type := mkAdminResponse {
  a_code : Z;
  a_body : admin_json
}.

Definition a_json (b : admin_json) : admin_response :=
  {| a_code := 200; a_body := b |}.
Definition a_status (c : Z) (b : admin_json) : admin_response :=
  {| a_code := c; a_body := b |}.

(** [requireAdmin] in front of the handlers below. *)
Definition requireAdminA (s : session) (next : M admin_response)
  : M admin_response :=
  if negb (isAdmin s) then ret (a_status 401 (AError "Unauthorized"))
  else next.

(** ** GET /api/admin/items *)

Definition admin_where (status q : option string) : list (Item.t -> bool) :=
  let status := default "" status in
  let q := default "" q in
  (if JS.nonempty status
   then [fun it => String.eqb (Item.status it) status] else []) ++
  (if JS.nonempty q
   then [fun it => Sql.like (Sql.around q) (Item.title it)
                   || Sql.like (Sql.around q) (Item.description it)]
   else []).

(** [SELECT ... FROM items WHERE ... ORDER BY created_at DESC LIMIT 200]. *)
Definition select_admin_items (status q : option string)
  : M (list AdminRow.t) := fun w =>
  (List.map AdminRow.project
     (Sql.limit_offset 200 0
        (Sql.order_by created_desc
           (List.filter (whereSql (admin_where status q)) (items w)))), w).

Definition admin_items (s : session) (status q : option string)
  : M admin_response :=
  requireAdminA s (
    let! items := select_admin_items status q in
    ret (a_json (AItems items))).

(** ** GET /api/admin/claims *)

(** [FROM claims c JOIN items i ON i.id = c.item_id]. *)
Definition claims_join_items (w : world) : list ClaimRow.t :=
  List.flat_map
    (fun c =>
       List.map (ClaimRow.join c)
         (List.filter (fun i => Item.id i =? Claim.item_id c) (items w)))
    (claims w).

Definition claim_where (status : option string) : list (ClaimRow.t -> bool) :=
  let status := default "" status in
  if JS.nonempty status
  then [fun c => String.eqb (ClaimRow.status c) status] else [].

Definition claim_desc (a b : ClaimRow.t) : Prop :=
  Sql.text_le (ClaimRow.created_at b) (ClaimRow.created_at a) = true.

#[global] Instance claim_desc_dec a b : Decision (claim_desc a b).
Proof. unfold claim_desc. apply _. Defined.

(** [SELECT ... FROM claims c JOIN items i ... WHERE ...
    ORDER BY c.created_at DESC LIMIT 200]. *)
Definition select_admin_claims (status : option string)
  : M (list ClaimRow.t) := fun w =>
  (Sql.limit_offset 200 0
     (Sql.order_by claim_desc
        (List.filter (fun r => forallb (fun c => c r) (claim_where status))
           (claims_join_items w))), w).

Definition admin_claims (s : session) (status : option string)
  : M admin_response :=
  requireAdminA s (
    let! rows := select_admin_claims status in
    ret (a_json (AClaims rows))).

(** ** GET /api/admin/stats *)

(** [SELECT COUNT( * ) as c FROM items WHERE status = ...]. *)
Definition count_items_status (st : string) : M Z := fun w =>
  (Z.of_nat (length (List.filter (fun it => String.eqb (Item.status it) st)
                       (items w))), w).

Definition count_claims_status (st : string) : M Z := fun w =>
  (Z.of_nat (length (List.filter (fun c => String.eqb (Claim.status c) st)
                       (claims w))), w).

Definition count_all_items : M Z := fun w =>
  (Z.of_nat (length (items w)), w).

Definition count_all_claims : M Z := fun w =>
  (Z.of_nat (length (claims w)), w).

Definition admin_stats (s : session) : M admin_response :=
  requireAdminA s (
    let! totalItems := count_all_items in
    let! pending := count_items_status "pending" in
    let! approved := count_items_status "approved" in
    let! claimed := count_items_status "claimed" in
    let! totalClaims := count_all_claims in
    let! newClaims := count_claims_status "new" in
    ret (a_json (AStats
      {| Stats.items_total := totalItems; Stats.items_pending := pending;
         Stats.items_approved := approved; Stats.items_claimed := claimed;
         Stats.claims_total := totalClaims; Stats.claims_new := newClaims |}))).

(** ** Users, login and password change *)

Module User.
Record t : Type := mk {
  id : Z;
  username : string;
  password_hash : string;
  role : string
}.
End User.

Module SessionUser.
(** [req.session.user]. *)
Record t : Type := mk {
  id : Z;
  username : string;
  role : string
}.
End SessionUser.

(** The table [users] with its AUTOINCREMENT counter. *)
Record accounts : Type := mkAccounts {
  users : list User.t;
  users_seq : Z
}.

(** What [isAdmin] reads of the session. *)
Definition session_of (u : option SessionUser.t) : session :=
  option_map SessionUser.role u.

Definition set_hash (h : string) (u : User.t) : User.t :=
  {| User.id := User.id u; User.username := User.username u;
     User.password_hash := h; User.role := User.role u |}.

Section Auth.

(** [bcrypt.compare(password, hash)], a black box. *)
Variable compare : string -> string -> bool.

(** POST /api/auth/login: the answer and the session after it. *)
Definition login (db : accounts) (sess : option SessionUser.t)
    (username password : option string)
  : admin_response * option SessionUser.t :=
  let username := default "" username in
  let password := default "" password in
  match List.find (fun u => String.eqb (User.username u) (JS.trim username))
          (users db) with
  | None => (a_status 401 (AError "Invalid credentials"), sess)
  | Some user =>
      if negb (compare password (User.password_hash user))
      then (a_status 401 (AError "Invalid credentials"), sess)
      else
        (a_json (ALoggedIn "Logged in" (User.username user) (User.role user)),
         Some {| SessionUser.id := User.id user;
                 SessionUser.username := User.username user;
                 SessionUser.role := User.role user |})
  end.

(** POST /api/admin/change-password; [hash] is what [bcrypt.hash(next, 10)]
    returns.  Without a row for the user of the session the handler
    throws on [user.password_hash] and answers 500. *)
Definition change_password (db : accounts) (sess : option SessionUser.t)
    (current next : option string) (hash : string)
  : admin_response * accounts :=
  if negb (isAdmin (session_of sess))
  then (a_status 401 (AError "Unauthorized"), db)
  else
    let current := default "" current in
    let next := default "" next in
    match List.find
            (fun u => match sess with
                      | Some su => User.id u =? SessionUser.id su
                      | None => false
                      end) (users db) with
    | None => (a_status 500 (AError "Failed to change password"), db)
    | Some user =>
        if negb (compare current (User.password_hash user))
        then (a_status 400 (AError "Current password incorrect"), db)
        else if (String.length next <? 8)%nat
        then (a_status 400 (AError "New password too short"), db)
        else
          (a_json (AMessage "Password changed"),
           {| users :=
                List.map (fun u => if User.id u =? User.id user
                                   then set_hash hash u else u) (users db);
              users_seq := users_seq db |})
    end.

End Auth.

(** POST /api/auth/logout: the session is destroyed. *)
Definition logout (sess : option SessionUser.t)
  : admin_response * option SessionUser.t :=
  (a_json (AMessage "Logged out"), None).

(** The seeding step of [init]: the user 'admin' is inserted only when no
    user has that name; [hash] is what [bcrypt.hash('ChangeMe123!', 10)]
    returns. *)
Definition seed_admin (hash : string) (db : accounts) : accounts :=
  match List.find (fun u => String.eqb (User.username u) "admin") (users db) with
  | Some _ => db
  | None =>
      {| users := users db ++
                  [{| User.id := users_seq db + 1; User.username := "admin";
                      User.password_hash := hash; User.role := "admin" |}];
         users_seq := users_seq db + 1 |}
  end.

(** ** Invariants of the lifecycle *)

Definition item_statuses : list string :=
  ["pending"; "approved"; "claimed"; "archived"].

(** Every item has one of the four statuses and every claim one of the
    five. *)
Definition statuses_ok (w : world) : Prop :=
  Forall (fun it => In (Item.status it) item_statuses) (items w)
  /\ Forall (fun c => In (Claim.status c) valid) (claims w).

(** Every claim belongs to an item of the table. *)
Definition claims_owned (w : world) : Prop :=
  Forall (fun c => exists it, In it (items w) /\ Item.id it = Claim.item_id c)
    (claims w).

(** The file names that the rows point to: the photos of the items and
    the proofs of the claims. *)
Definition file_refs (w : world) : list string :=
  List.flat_map photo_file (items w) ++ proof_files (claims w).

(** The upload directory holds exactly the files that the rows point to,
    each of them for one row. *)
Definition files_ok (w : world) : Prop :=
  NoDup (file_refs w) /\ uploads w = list_to_set (file_refs w).

(** The name that an upload generates is not empty and not in use. *)
Definition fresh_upload (rq : request) (w : world) : Prop :=
  match rq with
  | PostItem _ _ (Some name) | PostClaim _ _ _ (Some name) =>
      name <> "" /\ name ∉ uploads w
  | _ => True
  end.

(** The worlds that the server reaches when every upload gets a fresh
    name. *)
Inductive reachable_fresh : world -> Prop :=
| fresh_init : reachable_fresh empty_world
| fresh_step w rq :
    reachable_fresh w -> fresh_upload rq w ->
    reachable_fresh (handle rq w).2.

(** The requests one after the other. *)
Fixpoint run (rqs : list request) (w : world) : world :=
  match rqs with
  | [] => w
  | rq :: rqs' => run rqs' (handle rq w).2
  end.

(** ** What one request does to the tables and the files *)

(** The upload directory after the upload of the request. *)
Definition with_file (file : option string) (u : gset string) : gset string :=
  match file with
  | Some name => {[ name ]} ∪ u
  | None => u
  end.

(** The rewritings of an item that the admin actions apply. *)
Inductive item_rewrite : (Item.t -> Item.t) -> Prop :=
| rewrite_status st : In st item_statuses -> item_rewrite (set_status st)
| rewrite_fields t d c l f : item_rewrite (set_fields t d c l f).

(** The file that the upload of a request stores. *)
Definition uploaded (rq : request) : option string :=
  match rq with
  | PostItem _ _ file | PostClaim _ _ _ file => file
  | _ => None
  end.

(** The outcomes of a request that uploaded [up]: nothing but possibly
    the file that came and went, a new pending item, a new claim on an
    item, rewritten items, claims with a new status, or a deleted item
    with its claims and files. *)
Inductive outcome (up : option string) (w w' : world) : Prop :=
| out_same :
    items w' = items w -> items_seq w' = items_seq w ->
    claims w' = claims w -> claims_seq w' = claims_seq w ->
    uploads w' = without_file up (with_file up (uploads w)) ->
    outcome up w w'
| out_item (row : Item.t) :
    items w' = items w ++ [row] -> items_seq w' = items_seq w + 1 ->
    Item.id row = items_seq w + 1 -> Item.status row = "pending" ->
    Item.photo_filename row = up ->
    claims w' = claims w -> claims_seq w' = claims_seq w ->
    uploads w' = with_file up (uploads w) ->
    outcome up w w'
| out_claim (row : Claim.t) (it : Item.t) :
    claims w' = claims w ++ [row] -> claims_seq w' = claims_seq w + 1 ->
    Claim.id row = claims_seq w + 1 -> Claim.status row = "new" ->
    Claim.proof_filename row = up ->
    In it (items w) -> Claim.item_id row = Item.id it ->
    items w' = items w -> items_seq w' = items_seq w ->
    uploads w' = with_file up (uploads w) ->
    outcome up w w'
| out_items (id : JS.jsnum) (f : Item.t -> Item.t) :
    up = None -> item_rewrite f ->
    items w'
    = List.map (fun x => if Sql.id_is id (Item.id x) then f x else x) (items w) ->
    items_seq w' = items_seq w ->
    claims w' = claims w -> claims_seq w' = claims_seq w ->
    uploads w' = uploads w ->
    outcome up w w'
| out_claims (id : JS.jsnum) (st : string) :
    up = None -> In st valid ->
    claims w'
    = List.map (fun c => if Sql.id_is id (Claim.id c)
                         then set_claim_status st c else c) (claims w) ->
    claims_seq w' = claims_seq w ->
    items w' = items w -> items_seq w' = items_seq w ->
    uploads w' = uploads w ->
    outcome up w w'
| out_deleted (it : Item.t) :
    up = None ->
    List.find (fun x => Item.id it =? Item.id x) (items w) = Some it ->
    items w'
    = List.filter (fun x => negb (Item.id it =? Item.id x)) (items w) ->
    items_seq w' = items_seq w ->
    claims w'
    = List.filter (fun c => negb (Item.id it =? Claim.item_id c)) (claims w) ->
    claims_seq w' = claims_seq w ->
    uploads w'
    = uploads w
      ∖ list_to_set
          (proof_files
             (List.filter (fun c => Item.id it =? Claim.item_id c) (claims w))
           ++ photo_file it) ->
    outcome up w w'.

(** The row that an accepted report stores under the id [id]. *)
Definition reported (now : string) (b : ItemForm.t) (file : option string)
    (id : Z) : Item.t :=
  {| Item.id := id;
     Item.title := sanitizeString (ItemForm.title b) 120;
     Item.description := sanitizeString (ItemForm.description b) 2000;
     Item.category := sanitizeString (ItemForm.category b) 60;
     Item.location_found := sanitizeString (ItemForm.location_found b) 120;
     Item.date_found := sanitizeString (ItemForm.date_found b) 10;
     Item.photo_filename := file;
     Item.status := "pending";
     Item.reporter_name := sanitizeString (ItemForm.reporter_name b) 80;
     Item.reporter_email := sanitizeString (ItemForm.reporter_email b) 120;
     Item.created_at := now |}.

(** The names of the admin actions. *)
Definition actions : list string :=
  ["approve"; "archive"; "mark_claimed"; "edit"].

(** The order of the rows of the administration listing. *)
Definition admin_desc (a b : AdminRow.t) : Prop :=
  Sql.text_le (AdminRow.created_at b) (AdminRow.created_at a) = true.

(** The table [users] as its constraints keep it: ids and names are
    unique (PRIMARY KEY, UNIQUE) and no id is above the counter. *)
Definition accounts_wf (db : accounts) : Prop :=
  NoDup (List.map User.id (users db))
  /\ NoDup (List.map User.username (users db))
  /\ Forall (fun u => User.id u <= users_seq db) (users db).

(** The session that a login of the user sets. *)
Definition session_for (u : User.t) : SessionUser.t :=
  {| SessionUser.id := User.id u; SessionUser.username := User.username u;
     SessionUser.role := User.role u |}.

(** The database before [init] has run for the first time. *)
Definition no_accounts : accounts := {| users := []; users_seq := 0 |}.

(** ** The page that keeps its items in the browser

    The script of the static pages stores the items as a JSON array under
    the key [lostAndFoundItems] of [localStorage]; the storage is modelled
    by the parsed value, [None] while the key is not set. *)

Module Browser.

Record item : Type := mk {
  id : Z;
  name : string;
  category : string;
  location : string;
  date : string;
  description : string;
  photo : option string;
  status : string
}.

Definition storage : Type := option (list item).

Definition getItems (st : storage) : list item :=
  match st with
  | Some items => items
  | None => []
  end.

Definition saveItems (items : list item) : storage := Some items.

(** The values of the report form. *)
Record form : Type := mkForm {
  itemName : string;
  itemCategory : string;
  locationFound : string;
  dateFound : string;
  itemDescription : string
}.

(** [handleReportSubmit]: [file] is [None] when no photo was chosen and
    otherwise holds [reader.result] at [onloadend] (absent when the read
    failed); [now] is [Date.now()] at that moment.  The item is built and
    saved in [onloadend], which only runs when a photo was chosen. *)
Definition handleReportSubmit (f : form) (file : option (option string))
    (now : Z) (st : storage) : storage :=
  match file with
  | Some result =>
      let newItem :=
        {| id := now; name := itemName f; category := itemCategory f;
           location := locationFound f; date := dateFound f;
           description := itemDescription f; photo := result;
           status := "pending" |} in
      saveItems (getItems st ++ [newItem])
  | None => st
  end.

(** [s.toLowerCase()] on code units below 256. *)
Definition lower_char (c : ascii) : ascii :=
  let n := N_of_ascii c in
  if (((65 <=? n) && (n <=? 90))
      || ((192 <=? n) && (n <=? 222) && negb (n =? 215)))%N
  then ascii_of_N (n + 32) else c.

Fixpoint toLowerCase (s : string) : string :=
  match s with
  | EmptyString => EmptyString
  | String c s' => String (lower_char c) (toLowerCase s')
  end.

(** [hay.includes(needle)]. *)
Fixpoint includes (needle hay : string) : bool :=
  String.prefix needle hay
  || match hay with
     | EmptyString => false
     | String _ hay' => includes needle hay'
     end.

Definition with_status (st : string) (it : item) : item :=
  {| id := id it; name := name it; category := category it;
     location := location it; date := date it;
     description := description it; photo := photo it; status := st |}.

(** [items.findIndex(item => item.id === id)], [None] for -1. *)
Fixpoint findIndex (k : Z) (items : list item) : option nat :=
  match items with
  | [] => None
  | it :: items' =>
      if id it =? k then Some O else option_map S (findIndex k items')
  end.

(** [updateItemStatus]: the first item with the id gets the status and
    the array is saved; without such an item nothing is saved. *)
Definition updateItemStatus (k : Z) (newStatus : string) (st : storage)
  : storage :=
  let items := getItems st in
  match findIndex k items with
  | Some itemIndex => saveItems (alter (with_status newStatus) itemIndex items)
  | None => st
  end.

(** [deleteItem]. *)
Definition deleteItem (k : Z) (st : storage) : storage :=
  saveItems (List.filter (fun it => negb (id it =? k)) (getItems st)).

(** [renderBrowseItems]: the items whose cards are put into the grid;
    [search] and [cat] are the values of the search bar and of the
    category filter, [None] when the element is not on the page. *)
Definition renderBrowseItems (search cat : option string) (st : storage)
  : list item :=
  let allItems := getItems st in
  let approvedItems :=
    List.filter (fun it => String.eqb (status it) "approved") allItems in
  let searchTerm :=
    match search with Some v => toLowerCase v | None => "" end in
  let approvedItems :=
    if JS.nonempty searchTerm
    then List.filter
           (fun it => includes searchTerm (toLowerCase (name it))
                      || includes searchTerm (toLowerCase (description it)))
           approvedItems
    else approvedItems in
  let category :=
    match cat with
    | Some v => if JS.nonempty v then v else "all"
    | None => "all"
    end in
  if negb (String.eqb category "all")
  then List.filter (fun it => String.eqb (Browser.category it) category)
         approvedItems
  else approvedItems.

End Browser.

(** * Properties *)

(** Closes the branch of a handler that unlinks the stored file and
    answers with an error. *)
Ltac reject_branch file :=
  destruct file; simpl; rewrite ?app_nil_r; repeat split; done.

(** ** Examples of the primitives *)

Example parseInt_12 : JS.parseInt "12" = JS.Num 12.
Proof. reflexivity. Qed.
Example parseInt_abc : JS.parseInt "abc" = JS.NaN.
Proof. reflexivity. Qed.
Example parseInt_mix : JS.parseInt "  -7px" = JS.Num (-7).
Proof. reflexivity. Qed.
Example parseInt_hex : JS.parseInt "0x1F" = JS.Num 31.
Proof. reflexivity. Qed.
Example parseInt_empty : JS.parseInt "" = JS.NaN.
Proof. reflexivity. Qed.
Example parseInt_rounds :
  JS.parseInt "9007199254740993" = JS.Num 9007199254740992
  /\ JS.parseInt "9007199254740995" = JS.Num 9007199254740996
  /\ JS.parseInt "99999999999999999999" = JS.Num 100000000000000000000.
Proof. by vm_compute. Qed.
Example sub_rounds :
  JS.sub (JS.Num 9007199254740994) (JS.Num 1) = JS.Num 9007199254740992
  /\ JS.sub (JS.Num 3074457345618258432) (JS.Num 1)
     = JS.Num 3074457345618258432.
Proof. by vm_compute. Qed.
Example integer_ex :
  Sql.integer (JS.Num 40) = Some 40
  /\ Sql.integer (JS.Num (2 ^ 63 - 1024)) = Some (2 ^ 63 - 1024)
  /\ Sql.integer (JS.Num (2 ^ 63 - 512)) = None
  /\ Sql.integer (JS.Infinity false) = None
  /\ Sql.integer JS.NaN = None.
Proof. by vm_compute. Qed.
Example order_by_ties :
  List.map Item.id
    (Sql.order_by created_desc
       [Sample.backpack 1 "approved"; Sample.backpack 2 "approved";
        Sample.backpack 3 "approved"; Sample.backpack 4 "approved";
        Sample.backpack 5 "approved"])
  = [1; 2; 3; 4; 5].
Proof. reflexivity. Qed.
Example trim_ex : JS.trim "  a b  " = "a b".
Proof. reflexivity. Qed.
Example sanitize_cap : sanitizeString (Some "abcdef") 3 = "abc".
Proof. reflexivity. Qed.
Example sanitize_cap_then_trim : sanitizeString (Some "   x") 3 = "".
Proof. reflexivity. Qed.
Example like_ex1 : Sql.like (Sql.around "backpack") "Blue Backpack" = true.
Proof. reflexivity. Qed.
Example like_ex2 : Sql.like (Sql.around "b_g") "bg and beg" = true.
Proof. reflexivity. Qed.
Example like_ex3 : Sql.like (Sql.around "b_g") "bg" = false.
Proof. reflexivity. Qed.

(** ** Doubles *)

Section Doubles.

(** Up to 2^53 an integer is a double. *)
Lemma to_double_safe z : Z.abs z <= 2 ^ 53 -> JS.to_double z = JS.Num z.
Proof.
  intros H. unfold JS.to_double.
  destruct (Z.leb_spec (Z.abs z) (2 ^ 53)); [done|lia].
Qed.

(** The parts of a double above 2^53. *)
Lemma to_double_parts a :
  2 ^ 53 < a ->
  let e := Z.log2 a - 52 in
  1 <= e /\ 0 < 2 ^ e /\ 2 ^ 52 * 2 ^ e <= a < 2 ^ 53 * 2 ^ e
  /\ 2 ^ 52 <= a / 2 ^ e < 2 ^ 53.
Proof.
  intros Ha e.
  assert (H53 : 53 <= Z.log2 a).
  { change 53 with (Z.log2 (2 ^ 53)). apply Z.log2_le_mono. lia. }
  assert (He : 1 <= e) by (unfold e; lia).
  assert (Hpos : 0 < 2 ^ e) by (apply Z.pow_pos_nonneg; lia).
  destruct (Z.log2_spec a) as [Hlo Hhi]; [lia|].
  replace (Z.log2 a) with (52 + e) in Hlo by (unfold e; lia).
  replace (Z.succ (Z.log2 a)) with (53 + e) in Hhi by (unfold e; lia).
  rewrite Z.pow_add_r in Hlo, Hhi by lia.
  repeat split; try lia.
  - apply Z.div_le_lower_bound; lia.
  - apply Z.div_lt_upper_bound; lia.
Qed.

(** Above 2^53 a double is an even integer. *)
Lemma to_double_even z y :
  JS.to_double z = JS.Num y -> Z.abs y <= 2 ^ 53 \/ Z.even y = true.
Proof.
  unfold JS.to_double.
  destruct (Z.leb_spec (Z.abs z) (2 ^ 53)) as [H|H].
  - intros [= <-]. by left.
  - destruct (to_double_parts (Z.abs z) H) as (He & _).
    destruct (_ <=? _); [done|]. intros [= <-]. right.
    rewrite !Z.even_mul.
    replace (Z.log2 (Z.abs z) - 52) with (Z.succ (Z.log2 (Z.abs z) - 53)) by lia.
    rewrite Z.pow_succ_r by lia. rewrite Z.even_mul. simpl.
    by rewrite !orb_true_r.
Qed.

(** Rounding stays between the powers of two around the integer. *)
Lemma to_double_above z :
  2 ^ 53 < z ->
  JS.to_double z = JS.Infinity false
  \/ exists y, JS.to_double z = JS.Num y
               /\ 2 ^ Z.log2 z <= y <= 2 ^ (Z.log2 z + 1).
Proof.
  intros Hz. unfold JS.to_double.
  rewrite (Z.abs_eq z) by lia.
  destruct (Z.leb_spec z (2 ^ 53)) as [H|_]; [lia|].
  destruct (to_double_parts z Hz) as (He & Hpos & Hz' & Hq).
  set (e := Z.log2 z - 52) in *.
  set (q := z / 2 ^ e) in *.
  match goal with
  | |- context [if ?c then q + 1 else q] => set (q' := if c then q + 1 else q)
  end.
  assert (Hq' : q <= q' <= q + 1) by (unfold q'; destruct (_ || _); lia).
  destruct (Z.ltb_spec z 0) as [?|_]; [lia|].
  destruct (Z.leb_spec (2 ^ 1024) (q' * 2 ^ e)); [by left|right].
  eexists. split; [done|].
  rewrite Z.sgn_pos, Z.mul_1_l by lia.
  replace (Z.log2 z) with (52 + e) by (unfold e; lia).
  replace (52 + e + 1) with (53 + e) by lia.
  rewrite !Z.pow_add_r by lia. nia.
Qed.

(** An integer below 2^62 is bound as itself. *)
Lemma integer_small z : 0 <= z < 2 ^ 62 -> Sql.integer (JS.Num z) = Some z.
Proof.
  intros Hz. unfold Sql.integer.
  destruct (Z.le_gt_cases z (2 ^ 53)) as [H|H].
  - rewrite to_double_safe by lia.
    destruct (Z.ltb_spec (- 2 ^ 63) z); [|lia].
    destruct (Z.ltb_spec z (2 ^ 63)); [done|lia].
  - destruct (to_double_above z) as [E|(y & E & Hlo & Hhi)]; [lia| |].
    + exfalso. revert E. unfold JS.to_double.
      rewrite (Z.abs_eq z) by lia.
      destruct (Z.leb_spec z (2 ^ 53)); [done|].
      destruct (to_double_parts z H) as (He & Hpos & Hz' & Hq).
      set (e := Z.log2 z - 52) in *.
      match goal with
      | |- context [if ?c then ?a else ?b] =>
          match c with
          | orb _ _ => set (q' := if c then a else b)
          end
      end.
      assert (q' <= 2 ^ 53) by (unfold q'; destruct (_ || _); lia).
      destruct (Z.leb_spec (2 ^ 1024) (q' * 2 ^ e)); [|done].
      assert (2 ^ 1024 <= 2 ^ 53 * 2 ^ e) by nia.
      assert (2 ^ 52 * 2 ^ e < 2 ^ 62) by lia.
      lia.
    + rewrite E.
      assert (Z.log2 z + 1 <= 62).
      { assert (Z.log2 z < 62); [|lia]. apply Z.log2_lt_pow2; lia. }
      assert (2 ^ (Z.log2 z + 1) <= 2 ^ 62) by (apply Z.pow_le_mono_r; lia).
      assert (0 < 2 ^ Z.log2 z) by (apply Z.pow_pos_nonneg; [lia|apply Z.log2_nonneg]).
      destruct (Z.ltb_spec (- 2 ^ 63) y); [|lia].
      destruct (Z.ltb_spec y (2 ^ 63)); [done|lia].
Qed.

(** Rounding does not go below a power of two that the integer has
    reached. *)
Lemma to_double_pow2 k z y :
  53 <= k -> 2 ^ k <= z -> JS.to_double z = JS.Num y -> 2 ^ k <= y.
Proof.
  intros Hk Hz E.
  assert (0 < 2 ^ k) by (apply Z.pow_pos_nonneg; lia).
  assert (2 ^ 53 <= 2 ^ k) by (apply Z.pow_le_mono_r; lia).
  destruct (Z.le_gt_cases z (2 ^ 53)) as [H1|H1].
  - rewrite to_double_safe in E by lia. injection E as <-. done.
  - destruct (to_double_above z H1) as [E'|(y' & E' & Hlo & _)]; [congruence|].
    rewrite E' in E. injection E as <-.
    assert (k <= Z.log2 z).
    { rewrite <- (Z.log2_pow2 k) by lia. apply Z.log2_le_mono. lia. }
    assert (2 ^ k <= 2 ^ Z.log2 z) by (apply Z.pow_le_mono_r; lia).
    lia.
Qed.

(** From 2^63 on an integer is refused. *)
Lemma integer_large z : 2 ^ 63 <= z -> Sql.integer (JS.Num z) = None.
Proof.
  intros Hz. unfold Sql.integer.
  destruct (JS.to_double z) as [d| |] eqn:E; [|done|done].
  pose proof (to_double_pow2 63 z d ltac:(lia) Hz E).
  destruct (Z.ltb_spec d (2 ^ 63)); [lia|]. by rewrite andb_false_r.
Qed.

End Doubles.

(** ** [LIMIT] and [OFFSET] *)

Section LimitOffset.
Context {A : Type}.

Lemma skip_rows_drop o (rows : list A) :
  Sql.skip_rows o rows = drop (Z.to_nat o) rows.
Proof.
  revert o. induction rows as [|x rows IH]; intros o; simpl.
  - by rewrite drop_nil.
  - destruct (Z.ltb_spec 0 o).
    + rewrite IH. replace (Z.to_nat o) with (S (Z.to_nat (o - 1))) by lia.
      done.
    + by replace (Z.to_nat o) with 0%nat by lia.
Qed.

Lemma first_rows_take l (rows : list A) :
  Sql.first_rows l rows = take (Z.to_nat l) rows.
Proof.
  revert l. induction rows as [|x rows IH]; intros l; simpl.
  - by rewrite take_nil.
  - destruct (Z.ltb_spec 0 l).
    + rewrite IH. replace (Z.to_nat l) with (S (Z.to_nat (l - 1))) by lia.
      done.
    + by replace (Z.to_nat l) with 0%nat by lia.
Qed.

Lemma limit_offset_eq l o (rows : list A) :
  Sql.limit_offset l o rows
  = let rest := drop (Z.to_nat o) rows in
    if l <? 0 then rest else take (Z.to_nat l) rest.
Proof.
  unfold Sql.limit_offset. by rewrite skip_rows_drop, first_rows_take.
Qed.

End LimitOffset.

(** ** [ORDER BY] *)

Section OrderBy.
Context {A : Type} (R : relation A) `{!forall x y, Decision (R x y)}.

Lemma insert_row_Permutation x l : Sql.insert_row R x l ≡ₚ x :: l.
Proof.
  induction l as [|y l IH]; simpl; [done|].
  destruct (decide (R x y)); [done|]. by rewrite IH, Permutation_swap.
Qed.

Lemma order_by_Permutation l : Sql.order_by R l ≡ₚ l.
Proof.
  induction l as [|x l IH]; simpl; [done|].
  by rewrite insert_row_Permutation, IH.
Qed.

Lemma StronglySorted_insert_row `{!Total R, !Transitive R} x l :
  StronglySorted R l -> StronglySorted R (Sql.insert_row R x l).
Proof.
  induction 1 as [|y l Hs IH Hy]; simpl; [by repeat constructor|].
  destruct (decide (R x y)) as [Hxy|Hxy].
  - constructor; [by constructor|]. constructor; [done|].
    eapply Forall_impl; [exact Hy|]. intros z Hz. by transitivity y.
  - constructor; [done|]. rewrite insert_row_Permutation.
    constructor; [|done]. by destruct (total R x y).
Qed.

Lemma StronglySorted_order_by `{!Total R, !Transitive R} l :
  StronglySorted R (Sql.order_by R l).
Proof.
  induction l as [|x l IH]; simpl; [constructor|].
  by apply StronglySorted_insert_row.
Qed.

(** Rows with equal keys stay in the order of the scan: a list that is
    already sorted comes back as it is. *)
Lemma order_by_sorted l : StronglySorted R l -> Sql.order_by R l = l.
Proof.
  induction 1 as [|x l Hs IH Hx]; simpl; [done|]. rewrite IH.
  destruct Hx as [|y l' Hxy _]; simpl; [done|]. by rewrite decide_True.
Qed.

End OrderBy.

(** ** Lookups by id *)

Section Lookup.

Lemma select_item_world id w : (select_item id w).2 = w.
Proof. reflexivity. Qed.

Lemma find_item_id id l it :
  List.find (fun it => Sql.id_is id (Item.id it)) l = Some it ->
  id = JS.Num (Item.id it) /\ In it l.
Proof.
  intros H. apply List.find_some in H as [Hin Hid]. split; [|done].
  destruct id as [z| |]; simpl in Hid; [|done|done].
  apply Z.eqb_eq in Hid. by subst.
Qed.

(** After [UPDATE ... WHERE id = ?] the row that [get] finds is the
    rewritten one, as long as the rewriting keeps the id. *)
Lemma find_item_update id (f : Item.t -> Item.t) l :
  (forall it, Item.id (f it) = Item.id it) ->
  List.find (fun it => Sql.id_is id (Item.id it))
    (List.map (fun it => if Sql.id_is id (Item.id it) then f it else it) l)
  = option_map f (List.find (fun it => Sql.id_is id (Item.id it)) l).
Proof.
  intros Hf. induction l as [|a l IH]; [done|]. simpl.
  destruct (Sql.id_is id (Item.id a)) eqn:E.
  - by rewrite Hf, E.
  - by rewrite E.
Qed.

Lemma find_claim_update id st l :
  List.find (fun c => Sql.id_is id (Claim.id c))
    (List.map (fun c => if Sql.id_is id (Claim.id c)
                        then set_claim_status st c else c) l)
  = option_map (set_claim_status st)
      (List.find (fun c => Sql.id_is id (Claim.id c)) l).
Proof.
  induction l as [|a l IH]; [done|]. simpl.
  destruct (Sql.id_is id (Claim.id a)) eqn:E; simpl; by rewrite E.
Qed.

(** After [DELETE ... WHERE id = ?] no row has the id. *)
Lemma find_item_deleted id l :
  List.find (fun it => Sql.id_is id (Item.id it))
    (List.filter (fun it => negb (Sql.id_is id (Item.id it))) l) = None.
Proof.
  induction l as [|a l IH]; [done|]. simpl.
  destruct (Sql.id_is id (Item.id a)) eqn:E; simpl; [done|]. by rewrite E.
Qed.

End Lookup.

Section Addressing.

Lemma wf_sample st : wf (Sample.one st).
Proof. apply (bool_decide_unpack _). by vm_compute. Qed.

Lemma find_item_none w id :
  no_item_at w id ->
  List.find (fun it => Sql.id_is id (Item.id it)) (items w) = None.
Proof.
  intros H.
  destruct (List.find _ _) as [it|] eqn:E; [|done].
  apply find_item_id in E as [-> Hin]. by destruct (H it Hin).
Qed.

Lemma find_unique_id (l : list Item.t) it :
  NoDup (List.map Item.id l) -> In it l ->
  List.find (fun x => Sql.id_is (JS.Num (Item.id it)) (Item.id x)) l = Some it.
Proof.
  induction l as [|a l IH]; simpl; [done|].
  intros Hnd [->|Hin].
  - by rewrite Z.eqb_refl.
  - apply NoDup_cons in Hnd as [Hna Hnd].
    destruct (Z.eqb_spec (Item.id it) (Item.id a)) as [E|_]; [|by apply IH].
    destruct Hna. rewrite <- E. apply list_elem_of_In. by apply in_map.
Qed.

Lemma find_item_at w id it :
  wf w -> item_at w id it ->
  List.find (fun x => Sql.id_is id (Item.id x)) (items w) = Some it.
Proof.
  intros (_ & Hnd & _) [Hin ->]. by apply find_unique_id.
Qed.

Lemma find_claim_none w id :
  no_claim_at w id ->
  List.find (fun c => Sql.id_is id (Claim.id c)) (claims w) = None.
Proof.
  intros H.
  destruct (List.find _ _) as [c|] eqn:E; [|done].
  apply List.find_some in E as [Hin Hid].
  destruct id as [z| |]; simpl in Hid; [|done|done].
  apply Z.eqb_eq in Hid. subst. by destruct (H c Hin).
Qed.

Lemma find_unique_claim (l : list Claim.t) c :
  NoDup (List.map Claim.id l) -> In c l ->
  List.find (fun x => Sql.id_is (JS.Num (Claim.id c)) (Claim.id x)) l = Some c.
Proof.
  induction l as [|a l IH]; simpl; [done|].
  intros Hnd [->|Hin].
  - by rewrite Z.eqb_refl.
  - apply NoDup_cons in Hnd as [Hna Hnd].
    destruct (Z.eqb_spec (Claim.id c) (Claim.id a)) as [E|_]; [|by apply IH].
    destruct Hna. rewrite <- E. apply list_elem_of_In. by apply in_map.
Qed.

End Addressing.

(** ** Item details: GET /api/items/:id *)

(** C4. [Get(id, requester)]: with no item of that id the answer is 404
    Not found; for an item whose status is not 'approved' and a requester
    who is not an admin it is 403; otherwise (status 'approved', or an
    admin requester) it is the full row.  The world is left as it was. *)
Theorem get_item_spec (s : session) (id_param : string) (w : world) :
  (no_item_at w (JS.parseInt id_param) ->
     get_item s id_param w = (res_status 404 (JError "Not found"), w))
  /\ (forall it, wf w -> item_at w (JS.parseInt id_param) it ->
        (Item.status it <> "approved" -> isAdmin s = false ->
           get_item s id_param w
           = (res_status 403 (JError "Item not accessible"), w))
        /\ (Item.status it = "approved" \/ isAdmin s = true ->
           get_item s id_param w = (res_json (JItem it), w))).
Proof.
  split.
  - intros Hno. unfold get_item, bind, select_item.
    by rewrite (find_item_none _ _ Hno).
  - intros it Hwf Hat. unfold get_item, bind, select_item.
    rewrite (find_item_at _ _ _ Hwf Hat). split.
    + intros Hst Hadm. apply String.eqb_neq in Hst. by rewrite Hst, Hadm.
    + intros [Hst|Hadm].
      * apply String.eqb_eq in Hst. by rewrite Hst.
      * rewrite Hadm. by rewrite andb_false_r.
Qed.

(** Instances: an unknown id, a pending item seen by the public and by an
    admin, and an approved item seen by the public. *)
Lemma get_item_spec_witness :
  get_item None "2" (Sample.one "pending")
    = (res_status 404 (JError "Not found"), Sample.one "pending")
  /\ get_item None "1" (Sample.one "pending")
    = (res_status 403 (JError "Item not accessible"), Sample.one "pending")
  /\ get_item (Some "admin") "1" (Sample.one "pending")
    = (res_json (JItem (Sample.backpack 1 "pending")), Sample.one "pending")
  /\ get_item None "1" (Sample.one "approved")
    = (res_json (JItem (Sample.backpack 1 "approved")), Sample.one "approved").
Proof.
  split; [|split; [|split]].
  - apply (proj1 (get_item_spec None "2" (Sample.one "pending"))).
    intros it [<-|[]]. discriminate.
  - apply (proj2 (get_item_spec None "1" (Sample.one "pending"))
             (Sample.backpack 1 "pending")).
    + apply wf_sample.
    + split; [by left|reflexivity].
    + discriminate.
    + reflexivity.
  - apply (proj2 (get_item_spec (Some "admin") "1" (Sample.one "pending"))
             (Sample.backpack 1 "pending")).
    + apply wf_sample.
    + split; [by left|reflexivity].
    + by right.
  - apply (proj2 (get_item_spec None "1" (Sample.one "approved"))
             (Sample.backpack 1 "approved")).
    + apply wf_sample.
    + split; [by left|reflexivity].
    + by left.
Defined.

(** ** The public listing: GET /api/items *)

Section Listing.

#[global] Instance created_asc_total : Total created_asc.
Proof.
  intros a b. unfold created_asc, Sql.text_le.
  apply String.leb_total.
Qed.

#[global] Instance created_desc_total : Total created_desc.
Proof.
  intros a b. unfold created_desc, Sql.text_le.
  apply String.leb_total.
Qed.

(** The BINARY order on TEXT values is transitive. *)
Lemma text_le_trans a b c :
  Sql.text_le a b = true -> Sql.text_le b c = true -> Sql.text_le a c = true.
Proof.
  unfold Sql.text_le, String.leb.
  destruct (String.compare a b) eqn:E1; [| |discriminate];
    (destruct (String.compare b c) eqn:E2; [| |discriminate]); intros _ _.
  - apply String.compare_eq_iff in E1. subst. by rewrite E2.
  - apply String.compare_eq_iff in E1. subst. by rewrite E2.
  - apply String.compare_eq_iff in E2. subst. by rewrite E1.
  - apply String_as_OT.cmp_lt in E1. apply String_as_OT.cmp_lt in E2.
    pose proof (String_as_OT.lt_trans _ _ _ E1 E2) as H.
    apply String_as_OT.cmp_lt in H. unfold String_as_OT.cmp in H.
    by rewrite H.
Qed.

#[global] Instance created_asc_trans : Transitive created_asc.
Proof. intros a b c. unfold created_asc. apply text_le_trans. Qed.

#[global] Instance created_desc_trans : Transitive created_desc.
Proof.
  intros a b c H1 H2. unfold created_desc in *. by eapply text_le_trans.
Qed.

Lemma orderSql_perm r rows : orderSql r rows ≡ₚ rows.
Proof.
  unfold orderSql. destruct (String.eqb _ _); apply order_by_Permutation.
Qed.

Lemma orderSql_length r rows : length (orderSql r rows) = length rows.
Proof. by rewrite (orderSql_perm r rows). Qed.

Lemma orderSql_In r rows it : In it (orderSql r rows) <-> In it rows.
Proof.
  rewrite <- !list_elem_of_In. by rewrite (orderSql_perm r rows).
Qed.

Lemma limit_offset_In {A} l o (rows : list A) x :
  In x (Sql.limit_offset l o rows) -> In x rows.
Proof.
  rewrite limit_offset_eq; cbv zeta. rewrite <- !list_elem_of_In. intros H.
  destruct (l <? 0).
  - by apply (subseteq_drop (Z.to_nat o) rows).
  - apply (subseteq_drop (Z.to_nat o) rows).
    by apply (subseteq_take (Z.to_nat l)).
Qed.

Lemma matching_In r w it :
  In it (matching r w) <-> In it (items w) /\ whereSql (where_ r) it = true.
Proof. unfold matching. apply List.filter_In. Qed.

(** The handler in one step: with a limit and an offset that SQLite
    takes as 64-bit integers the answer is the page, otherwise the
    statement is refused and the answer is 500.  The world is left as it
    was. *)
Lemma get_items_unfold r w :
  get_items r w =
  match Sql.integer (perPage r), Sql.integer (offset r) with
  | Some l, Some o =>
      (res_json
         (JPage (pageNum r) (perPage r) (Z.of_nat (length (matching r w)))
            (List.map Item.project
               (Sql.limit_offset l o (orderSql r (matching r w))))), w)
  | _, _ => (res_status 500 (JError "Failed to fetch items"), w)
  end.
Proof.
  unfold get_items, bind, count_items, select_page, offset, ret.
  destruct (Sql.integer (perPage r)) as [l|]; [|done].
  by destruct (Sql.integer (JS.mul _ _)).
Qed.

(** Every row of a page is the projection of a stored row that passes
    the [WHERE] clause of the request. *)
Lemma page_rows_matching r w lr :
  In lr (page_rows (get_items r w).1) ->
  exists it, In it (items w) /\ whereSql (where_ r) it = true
             /\ lr = Item.project it.
Proof.
  rewrite get_items_unfold.
  destruct (Sql.integer (perPage r)) as [l|]; [|done].
  destruct (Sql.integer (offset r)) as [o|]; [|done].
  simpl. intros H. apply in_map_iff in H as (it & <- & Hin).
  apply limit_offset_In, orderSql_In, matching_In in Hin as [Hin Hw].
  by exists it.
Qed.

(** Without a [status] parameter the first conjunct is
    [status = 'approved']. *)
Lemma where_default_status r it :
  Query.status r = None -> whereSql (where_ r) it = true ->
  Item.status it = "approved".
Proof.
  intros Hs. unfold whereSql, where_. rewrite Hs. simpl.
  intros H. apply andb_prop in H as [H _]. by apply String.eqb_eq.
Qed.

End Listing.

(** ** Reporting a found item: POST /api/items *)

(** C1. A report whose seven required fields are non-empty after
    [sanitizeString] (caps 120/2000/60/120/10/80/120) appends exactly one
    row, with status 'pending', and the answer is 201; no page of the
    public listing asked without a [status] parameter right after shows
    a row with the id of the new item.  A report with an empty required
    field is answered 400, inserts nothing, and the only effect is the
    unlinking of the stored photo, if there is one. *)
Theorem post_item_spec (now : string) (b : ItemForm.t) (file : option string)
    (w : world) :
  wf w ->
  let res := (post_item now b file w).1 in
  let w' := (post_item now b file w).2 in
  if item_form_ok b then
    exists row,
      items w' = items w ++ [row]
      /\ Item.id row = items_seq w + 1
      /\ Item.status row = "pending"
      /\ Item.photo_filename row = file
      /\ res = res_status 201
                 (JCreated (Item.id row) "pending" "Submitted for review")
      /\ claims w' = claims w
      /\ uploads w' = uploads w
      /\ trace w' = trace w ++ [EInsertItem (Item.id row)]
      /\ (forall r lr, Query.status r = None ->
            In lr (page_rows (get_items r w').1) ->
            Item.l_id lr <> Item.id row)
  else
    res = res_status 400 (JError "All required fields must be provided")
    /\ items w' = items w
    /\ items_seq w' = items_seq w
    /\ claims w' = claims w
    /\ uploads w' = without_file file (uploads w)
    /\ trace w' = trace w ++ unlink_events file.
Proof.
  intros Hwf. unfold post_item, item_form_ok.
  destruct (JS.nonempty (sanitizeString (ItemForm.title b) 120));
    [|reject_branch file].
  destruct (JS.nonempty (sanitizeString (ItemForm.description b) 2000));
    [|reject_branch file].
  destruct (JS.nonempty (sanitizeString (ItemForm.category b) 60));
    [|reject_branch file].
  destruct (JS.nonempty (sanitizeString (ItemForm.location_found b) 120));
    [|reject_branch file].
  destruct (JS.nonempty (sanitizeString (ItemForm.date_found b) 10));
    [|reject_branch file].
  destruct (JS.nonempty (sanitizeString (ItemForm.reporter_name b) 80));
    [|reject_branch file].
  destruct (JS.nonempty (sanitizeString (ItemForm.reporter_email b) 120));
    [|reject_branch file].
  simpl. eexists. repeat (split; [reflexivity|]).
  intros r lr Hs Hin.
  apply page_rows_matching in Hin as (it & Hin & Hw & ->).
  apply (where_default_status _ _ Hs) in Hw.
  simpl in Hin. apply in_app_or in Hin as [Hin|[<-|[]]].
  - destruct Hwf as (Hle & _). rewrite Forall_forall in Hle.
    apply list_elem_of_In, Hle in Hin. simpl. lia.
  - discriminate.
Qed.

Lemma wf_empty : wf empty_world.
Proof. apply (bool_decide_unpack _). by vm_compute. Qed.

(** An instance: the first report into the empty database. *)
Lemma post_item_spec_witness :
  wf empty_world
  /\ (exists row,
        items (post_item "2025-01-10 09:00:00" Sample.form None empty_world).2
          = [row]
        /\ Item.status row = "pending"
        /\ forall lr,
             In lr (page_rows
                      (get_items Sample.no_query
                         (post_item "2025-01-10 09:00:00" Sample.form None
                            empty_world).2).1) ->
             Item.l_id lr <> Item.id row).
Proof.
  split; [exact wf_empty|].
  destruct (post_item_spec "2025-01-10 09:00:00" Sample.form None empty_world
              wf_empty) as (row & Hrows & _ & Hst & _ & _ & _ & _ & _ & Hlist).
  exists row. split; [exact Hrows|]. split; [exact Hst|].
  intros lr. by apply Hlist.
Defined.

(** ** The tables stay well formed *)

Section Invariant.

Context {A : Type} (key : A -> Z).

Lemma keys_append (l : list A) (x : A) (seq : Z) :
  key x = seq + 1 ->
  Forall (fun a => key a <= seq) l -> NoDup (List.map key l) ->
  Forall (fun a => key a <= seq + 1) (l ++ [x])
  /\ NoDup (List.map key (l ++ [x])).
Proof.
  intros Hx Hle Hnd. split.
  - apply Forall_app. split.
    + eapply Forall_impl; [exact Hle|]. simpl. intros; lia.
    + constructor; [lia|constructor].
  - rewrite List.map_app. simpl. apply NoDup_app. split; [done|]. split.
    + intros k Hk Hk'. apply list_elem_of_In in Hk.
      apply in_map_iff in Hk as (a & <- & Ha).
      rewrite Forall_forall in Hle. apply list_elem_of_In, Hle in Ha.
      apply list_elem_of_singleton in Hk'. lia.
    + apply NoDup_singleton.
Qed.

Lemma keys_update (c : A -> bool) (f : A -> A) (l : list A) :
  (forall a, key (f a) = key a) ->
  List.map key (List.map (fun a => if c a then f a else a) l)
  = List.map key l.
Proof.
  intros Hf. rewrite List.map_map. apply List.map_ext.
  intros a. by destruct (c a).
Qed.

Lemma keys_update_le (c : A -> bool) (f : A -> A) (l : list A) seq :
  (forall a, key (f a) = key a) ->
  Forall (fun a => key a <= seq) l ->
  Forall (fun a => key a <= seq) (List.map (fun a => if c a then f a else a) l).
Proof.
  intros Hf Hle. induction Hle as [|a l Ha _ IH]; simpl; constructor; [|done].
  destruct (c a); [by rewrite Hf|done].
Qed.

Lemma keys_filter (c : A -> bool) (l : list A) seq :
  Forall (fun a => key a <= seq) l -> NoDup (List.map key l) ->
  Forall (fun a => key a <= seq) (List.filter c l)
  /\ NoDup (List.map key (List.filter c l)).
Proof.
  induction l as [|a l IH]; simpl; [done|].
  intros Hle Hnd. apply Forall_cons in Hle as [Ha Hle].
  apply NoDup_cons in Hnd as [Hna Hnd].
  destruct (IH Hle Hnd) as [IH1 IH2].
  destruct (c a); simpl; [|done]. split; [by constructor|].
  apply NoDup_cons. split; [|done].
  intros Hin. apply Hna. apply list_elem_of_In in Hin.
  apply in_map_iff in Hin as (x & Hx & Hin).
  apply List.filter_In in Hin as [Hin _].
  apply list_elem_of_In. rewrite <- Hx. by apply in_map.
Qed.

End Invariant.

Section Preservation.

Lemma bind_ret_world {A B} (m : M A) (b : B) w :
  (bind m (fun _ => ret b) w).2 = (m w).2.
Proof. unfold bind, ret. by destruct (m w). Qed.

Lemma wf_unlink_file file w : wf w -> wf (unlink_file file w).2.
Proof. by destruct file. Qed.

Lemma wf_unlink_proofs cs w : wf w -> wf (unlink_proofs cs w).2.
Proof.
  revert w. induction cs as [|c cs IH]; intros w Hwf; [done|].
  simpl. unfold bind.
  destruct (JS.truthy (Claim.proof_filename c)); simpl; by apply IH.
Qed.

Lemma wf_get_items r w : wf w -> wf (get_items r w).2.
Proof.
  rewrite get_items_unfold.
  destruct (Sql.integer (perPage r)); [|done].
  by destruct (Sql.integer (offset r)).
Qed.

Lemma wf_get_item s id_param w : wf w -> wf (get_item s id_param w).2.
Proof.
  unfold get_item, bind, select_item.
  destruct (List.find _ _); [|done]. by destruct (_ && _).
Qed.

Lemma wf_post_item now b file w : wf w -> wf (post_item now b file w).2.
Proof.
  intros Hwf. unfold post_item.
  destruct (_ || _); [rewrite bind_ret_world; by apply wf_unlink_file|].
  unfold bind.
  destruct Hwf as (H1 & H2 & H3 & H4). simpl.
  split; [|split]; [| |done]; simpl;
    by eapply (keys_append Item.id (items w) _ (items_seq w)).
Qed.

Lemma wf_post_claim now id_param b file w :
  wf w -> wf (post_claim now id_param b file w).2.
Proof.
  intros Hwf. unfold post_claim. unfold bind at 1. unfold select_item.
  destruct (List.find _ _) as [it|];
    [|rewrite bind_ret_world; by apply wf_unlink_file].
  destruct (String.eqb _ _); [rewrite bind_ret_world; by apply wf_unlink_file|].
  destruct (_ || _); [rewrite bind_ret_world; by apply wf_unlink_file|].
  unfold bind.
  destruct Hwf as (H1 & H2 & H3 & H4). simpl.
  split; [done|]. split; [done|]. simpl.
  by eapply (keys_append Claim.id (claims w) _ (claims_seq w)).
Qed.

Lemma wf_update_item id f w :
  (forall it, Item.id (f it) = Item.id it) ->
  wf w -> wf (update_item id f w).2.
Proof.
  intros Hf (H1 & H2 & H3 & H4). simpl.
  split; [|split]; [| |done]; simpl.
  - by apply (keys_update_le Item.id).
  - by rewrite (keys_update Item.id).
Qed.

Lemma wf_patch_item s id_param body w :
  wf w -> wf (patch_item s id_param body w).2.
Proof.
  intros Hwf. unfold patch_item, requireAdmin.
  destruct (negb (isAdmin s)); [done|].
  unfold bind, select_item.
  destruct (List.find _ _) as [it|]; [|done].
  unfold action_update.
  repeat (destruct (is_action _ _); [by apply wf_update_item|]).
  done.
Qed.

Lemma wf_delete_item s id_param w :
  wf w -> wf (delete_item s id_param w).2.
Proof.
  intros Hwf. unfold delete_item, requireAdmin.
  destruct (negb (isAdmin s)); [done|].
  unfold bind at 1. unfold select_item.
  destruct (List.find _ _) as [it|]; [|done].
  unfold bind, select_claims_of.
  pose proof (wf_unlink_proofs
    (List.filter (fun c => Sql.id_is (JS.parseInt id_param) (Claim.item_id c))
       (claims w)) w Hwf) as Hwf1.
  destruct (unlink_proofs _ w) as [[] w1]. simpl in Hwf1.
  destruct Hwf1 as (H1 & H2 & H3 & H4).
  destruct (keys_filter Item.id
              (fun it => negb (Sql.id_is (JS.parseInt id_param) (Item.id it)))
              _ _ H1 H2).
  destruct (keys_filter Claim.id
              (fun c => negb (Sql.id_is (JS.parseInt id_param) (Claim.item_id c)))
              _ _ H3 H4).
  by destruct (JS.truthy (Item.photo_filename it)).
Qed.

Lemma wf_patch_claim s id_param status w :
  wf w -> wf (patch_claim s id_param status w).2.
Proof.
  intros (H1 & H2 & H3 & H4). unfold patch_claim, requireAdmin.
  destruct (negb (isAdmin s)); [done|].
  destruct (negb _); [done|].
  simpl. split; [done|]. split; [done|]. simpl. split.
  - by apply (keys_update_le Claim.id).
  - by rewrite (keys_update Claim.id).
Qed.

End Preservation.

(** ** Reachable worlds *)

Section Reachable.

Lemma wf_upload_single file w : wf w -> wf (upload_single file w).2.
Proof. by destruct file. Qed.

Lemma wf_handle rq w : wf w -> wf (handle rq w).2.
Proof.
  intros Hwf. destruct rq as [r|s i|now b f|now i b f|s i b|s i|s i st]; simpl.
  - by apply wf_get_items.
  - by apply wf_get_item.
  - unfold bind. pose proof (wf_upload_single f w Hwf) as H.
    destruct (upload_single f w) as [[] w1]. by apply wf_post_item.
  - unfold bind. pose proof (wf_upload_single f w Hwf) as H.
    destruct (upload_single f w) as [[] w1]. by apply wf_post_claim.
  - by apply wf_patch_item.
  - by apply wf_delete_item.
  - by apply wf_patch_claim.
Qed.

(** Every reachable world has well-formed tables. *)
Lemma reachable_wf w : reachable w -> wf w.
Proof.
  induction 1 as [|w rq _ IH]; [exact wf_empty|by apply wf_handle].
Qed.

(** A report that is turned down leaves no file behind: the file that the
    upload stored under a fresh name is gone again. *)
Lemma rejected_report_leaves_no_file now b name w :
  name ∉ uploads w -> item_form_ok b = false ->
  (handle (PostItem now b (Some name)) w).1
  = res_status 400 (JError "All required fields must be provided")
  /\ uploads (handle (PostItem now b (Some name)) w).2 = uploads w
  /\ items (handle (PostItem now b (Some name)) w).2 = items w.
Proof.
  intros Hfresh Hbad.
  assert (Hpost : forall w1,
            post_item now b (Some name) w1
            = (res_status 400 (JError "All required fields must be provided"),
               (unlink name w1).2)).
  { intros w1. unfold post_item. unfold item_form_ok in Hbad.
    by rewrite <- !negb_andb, Hbad. }
  simpl. unfold bind, upload_single. rewrite Hpost. simpl.
  repeat split.
  rewrite difference_union_distr_l_L, difference_diag_L, union_empty_l_L.
  apply difference_disjoint_L. by apply disjoint_singleton_r.
Qed.

End Reachable.

(** ** Filters, totals and pages of the listing *)

Section Pagination.

Lemma nonempty_iff s : JS.nonempty s = true <-> s <> "".
Proof. destruct s; simpl; split; congruence. Qed.

Lemma nonempty_false s : JS.nonempty s = false <-> s = "".
Proof. destruct s; simpl; split; congruence. Qed.

(** The conjuncts of [where] compose with AND. *)
Lemma whereSql_app ws1 ws2 it :
  whereSql (ws1 ++ ws2) it = whereSql ws1 it && whereSql ws2 it.
Proof. unfold whereSql. apply forallb_app. Qed.

Lemma whereSql_opt (c : bool) (p : Item.t -> bool) it :
  whereSql (if c then [p] else []) it = true <-> (c = true -> p it = true).
Proof.
  destruct c; unfold whereSql; simpl.
  - rewrite andb_true_r. naive_solver.
  - naive_solver.
Qed.

Lemma whereSql_matches r it :
  whereSql (where_ r) it = true <-> matches_filters r it.
Proof.
  unfold where_, matches_filters.
  rewrite !whereSql_app, !andb_true_iff, !whereSql_opt.
  rewrite !nonempty_iff, orb_true_iff, !String.eqb_eq.
  reflexivity.
Qed.

Lemma pages_concat {A} (L : nat) (l : list A) (n : nat) :
  concat (List.map (fun k => take L (drop (k * L) l)) (seq 0 n))
  = take (n * L) l.
Proof.
  induction n as [|n IH]; [done|].
  rewrite seq_S, List.map_app, concat_app, IH. simpl.
  rewrite app_nil_r, take_take_drop. f_equal. lia.
Qed.

Lemma Math_max_1 x z : JS.Math_max (JS.Num 1) x = JS.Num z -> 1 <= z.
Proof. destruct x as [y|[]|]; simpl; try done; intros [= <-]; lia. Qed.

Lemma perPage_range r L : perPage r = JS.Num L -> 1 <= L <= 50.
Proof.
  unfold perPage.
  destruct (match Query.limit r with Some s => _ | None => _ end)
    as [z|[]|]; simpl; try done; intros [= <-]; lia.
Qed.

Lemma pageNum_range r p : pageNum r = JS.Num p -> 1 <= p.
Proof. apply Math_max_1. Qed.

(** The limit is [NaN] or an integer from 1 to 50, never an infinity. *)
Lemma perPage_cases r :
  perPage r = JS.NaN \/ exists L, perPage r = JS.Num L /\ 1 <= L <= 50.
Proof.
  unfold perPage.
  destruct (match Query.limit r with Some s => _ | None => _ end)
    as [z|[]|]; simpl; [right|right|right|by left]; eexists;
    (split; [done|lia]).
Qed.

(** What [parseInt] returns is a double: up to 2^53 or even. *)
Lemma parseInt_double s y :
  JS.parseInt s = JS.Num y -> Z.abs y <= 2 ^ 53 \/ Z.even y = true.
Proof.
  unfold JS.parseInt. repeat case_match; try done; apply to_double_even.
Qed.

Lemma pageNum_double r p :
  pageNum r = JS.Num p -> p <= 2 ^ 53 \/ Z.even p = true.
Proof.
  unfold pageNum.
  destruct (Query.page r) as [s|]; [|intros [= <-]; left; lia].
  destruct (JS.parseInt s) as [y|[]|] eqn:E; simpl; try done;
    [|intros [= <-]; left; lia].
  intros [= <-]. destruct (Z.max_spec 1 y) as [[_ ->]|[_ ->]]; [|left; lia].
  destruct (parseInt_double _ _ E); [left; lia|by right].
Qed.

(** The offset of a page up to 2^53 is the exact product, below 2^62. *)
Lemma offset_page r p L :
  pageNum r = JS.Num p -> perPage r = JS.Num L -> p <= 2 ^ 53 ->
  offset r = JS.Num ((p - 1) * L) /\ 0 <= (p - 1) * L < 2 ^ 62.
Proof.
  intros Hp HL Hsafe. unfold offset. rewrite Hp, HL.
  apply pageNum_range in Hp. apply perPage_range in HL.
  simpl. rewrite to_double_safe by lia. split; [done|nia].
Qed.

(** A page request with a limit and a page up to 2^53 is answered with
    the slice [LIMIT limit OFFSET (page - 1) * limit] of the ordered
    rows. *)
Lemma get_items_page r w p L :
  pageNum r = JS.Num p -> perPage r = JS.Num L -> p <= 2 ^ 53 ->
  get_items r w =
  (res_json
     (JPage (JS.Num p) (JS.Num L) (Z.of_nat (length (matching r w)))
        (List.map Item.project
           (take (Z.to_nat L)
              (drop (Z.to_nat ((p - 1) * L)) (orderSql r (matching r w)))))),
   w).
Proof.
  intros Hp HL Hsafe. rewrite get_items_unfold.
  destruct (offset_page r p L Hp HL Hsafe) as [-> Ho].
  rewrite Hp, HL. apply perPage_range in HL.
  rewrite !integer_small by lia. rewrite limit_offset_eq; cbv zeta.
  destruct (Z.ltb_spec L 0); [lia|done].
Qed.

(** The pages 1 to [n] all have a number that a double holds: there are
    at most 2^53 of them. *)
Lemma pages_safe r (pages : nat -> option string) (n : nat) :
  (forall k, (k < n)%nat ->
     pageNum (with_page (pages k) r) = JS.Num (Z.of_nat (S k))) ->
  Z.of_nat n <= 2 ^ 53.
Proof.
  intros Hpages. destruct (Z.le_gt_cases (Z.of_nat n) (2 ^ 53)); [done|].
  destruct (pageNum_double _ _ (Hpages (Z.to_nat (2 ^ 53)) ltac:(lia)))
    as [H1|H1]; [lia|].
  replace (Z.of_nat (S (Z.to_nat (2 ^ 53)))) with (1 + 2 * 2 ^ 52) in H1
    by lia.
  by rewrite Z.even_add_mul_2 in H1.
Qed.

Lemma orderSql_sorted r rows :
  if String.eqb (default "newest" (Query.sort r)) "oldest"
  then StronglySorted created_asc (orderSql r rows)
  else StronglySorted created_desc (orderSql r rows).
Proof.
  unfold orderSql.
  destruct (String.eqb _ _); apply StronglySorted_order_by; apply _.
Qed.

Lemma project_ids (l : list Item.t) :
  List.map Item.l_id (List.map Item.project l) = List.map Item.id l.
Proof. rewrite List.map_map. by apply List.map_ext. Qed.

Lemma matching_NoDup r w : wf w -> NoDup (List.map Item.id (matching r w)).
Proof.
  intros (H1 & H2 & _). unfold matching.
  by destruct (keys_filter Item.id (whereSql (where_ r)) _ _ H1 H2).
Qed.

(** The pages 1 to [n], one after the other, are the ordered matching
    rows once [n * limit] reaches their number. *)
Lemma pages_rows_all r w L (pages : nat -> option string) (n : nat) :
  perPage r = JS.Num L ->
  (forall k, (k < n)%nat ->
     pageNum (with_page (pages k) r) = JS.Num (Z.of_nat (S k))) ->
  Z.of_nat (length (matching r w)) <= Z.of_nat n * L ->
  pages_rows r w pages n = List.map Item.project (orderSql r (matching r w)).
Proof.
  intros HL Hpages Hn. pose proof (pages_safe r pages n Hpages) as Hsafe.
  pose proof (perPage_range _ _ HL) as HLr.
  unfold pages_rows.
  rewrite (List.map_ext_in _
    (fun k => List.map Item.project
                (take (Z.to_nat L)
                   (drop (k * Z.to_nat L) (orderSql r (matching r w)))))).
  - rewrite <- (List.map_map
      (fun k => take (Z.to_nat L)
                  (drop (k * Z.to_nat L) (orderSql r (matching r w))))
      (List.map Item.project)).
    rewrite <- List.concat_map, pages_concat.
    rewrite firstn_all2; [done|]. rewrite orderSql_length. nia.
  - intros k Hk. apply in_seq in Hk.
    rewrite (get_items_page _ w _ L (Hpages k ltac:(lia)) HL) by lia.
    change (matching (with_page (pages k) r) w) with (matching r w).
    change (orderSql (with_page (pages k) r)) with (orderSql r).
    cbn [fst page_rows body res_json]. do 3 f_equal.
    replace (Z.of_nat (S k) - 1) with (Z.of_nat k) by lia.
    rewrite Z2Nat.inj_mul, Nat2Z.id by lia. done.
Qed.

End Pagination.

(** C2. For fixed filters, sort and limit (a limit that is absent or
    parses to an integer), every request for page 1, 2, ... is answered
    with the same [total], the number of stored rows that pass all the
    filters (AND); the pages 1 to [n], one after the other, are exactly
    the matching rows once [n * limit] reaches [total]: a permutation of
    the matching rows of the table, each id at most once, in ascending
    order of creation time for [sort=oldest] and in descending order
    otherwise (every row against all the rows after it). *)
Theorem list_pagination (r : Query.t) (w : world) (L : Z)
    (pages : nat -> option string) (n : nat) :
  perPage r = JS.Num L ->
  (forall k, (k < n)%nat ->
     pageNum (with_page (pages k) r) = JS.Num (Z.of_nat (S k))) ->
  wf w ->
  let total := Z.of_nat (length (matching r w)) in
  (forall it, In it (matching r w) <->
              In it (items w) /\ matches_filters r it)
  /\ (forall k, (k < n)%nat -> exists rows,
        get_items (with_page (pages k) r) w
        = (res_json (JPage (JS.Num (Z.of_nat (S k))) (JS.Num L) total rows), w))
  /\ (total <= Z.of_nat n * L ->
        pages_rows r w pages n
        = List.map Item.project (orderSql r (matching r w))
        /\ pages_rows r w pages n ≡ₚ List.map Item.project (matching r w)
        /\ NoDup (List.map Item.l_id (pages_rows r w pages n))
        /\ if String.eqb (default "newest" (Query.sort r)) "oldest"
           then StronglySorted listed_asc (pages_rows r w pages n)
           else StronglySorted listed_desc (pages_rows r w pages n)).
Proof.
  intros HL Hpages Hwf total.
  assert (Hpage : forall k, (k < n)%nat ->
    get_items (with_page (pages k) r) w
    = (res_json
         (JPage (JS.Num (Z.of_nat (S k))) (JS.Num L) total
            (List.map Item.project
               (take (Z.to_nat L)
                  (drop (k * Z.to_nat L) (orderSql r (matching r w)))))), w)).
  { intros k Hk. pose proof (pages_safe r pages n Hpages) as Hsafe.
    rewrite (get_items_page _ w _ L (Hpages k Hk) HL) by lia.
    change (matching (with_page (pages k) r) w) with (matching r w).
    change (orderSql (with_page (pages k) r)) with (orderSql r).
    do 5 f_equal. apply perPage_range in HL.
    replace (Z.of_nat (S k) - 1) with (Z.of_nat k) by lia.
    rewrite Z2Nat.inj_mul, Nat2Z.id by lia. done. }
  split; [|split].
  - intros it. rewrite matching_In. by rewrite whereSql_matches.
  - intros k Hk. eexists. by apply Hpage.
  - intros Hn.
    assert (Hall : pages_rows r w pages n
                   = List.map Item.project (orderSql r (matching r w))).
    { unfold pages_rows.
      rewrite (List.map_ext_in _
        (fun k => List.map Item.project
                    (take (Z.to_nat L)
                       (drop (k * Z.to_nat L) (orderSql r (matching r w))))))
        by (intros k Hk; apply in_seq in Hk; rewrite Hpage; [done|lia]).
      rewrite <- (List.map_map
        (fun k => take (Z.to_nat L)
                    (drop (k * Z.to_nat L) (orderSql r (matching r w))))
        (List.map Item.project)).
      rewrite <- List.concat_map, pages_concat.
      rewrite firstn_all2; [done|].
      rewrite orderSql_length. apply perPage_range in HL. unfold total in Hn.
      nia. }
    rewrite Hall. split; [done|]. split; [|split].
    + change (List.map Item.project) with (fmap (M:=list) Item.project).
      by rewrite (orderSql_perm r (matching r w)).
    + rewrite project_ids.
      change (List.map Item.id) with (fmap (M:=list) Item.id).
      rewrite (orderSql_perm r (matching r w)).
      by apply matching_NoDup.
    + pose proof (orderSql_sorted r (matching r w)) as Hs.
      destruct (String.eqb _ _).
      * change (List.map Item.project) with (fmap (M:=list) Item.project).
        eapply StronglySorted_fmap; [|exact Hs]. done.
      * change (List.map Item.project) with (fmap (M:=list) Item.project).
        eapply StronglySorted_fmap; [|exact Hs]. done.
Qed.

Lemma wf_shelf : wf shelf.
Proof. apply (bool_decide_unpack _). by vm_compute. Qed.

(** An instance: the three approved items of the shelf on two pages of
    two, newest first. *)
Lemma list_pagination_witness :
  perPage two_per_page = JS.Num 2
  /\ wf shelf
  /\ List.map Item.l_id (pages_rows two_per_page shelf first_pages 2)
     = [6; 4; 1].
Proof.
  split; [reflexivity|]. split; [exact wf_shelf|].
  assert (Hpages : forall k, (k < 2)%nat ->
            pageNum (with_page (first_pages k) two_per_page)
            = JS.Num (Z.of_nat (S k))).
  { intros [|[|k]] Hk; [reflexivity|reflexivity|lia]. }
  destruct (list_pagination two_per_page shelf 2 first_pages 2 eq_refl
              Hpages wf_shelf) as (_ & _ & Hall).
  destruct Hall as (-> & _); [vm_compute; discriminate|].
  reflexivity.
Defined.

(** ** Page and limit parameters *)

Example paging_defaults :
  pageNum (paging None None) = JS.Num 1
  /\ perPage (paging None None) = JS.Num 20.
Proof. by split. Qed.

Example paging_clamped :
  pageNum (paging (Some "0") (Some "0")) = JS.Num 1
  /\ perPage (paging (Some "0") (Some "0")) = JS.Num 1
  /\ pageNum (paging (Some "-3") (Some "-8")) = JS.Num 1
  /\ perPage (paging (Some "-3") (Some "-8")) = JS.Num 1
  /\ pageNum (paging (Some "7") (Some "1000")) = JS.Num 7
  /\ perPage (paging (Some "7") (Some "1000")) = JS.Num 50.
Proof. repeat split. Qed.

(** For a limit that is absent or parses to an integer and a page that
    is absent or parses to an integer up to 2^53 the answer is 200 with a
    page of at least 1, a limit between 1 and 50 and at most [limit]
    rows, taken at offset [(page - 1) * limit]. *)
Lemma get_items_numeric r w p L :
  pageNum r = JS.Num p -> perPage r = JS.Num L -> p <= 2 ^ 53 ->
  1 <= p /\ 1 <= L <= 50
  /\ code (get_items r w).1 = 200
  /\ Z.of_nat (length (page_rows (get_items r w).1)) <= L
  /\ page_rows (get_items r w).1
     = List.map Item.project
         (take (Z.to_nat L)
            (drop (Z.to_nat ((p - 1) * L)) (orderSql r (matching r w)))).
Proof.
  intros Hp HL Hsafe. rewrite (get_items_page r w p L Hp HL Hsafe).
  unfold page_rows. cbn [fst body code res_json].
  pose proof (pageNum_range _ _ Hp). pose proof (perPage_range _ _ HL).
  repeat (split; [done || lia|]). split; [|done].
  rewrite List.length_map, length_take. lia.
Qed.

(** The listing answers 500 exactly when SQLite refuses the limit or the
    offset. *)
Lemma get_items_500 r w :
  Sql.integer (perPage r) = None \/ Sql.integer (offset r) = None <->
  get_items r w = (res_status 500 (JError "Failed to fetch items"), w).
Proof.
  rewrite get_items_unfold.
  destruct (Sql.integer (perPage r)), (Sql.integer (offset r)); simpl;
    split; intros H; try done; try (by left); try (by right); by destruct H.
Qed.

(** A page or a limit that is [NaN] is refused. *)
Lemma get_items_nan r w :
  pageNum r = JS.NaN \/ perPage r = JS.NaN ->
  get_items r w = (res_status 500 (JError "Failed to fetch items"), w).
Proof.
  intros H. apply get_items_500. unfold offset.
  destruct H as [-> | ->]; [right|left]; [|done].
  by destruct (perPage r).
Qed.

(** So is a page from 2^63 on, whose offset leaves the 64-bit range,
    and a page that is an infinity. *)
Lemma get_items_out_of_range r w :
  (exists p, pageNum r = JS.Num p /\ 2 ^ 63 <= p)
  \/ pageNum r = JS.Infinity false ->
  perPage r <> JS.NaN ->
  get_items r w = (res_status 500 (JError "Failed to fetch items"), w).
Proof.
  intros Hp HL. apply get_items_500. right. unfold offset.
  destruct (perPage_cases r) as [E|(L & -> & EL)]; [done|].
  assert (Hinf : Sql.integer (JS.mul (JS.Infinity false) (JS.Num L)) = None).
  { simpl. by destruct (Z.eqb_spec L 0); [lia|]. }
  destruct Hp as [(p & -> & Hp)| ->]; [|done]. cbn [JS.sub].
  destruct (Z.eq_dec p (2 ^ 63)) as [->|Hne].
  - change (JS.to_double (2 ^ 63 - 1)) with (JS.Num (2 ^ 63)).
    apply integer_large. nia.
  - assert (Hp1 : 2 ^ 63 <= p - 1) by lia.
    destruct (JS.to_double (p - 1)) as [y|[]|] eqn:E.
    + pose proof (to_double_pow2 63 (p - 1) y ltac:(lia) Hp1 E).
      apply integer_large. nia.
    + exfalso. destruct (to_double_above (p - 1)) as [E'|(y & E' & _)];
        [lia|congruence|congruence].
    + exact Hinf.
    + exfalso. destruct (to_double_above (p - 1)) as [E'|(y & E' & _)];
        [lia|congruence|congruence].
Qed.

(** Large pages on the shelf: the page number is the double, the page
    past the last row is empty, and an offset from 2^63 on is refused. *)
Example get_items_large_pages :
  get_items (paging (Some "9007199254740993") (Some "1")) shelf
  = (res_json (JPage (JS.Num 9007199254740992) (JS.Num 1) 3 []), shelf)
  /\ get_items (paging (Some "9223372036854775295") (Some "1")) shelf
     = (res_json (JPage (JS.Num 9223372036854774784) (JS.Num 1) 3 []), shelf)
  /\ get_items (paging (Some "9223372036854775296") (Some "1")) shelf
     = (res_status 500 (JError "Failed to fetch items"), shelf)
  /\ get_items (paging (Some "3074457345618258432") (Some "3")) shelf
     = (res_status 500 (JError "Failed to fetch items"), shelf)
  /\ get_items (paging (Some "99999999999999999999") None) shelf
     = (res_status 500 (JError "Failed to fetch items"), shelf).
Proof. by vm_compute. Qed.

(** C9 (evaluation at the failing input). For [?page=abc] the page
    number is [Math.max(1, NaN)], that is [NaN], not an integer of at
    least 1: the LIMIT/OFFSET statement is refused and the answer is 500
    without a page.  The same happens to the limit for [?limit=abc] and
    for an empty [limit]. *)
Theorem get_items_page_not_a_number (w : world) :
  pageNum (paging (Some "abc") None) = JS.NaN
  /\ get_items (paging (Some "abc") None) w
     = (res_status 500 (JError "Failed to fetch items"), w)
  /\ perPage (paging None (Some "abc")) = JS.NaN
  /\ get_items (paging None (Some "abc")) w
     = (res_status 500 (JError "Failed to fetch items"), w)
  /\ perPage (paging None (Some "")) = JS.NaN.
Proof. repeat split. Qed.

(** ** An empty status parameter *)

(** C10. When the listing is asked with [status] given as the empty
    string, no status restriction applies: whether a row matches does not
    depend on its status, and a row matches exactly when it matches the
    same request restricted to its own status (so it passes the remaining
    filters).  Every answer that is a page carries as [total] the number
    of rows of the table that pass the remaining filters, whatever their
    status; a request for a page up to 2^53 is answered with such a page;
    and every row of the table that passes the remaining filters is
    among the rows of the responses for the pages 1 to [n], once
    [n * limit] reaches [total].  The handler does not look at the
    session, so this holds for any caller. *)
Theorem list_empty_status (r : Query.t) (w : world) :
  Query.status r = Some "" ->
  (forall it st,
     whereSql (where_ r) (set_status st it) = whereSql (where_ r) it)
  /\ (forall it,
        whereSql (where_ r) it
        = whereSql (where_ (with_status (Some (Item.status it)) r)) it)
  /\ (forall page limit total rows,
        body (get_items r w).1 = JPage page limit total rows ->
        total
        = Z.of_nat
            (length
               (List.filter
                  (fun it =>
                     whereSql (where_ (with_status (Some (Item.status it)) r))
                       it)
                  (items w))))
  /\ (forall p L, pageNum r = JS.Num p -> perPage r = JS.Num L ->
        p <= 2 ^ 53 ->
        exists rows,
          get_items r w
          = (res_json
               (JPage (JS.Num p) (JS.Num L)
                  (Z.of_nat
                     (length
                        (List.filter
                           (fun it =>
                              whereSql
                                (where_ (with_status (Some (Item.status it)) r))
                                it)
                           (items w))))
                  rows), w))
  /\ (forall L (pages : nat -> option string) (n : nat),
        perPage r = JS.Num L ->
        (forall k, (k < n)%nat ->
           pageNum (with_page (pages k) r) = JS.Num (Z.of_nat (S k))) ->
        Z.of_nat (length (matching r w)) <= Z.of_nat n * L ->
        forall it, In it (items w) ->
          whereSql (where_ (with_status (Some (Item.status it)) r)) it = true ->
          In (Item.project it) (pages_rows r w pages n)).
Proof.
  intros Hs.
  assert (Hown : forall it,
            whereSql (where_ r) it
            = whereSql (where_ (with_status (Some (Item.status it)) r)) it).
  { intros it. unfold where_, with_status. rewrite Hs.
    cbn [Query.status Query.q Query.category Query.location Query.date_from
         Query.date_to].
    change (default "approved" (Some "")) with "".
    change (default "approved" (Some (Item.status it))) with (Item.status it).
    change (JS.nonempty "") with false. cbv iota.
    destruct (JS.nonempty (Item.status it)); [|done].
    rewrite (whereSql_app [_]). unfold whereSql at 2. simpl.
    by rewrite String.eqb_refl. }
  split; [|split; [|split; [|split]]].
  - intros it st. unfold where_. rewrite Hs.
    change (default "approved" (Some "")) with "".
    change (JS.nonempty "") with false. cbv iota. rewrite !whereSql_app.
    by repeat (destruct (JS.nonempty _)).
  - exact Hown.
  - intros page limit total rows. rewrite get_items_unfold.
    destruct (Sql.integer (perPage r)); [|done].
    destruct (Sql.integer (offset r)); [|done].
    cbn [fst body res_json]. intros [= _ _ <- _]. unfold matching.
    do 2 f_equal. apply List.filter_ext. exact Hown.
  - intros p L Hp HL Hsafe. eexists.
    rewrite (get_items_page r w p L Hp HL Hsafe). unfold matching.
    do 5 f_equal. apply List.filter_ext. exact Hown.
  - intros L pages n HL Hpages Hn it Hin Hm.
    rewrite (pages_rows_all r w L pages n HL Hpages Hn).
    apply in_map, orderSql_In, matching_In.
    split; [done|]. by rewrite Hown.
Qed.

(** An instance: [?status=] on the shelf answers with a page that counts
    all six items and lists the pending and the archived one. *)
Lemma list_empty_status_witness :
  Query.status any_status = Some ""
  /\ (exists rows,
        get_items any_status shelf
        = (res_json (JPage (JS.Num 1) (JS.Num 20) 6 rows), shelf))
  /\ In (Item.project (on_shelf 3 "Keys" "pending" "2025-01-12"))
        (pages_rows any_status shelf (fun _ => None) 1)
  /\ In (Item.project (on_shelf 2 "Umbrella" "archived" "2025-01-11"))
        (pages_rows any_status shelf (fun _ => None) 1).
Proof.
  split; [reflexivity|].
  destruct (list_empty_status any_status shelf eq_refl)
    as (_ & _ & _ & Hp & Hin).
  assert (Hpages : forall k, (k < 1)%nat ->
            pageNum (with_page None any_status) = JS.Num (Z.of_nat (S k))).
  { intros [|k] Hk; [reflexivity|lia]. }
  split; [|split].
  - destruct (Hp 1 20 eq_refl eq_refl) as [rows Hrows];
      [vm_compute; discriminate|].
    exists rows. exact Hrows.
  - apply (Hin 20 (fun _ => None) 1%nat eq_refl Hpages).
    + vm_compute. discriminate.
    + right; right; by left.
    + reflexivity.
  - apply (Hin 20 (fun _ => None) 1%nat eq_refl Hpages).
    + vm_compute. discriminate.
    + right; by left.
    + reflexivity.
Defined.

(** ** Deleting an item: DELETE /api/admin/items/:id *)

Section Delete.

(** The loop over the claims only touches the upload directory and the
    trace: it unlinks the proof files, in the order of the claims. *)
Lemma unlink_proofs_spec cs w :
  unlink_proofs cs w
  = (tt, {| items := items w; items_seq := items_seq w; claims := claims w;
            claims_seq := claims_seq w;
            uploads := uploads w ∖ list_to_set (proof_files cs);
            trace := trace w ++ List.map EUnlink (proof_files cs) |}).
Proof.
  revert w. induction cs as [|c cs IH]; intros w.
  - destruct w. simpl. unfold ret. do 2 f_equal.
    + by rewrite difference_empty_L.
    + by rewrite app_nil_r.
  - simpl. unfold bind.
    destruct (JS.truthy (Claim.proof_filename c)); simpl.
    + rewrite IH. simpl. do 2 f_equal.
      * by rewrite difference_difference_l_L.
      * by rewrite <- app_assoc.
    + by rewrite IH.
Qed.

Lemma no_claims_left id (l : list Claim.t) c :
  In c (List.filter (fun c => negb (Sql.id_is (JS.Num id) (Claim.item_id c))) l) ->
  Claim.item_id c <> id.
Proof.
  intros H. apply List.filter_In in H as [_ H]. simpl in H.
  apply negb_true_iff, Z.eqb_neq in H. congruence.
Qed.

(** The handler in one step, for an admin and a row that [get] finds. *)
Lemma delete_item_found s id_param w it :
  isAdmin s = true ->
  List.find (fun x => Sql.id_is (JS.parseInt id_param) (Item.id x)) (items w)
  = Some it ->
  let id := JS.parseInt id_param in
  let names :=
    proof_files
      (List.filter (fun c => Sql.id_is id (Claim.item_id c)) (claims w))
    ++ photo_file it in
  delete_item s id_param w
  = (res_json (JMessage "Deleted"),
     {| items := List.filter (fun x => negb (Sql.id_is id (Item.id x))) (items w);
        items_seq := items_seq w;
        claims :=
          List.filter (fun c => negb (Sql.id_is id (Claim.item_id c))) (claims w);
        claims_seq := claims_seq w;
        uploads := uploads w ∖ list_to_set names;
        trace := trace w ++ List.map EUnlink names ++ [EDeleteItem id] |}).
Proof.
  intros Hadm Hfind. unfold delete_item, requireAdmin. rewrite Hadm. simpl.
  unfold bind, select_item, select_claims_of. rewrite Hfind.
  rewrite unlink_proofs_spec. unfold photo_file.
  destruct (JS.truthy (Item.photo_filename it)); simpl; unfold ret, emit; simpl.
  - do 2 f_equal.
    + rewrite list_to_set_app_L, list_to_set_cons, list_to_set_nil.
      by rewrite union_empty_r_L, difference_difference_l_L.
    + rewrite List.map_app. simpl. by rewrite <- !app_assoc.
  - do 2 f_equal.
    + by rewrite app_nil_r.
    + by rewrite !app_nil_r, <- app_assoc.
Qed.

End Delete.

(** C3. An admin [Delete(id)]: with no item of that id the answer is 404
    and nothing changes.  Otherwise the answer is 200 and the effects
    are, in this order: one unlink for every claim of the item that has a
    proof file name, one unlink for the photo of the item if it has one,
    and last the deletion of the row; the upload directory loses exactly
    these names (whether or not a file was there), the table loses the
    rows with that id, the claims that reference the item go with it, and
    [Get] on the id is answered 404 afterwards. *)
Theorem delete_item_spec (s : session) (id_param : string) (w : world) :
  isAdmin s = true ->
  (no_item_at w (JS.parseInt id_param) ->
     delete_item s id_param w = (res_status 404 (JError "Not found"), w))
  /\ (forall it, wf w -> item_at w (JS.parseInt id_param) it ->
        let id := JS.Num (Item.id it) in
        let names :=
          proof_files
            (List.filter (fun c => Sql.id_is id (Claim.item_id c)) (claims w))
          ++ photo_file it in
        let w' := (delete_item s id_param w).2 in
        (delete_item s id_param w).1 = res_json (JMessage "Deleted")
        /\ trace w' = trace w ++ List.map EUnlink names ++ [EDeleteItem id]
        /\ uploads w' = uploads w ∖ list_to_set names
        /\ items w'
           = List.filter (fun x => negb (Sql.id_is id (Item.id x))) (items w)
        /\ claims w'
           = List.filter (fun c => negb (Sql.id_is id (Claim.item_id c)))
               (claims w)
        /\ (forall c, In c (claims w') -> Claim.item_id c <> Item.id it)
        /\ (forall s', get_item s' id_param w'
                       = (res_status 404 (JError "Not found"), w'))).
Proof.
  intros Hadm. split.
  - intros Hno. unfold delete_item, requireAdmin. rewrite Hadm. simpl.
    unfold bind, select_item. by rewrite (find_item_none _ _ Hno).
  - intros it Hwf Hat id names w'.
    pose proof (delete_item_found s id_param w it Hadm
                  (find_item_at _ _ _ Hwf Hat)) as Heq.
    destruct Hat as [Hin Hid]. simpl in Heq. rewrite Hid in Heq.
    fold id in Heq. fold names in Heq.
    unfold w'. rewrite Heq. simpl. repeat split.
    + apply no_claims_left.
    + intros s'. unfold get_item, bind, select_item. rewrite Hid.
      pose proof (find_item_deleted (JS.Num (Item.id it)) (items w)) as Hd.
      simpl in Hd |- *. by rewrite Hd.
Qed.

(** An instance: the item has a photo that is not on disk and two claims,
    one of them with a proof file. *)
Lemma delete_item_spec_witness :
  isAdmin (Some "admin") = true
  /\ wf (Sample.one "approved")
  /\ item_at (Sample.one "approved") (JS.parseInt "1")
       (Sample.backpack 1 "approved")
  /\ trace (delete_item (Some "admin") "1" (Sample.one "approved")).2
     = [EUnlink "proof.png"; EUnlink "photo.png"; EDeleteItem (JS.Num 1)]
  /\ claims (delete_item (Some "admin") "1" (Sample.one "approved")).2 = []
  /\ (delete_item (Some "admin") "1" (Sample.one "approved")).1
     = res_json (JMessage "Deleted").
Proof.
  assert (Hat : item_at (Sample.one "approved") (JS.parseInt "1")
                  (Sample.backpack 1 "approved"))
    by (split; [by left|reflexivity]).
  split; [reflexivity|]. split; [apply wf_sample|]. split; [exact Hat|].
  destruct (delete_item_spec (Some "admin") "1" (Sample.one "approved")
              eq_refl) as [_ H].
  destruct (H _ (wf_sample "approved") Hat) as (Hres & Htr & _ & _ & Hcl & _).
  split; [exact Htr|]. split; [exact Hcl|exact Hres].
Defined.

(** ** Admin actions on an item: PATCH /api/admin/items/:id *)

Section Patch.

(** The handler in one step, for an admin, a row that [get] finds and an
    action that rewrites the rows of that id by [f]. *)
Lemma patch_item_found s id_param body w it f :
  isAdmin s = true ->
  List.find (fun x => Sql.id_is (JS.parseInt id_param) (Item.id x)) (items w)
  = Some it ->
  action_update (JS.parseInt id_param) body
  = Some (update_item (JS.parseInt id_param) f) ->
  (forall x, Item.id (f x) = Item.id x) ->
  patch_item s id_param body w
  = (res_json (JUpdated (Some (f it))),
     emit (EUpdateItem (JS.parseInt id_param))
       (with_items
          (List.map (fun x => if Sql.id_is (JS.parseInt id_param) (Item.id x)
                              then f x else x)) w)).
Proof.
  intros Hadm Hfind Hact Hf. unfold patch_item, requireAdmin.
  rewrite Hadm. simpl. unfold bind at 1. unfold select_item at 1.
  rewrite Hfind, Hact. unfold bind, update_item, select_item. simpl.
  rewrite (find_item_update _ f _ Hf), Hfind. done.
Qed.

Lemma patch_item_unknown s id_param body w it :
  isAdmin s = true ->
  List.find (fun x => Sql.id_is (JS.parseInt id_param) (Item.id x)) (items w)
  = Some it ->
  action_update (JS.parseInt id_param) body = None ->
  patch_item s id_param body w
  = (res_status 400 (JError "Unknown action"), w).
Proof.
  intros Hadm Hfind Hact. unfold patch_item, requireAdmin.
  rewrite Hadm. simpl. unfold bind, select_item. by rewrite Hfind, Hact.
Qed.

Lemma action_update_approve id body :
  PatchBody.action body = Some "approve" ->
  action_update id body = Some (update_item id (set_status "approved")).
Proof. intros H. unfold action_update. by rewrite H. Qed.

Lemma action_update_archive id body :
  PatchBody.action body = Some "archive" ->
  action_update id body = Some (update_item id (set_status "archived")).
Proof. intros H. unfold action_update. by rewrite H. Qed.

Lemma action_update_mark_claimed id body :
  PatchBody.action body = Some "mark_claimed" ->
  action_update id body = Some (update_item id (set_status "claimed")).
Proof. intros H. unfold action_update. by rewrite H. Qed.

Lemma action_update_edit id body :
  PatchBody.action body = Some "edit" ->
  action_update id body
  = Some (update_item id
            (set_fields
               (sanitizeString (PatchBody.title body) 120)
               (sanitizeString (PatchBody.description body) 2000)
               (sanitizeString (PatchBody.category body) 60)
               (sanitizeString (PatchBody.location_found body) 120)
               (sanitizeString (PatchBody.date_found body) 10))).
Proof. intros H. unfold action_update. by rewrite H. Qed.

(** The row at an id after an update of the rows of that id. *)
Lemma item_at_updated w id it f :
  wf w -> item_at w id it -> (forall x, Item.id (f x) = Item.id x) ->
  item_at
    (emit (EUpdateItem id)
       (with_items
          (List.map (fun x => if Sql.id_is id (Item.id x) then f x else x)) w))
    id (f it).
Proof.
  intros Hwf [Hin Hid] Hf. split; [|by rewrite Hf]. simpl.
  apply in_map_iff. exists it. split; [|done].
  rewrite Hid. simpl. by rewrite Z.eqb_refl.
Qed.

End Patch.

(** C5 (as the code has it). For an admin and an existing item, 'approve'
    sets the status to 'approved', 'archive' to 'archived' and
    'mark_claimed' to 'claimed' whatever the status was before, and 'edit'
    leaves the status as it is; the answer carries the updated row.  The
    transitions pending to approved, approved to claimed and pending,
    approved or claimed to archived are instances; so are the transitions
    out of 'archived'. *)
Theorem patch_item_status (s : session) (id_param : string)
    (body : PatchBody.t) (w : world) (it : Item.t) :
  isAdmin s = true -> wf w -> item_at w (JS.parseInt id_param) it ->
  let res := (patch_item s id_param body w).1 in
  let w' := (patch_item s id_param body w).2 in
  (PatchBody.action body = Some "approve" ->
     res = res_json (JUpdated (Some (set_status "approved" it)))
     /\ item_at w' (JS.parseInt id_param) (set_status "approved" it))
  /\ (PatchBody.action body = Some "archive" ->
     res = res_json (JUpdated (Some (set_status "archived" it)))
     /\ item_at w' (JS.parseInt id_param) (set_status "archived" it))
  /\ (PatchBody.action body = Some "mark_claimed" ->
     res = res_json (JUpdated (Some (set_status "claimed" it)))
     /\ item_at w' (JS.parseInt id_param) (set_status "claimed" it))
  /\ (PatchBody.action body = Some "edit" ->
     exists it', res = res_json (JUpdated (Some it'))
                 /\ item_at w' (JS.parseInt id_param) it'
                 /\ Item.status it' = Item.status it).
Proof.
  intros Hadm Hwf Hat res w'. unfold res, w'.
  pose proof (find_item_at _ _ _ Hwf Hat) as Hfind.
  split; [|split; [|split]]; intros Hact.
  - rewrite (patch_item_found s id_param body w it _ Hadm Hfind
               (action_update_approve _ _ Hact)) by done.
    split; [done|]. by apply item_at_updated.
  - rewrite (patch_item_found s id_param body w it _ Hadm Hfind
               (action_update_archive _ _ Hact)) by done.
    split; [done|]. by apply item_at_updated.
  - rewrite (patch_item_found s id_param body w it _ Hadm Hfind
               (action_update_mark_claimed _ _ Hact)) by done.
    split; [done|]. by apply item_at_updated.
  - rewrite (patch_item_found s id_param body w it _ Hadm Hfind
               (action_update_edit _ _ Hact)) by done.
    eexists. split; [done|]. split; [by apply item_at_updated|done].
Qed.

(** An instance: 'approve' on a pending item. *)
Lemma patch_item_status_witness :
  isAdmin (Some "admin") = true
  /\ wf (Sample.one "pending")
  /\ item_at (Sample.one "pending") (JS.parseInt "1")
       (Sample.backpack 1 "pending")
  /\ (patch_item (Some "admin") "1" (Sample.only_action "approve")
        (Sample.one "pending")).1
     = res_json (JUpdated (Some (Sample.backpack 1 "approved"))).
Proof.
  assert (Hat : item_at (Sample.one "pending") (JS.parseInt "1")
                  (Sample.backpack 1 "pending"))
    by (split; [by left|reflexivity]).
  split; [reflexivity|]. split; [apply wf_sample|]. split; [exact Hat|].
  destruct (patch_item_status (Some "admin") "1" (Sample.only_action "approve")
              (Sample.one "pending") _ eq_refl (wf_sample "pending") Hat)
    as [H _].
  destruct (H eq_refl) as [Hres _]. exact Hres.
Defined.

(** C5 (counterexample). 'archived' is not terminal: 'approve' on an
    archived item makes it 'approved'. *)
Lemma archived_is_not_terminal :
  ~ (forall (s : session) (id_param : string) (body : PatchBody.t)
            (w : world) (it it' : Item.t),
       isAdmin s = true -> wf w ->
       item_at w (JS.parseInt id_param) it ->
       Item.status it = "archived" ->
       item_at (patch_item s id_param body w).2 (JS.parseInt id_param) it' ->
       Item.status it' = "archived").
Proof.
  intros H.
  specialize (H (Some "admin") "1" (Sample.only_action "approve")
                (Sample.one "archived") (Sample.backpack 1 "archived")
                (Sample.backpack 1 "approved") eq_refl
                (wf_sample "archived")).
  discriminate H.
  - split; [by left|reflexivity].
  - reflexivity.
  - split; [by left|reflexivity].
Qed.

(** C8 (evaluation at the failing input). An 'edit' that carries no
    field is accepted and overwrites title, description, category,
    location and date of the row with the empty string: the values are
    capped and trimmed by [sanitizeString], but, unlike in the report
    handler, nothing checks that they are not empty. *)
Theorem patch_item_edit_blank :
  (patch_item (Some "admin") "1" (Sample.only_action "edit")
     (Sample.one "approved")).1
  = res_json
      (JUpdated (Some (set_fields "" "" "" "" "" (Sample.backpack 1 "approved"))))
  /\ Item.title (Sample.backpack 1 "approved") = "Blue Backpack"
  /\ JS.nonempty
       (sanitizeString (PatchBody.title (Sample.only_action "edit")) 120)
     = false
  /\ (post_item "2025-01-10 09:00:00"
        {| ItemForm.title := None; ItemForm.description := None;
           ItemForm.category := None; ItemForm.location_found := None;
           ItemForm.date_found := None; ItemForm.reporter_name := Some "A";
           ItemForm.reporter_email := Some "a@x.com" |}
        None (Sample.one "approved")).1
     = res_status 400 (JError "All required fields must be provided").
Proof. repeat split. Qed.

(** What 'edit' does keep: for an admin and an existing item the five
    fields are overwritten with the sanitized values of the request and
    every other column of the row is as before. *)
Lemma patch_item_edit_frame (s : session) (id_param : string)
    (body : PatchBody.t) (w : world) (it : Item.t) :
  isAdmin s = true -> wf w -> item_at w (JS.parseInt id_param) it ->
  PatchBody.action body = Some "edit" ->
  exists it',
    (patch_item s id_param body w).1 = res_json (JUpdated (Some it'))
    /\ item_at (patch_item s id_param body w).2 (JS.parseInt id_param) it'
    /\ Item.title it' = sanitizeString (PatchBody.title body) 120
    /\ Item.description it' = sanitizeString (PatchBody.description body) 2000
    /\ Item.category it' = sanitizeString (PatchBody.category body) 60
    /\ Item.location_found it'
       = sanitizeString (PatchBody.location_found body) 120
    /\ Item.date_found it' = sanitizeString (PatchBody.date_found body) 10
    /\ Item.id it' = Item.id it
    /\ Item.status it' = Item.status it
    /\ Item.photo_filename it' = Item.photo_filename it
    /\ Item.reporter_name it' = Item.reporter_name it
    /\ Item.reporter_email it' = Item.reporter_email it
    /\ Item.created_at it' = Item.created_at it.
Proof.
  intros Hadm Hwf Hat Hact.
  pose proof (find_item_at _ _ _ Hwf Hat) as Hfind.
  rewrite (patch_item_found s id_param body w it _ Hadm Hfind
             (action_update_edit _ _ Hact)) by done.
  eexists. split; [done|]. split; [by apply item_at_updated|].
  repeat split.
Qed.

(** [sanitizeString] never gives more than the cap. *)
Lemma slice0_length max s : (String.length (JS.slice0 max s) <= max)%nat.
Proof.
  revert s. induction max as [|m IH]; intros [|c s]; simpl; try lia.
  specialize (IH s). lia.
Qed.

Lemma trimStart_length s : (String.length (JS.trimStart s) <= String.length s)%nat.
Proof.
  induction s as [|c s IH]; simpl; [lia|].
  destruct (JS.is_ws c); simpl; lia.
Qed.

Lemma trimEnd_length s : (String.length (JS.trimEnd s) <= String.length s)%nat.
Proof.
  induction s as [|c s IH]; simpl; [lia|].
  destruct (JS.trimEnd s); [destruct (JS.is_ws c)|]; simpl in *; lia.
Qed.

Lemma sanitizeString_length v max :
  (String.length (sanitizeString v max) <= max)%nat.
Proof.
  unfold sanitizeString. destruct (JS.truthy v); simpl; [|lia].
  unfold JS.trim.
  pose proof (trimEnd_length (JS.trimStart (JS.slice0 max (default "" v)))).
  pose proof (trimStart_length (JS.slice0 max (default "" v))).
  pose proof (slice0_length max (default "" v)). lia.
Qed.

(** ** Claims on an item: POST /api/items/:id/claim *)

(** C6. A claim on an id without item, or on an archived item, is
    answered 404 whatever the claimant fields are: no claim row is
    inserted and the stored proof file, if any, is unlinked.  On any other
    item, with name, email and message non-empty after [sanitizeString],
    exactly one claim row is appended, with status 'new', for that item,
    and the answer is 201. *)
Theorem post_claim_spec (now id_param : string) (b : ClaimForm.t)
    (file : option string) (w : world) :
  (no_item_at w (JS.parseInt id_param) ->
     turned_down (res_status 404 (JError "Item not found")) file w
       (post_claim now id_param b file w))
  /\ (forall it, wf w -> item_at w (JS.parseInt id_param) it ->
        (Item.status it = "archived" ->
           turned_down (res_status 404 (JError "Item not found")) file w
             (post_claim now id_param b file w))
        /\ (Item.status it <> "archived" -> claim_form_ok b = true ->
            exists row,
              claims (post_claim now id_param b file w).2 = claims w ++ [row]
              /\ Claim.id row = claims_seq w + 1
              /\ Claim.item_id row = Item.id it
              /\ Claim.status row = "new"
              /\ Claim.proof_filename row = file
              /\ (post_claim now id_param b file w).1
                 = res_status 201
                     (JCreated (Claim.id row) "new" "Claim submitted")
              /\ items (post_claim now id_param b file w).2 = items w
              /\ uploads (post_claim now id_param b file w).2 = uploads w)).
Proof.
  split.
  - intros Hno. unfold post_claim, bind, select_item.
    rewrite (find_item_none _ _ Hno). unfold turned_down.
    reject_branch file.
  - intros it Hwf Hat. unfold post_claim, bind, select_item.
    rewrite (find_item_at _ _ _ Hwf Hat). split.
    + intros Hst. apply String.eqb_eq in Hst. rewrite Hst.
      unfold turned_down. reject_branch file.
    + intros Hst Hok. apply String.eqb_neq in Hst. rewrite Hst.
      unfold claim_form_ok in Hok.
      apply andb_prop in Hok as [Hok H3]. apply andb_prop in Hok as [H1 H2].
      rewrite H1, H2, H3. simpl. eexists. repeat split.
Qed.

(** Instances: a claim on an archived item with a stored proof file, a
    claim on an id without item, and a claim on an approved item. *)
Lemma post_claim_spec_witness :
  turned_down (res_status 404 (JError "Item not found")) (Some "proof2.png")
    (Sample.one "archived")
    (post_claim "2025-01-12 08:00:00" "1" Sample.claim_form
       (Some "proof2.png") (Sample.one "archived"))
  /\ turned_down (res_status 404 (JError "Item not found")) None
       (Sample.one "approved")
       (post_claim "2025-01-12 08:00:00" "7" Sample.claim_form None
          (Sample.one "approved"))
  /\ exists row,
       claims (post_claim "2025-01-12 08:00:00" "1" Sample.claim_form None
                 (Sample.one "approved")).2
       = claims (Sample.one "approved") ++ [row]
       /\ Claim.status row = "new".
Proof.
  assert (Hat : forall st, item_at (Sample.one st) (JS.parseInt "1")
                             (Sample.backpack 1 st))
    by (intros st; split; [by left|reflexivity]).
  split; [|split].
  - apply (proj2 (post_claim_spec "2025-01-12 08:00:00" "1" Sample.claim_form
                    (Some "proof2.png") (Sample.one "archived"))
             (Sample.backpack 1 "archived") (wf_sample "archived")
             (Hat "archived")).
    reflexivity.
  - apply (proj1 (post_claim_spec "2025-01-12 08:00:00" "7" Sample.claim_form
                    None (Sample.one "approved"))).
    intros it [<-|[]]. discriminate.
  - destruct (proj2 (post_claim_spec "2025-01-12 08:00:00" "1"
                       Sample.claim_form None (Sample.one "approved"))
                (Sample.backpack 1 "approved") (wf_sample "approved")
                (Hat "approved")) as [_ H].
    destruct H as (row & Hrows & _ & _ & Hst & _); [discriminate|reflexivity|].
    exists row. split; [exact Hrows|exact Hst].
Defined.

(** ** Claim triage: PATCH /api/admin/claims/:id *)

Section ClaimStatus.

(** A status outside the five values is answered 400 and nothing
    changes. *)
Lemma patch_claim_invalid s id_param status w :
  isAdmin s = true -> includes valid status = false ->
  patch_claim s id_param status w
  = (res_status 400 (JError "Invalid status"), w).
Proof.
  intros Hadm Hinv. unfold patch_claim, requireAdmin.
  by rewrite Hadm, Hinv.
Qed.

(** Each of the five values is accepted from every prior status: the
    claim of that id gets exactly the supplied status, and the answer
    carries the updated row. *)
Lemma patch_claim_valid s id_param st w c :
  isAdmin s = true -> wf w -> claim_at w (JS.parseInt id_param) c ->
  In st valid ->
  (patch_claim s id_param (Some st) w).1
  = res_json (JClaim (Some (set_claim_status st c)))
  /\ claim_at (patch_claim s id_param (Some st) w).2 (JS.parseInt id_param)
       (set_claim_status st c)
  /\ Claim.status (set_claim_status st c) = st.
Proof.
  intros Hadm (_ & _ & _ & Hnd) [Hin Hid] Hst.
  unfold patch_claim, requireAdmin. rewrite Hadm.
  assert (Hinc : includes valid (Some st) = true).
  { unfold includes. apply existsb_exists. exists st. split; [done|].
    apply String.eqb_refl. }
  rewrite Hinc. simpl. unfold bind, update_claim_status, select_claim. simpl.
  rewrite find_claim_update, Hid, (find_unique_claim _ c Hnd Hin). simpl.
  split; [done|]. split; [|done]. split; [|done]. simpl.
  apply in_map_iff. exists c. split; [|done]. by rewrite Z.eqb_refl.
Qed.

(** With a valid status and an id that no claim has, the update touches
    no row, [get] finds nothing, and the answer is 200 with an undefined
    claim. *)
Lemma patch_claim_unknown_id s id_param st w :
  isAdmin s = true -> no_claim_at w (JS.parseInt id_param) ->
  includes valid (Some st) = true ->
  (patch_claim s id_param (Some st) w).1 = res_json (JClaim None)
  /\ claims (patch_claim s id_param (Some st) w).2 = claims w.
Proof.
  intros Hadm Hno Hinc. unfold patch_claim, requireAdmin.
  rewrite Hadm, Hinc. simpl.
  unfold bind, update_claim_status, select_claim. simpl.
  rewrite find_claim_update, (find_claim_none _ _ Hno). split; [done|].
  simpl. rewrite <- (List.map_id (claims w)) at 2. apply List.map_ext_in.
  intros c Hc. destruct (Sql.id_is _ _) eqn:E; [|done].
  destruct (JS.parseInt id_param) as [z| |]; simpl in E; [|done|done].
  apply Z.eqb_eq in E. subst. by destruct (Hno c Hc).
Qed.

End ClaimStatus.

(** C7 (evaluation at the failing input). Setting the status of claim
    999, which does not exist, to 'approved' is answered 200 with an
    undefined claim, not 404; the two claims that exist keep their
    status.  The item handlers answer 404 for an id that is not there. *)
Theorem patch_claim_unknown_id_is_accepted :
  no_claim_at (Sample.one "approved") (JS.parseInt "999")
  /\ (patch_claim (Some "admin") "999" (Some "approved")
        (Sample.one "approved")).1
     = res_json (JClaim None)
  /\ code (patch_claim (Some "admin") "999" (Some "approved")
             (Sample.one "approved")).1 = 200
  /\ claims (patch_claim (Some "admin") "999" (Some "approved")
               (Sample.one "approved")).2
     = claims (Sample.one "approved")
  /\ (patch_item (Some "admin") "999" (Sample.only_action "approve")
        (Sample.one "approved")).1
     = res_status 404 (JError "Not found").
Proof.
  split.
  - intros c [<-|[<-|[]]]; discriminate.
  - repeat split.
Qed.


(** * Further properties of the code *)

(** ** [sanitizeString] *)

Section Sanitize.

Lemma trimEnd_first c s :
  JS.is_ws c = false ->
  exists t, JS.trimEnd (String c s) = String c t.
Proof.
  intros Hc. simpl. destruct (JS.trimEnd s); [|by eexists].
  rewrite Hc. by eexists.
Qed.

Lemma trimStart_first s c :
  first_char (JS.trimStart s) = Some c -> JS.is_ws c = false.
Proof.
  induction s as [|a s IH]; simpl; [done|].
  destruct (JS.is_ws a) eqn:E; [done|]. simpl. by intros [= <-].
Qed.

Lemma trimEnd_last s c :
  last_char (JS.trimEnd s) = Some c -> JS.is_ws c = false.
Proof.
  induction s as [|a s IH]; simpl; [done|].
  destruct (JS.trimEnd s) as [|b t] eqn:E.
  - destruct (JS.is_ws a) eqn:Ea; simpl; [done|]. by intros [= <-].
  - simpl. simpl in IH. exact IH.
Qed.

Lemma trim_trimmed s : trimmed (JS.trim s).
Proof.
  unfold trimmed, JS.trim. split; [|apply trimEnd_last].
  intros c. pose proof (trimStart_first s) as Hs.
  destruct (JS.trimStart s) as [|a t]; [done|].
  specialize (Hs a eq_refl).
  destruct (trimEnd_first a t Hs) as [t' ->]. simpl. by intros [= <-].
Qed.

Lemma trimEnd_idem s : JS.trimEnd (JS.trimEnd s) = JS.trimEnd s.
Proof.
  induction s as [|a s IH]; simpl; [done|].
  destruct (JS.trimEnd s) as [|b t] eqn:E.
  - destruct (JS.is_ws a) eqn:Ea; simpl; [done|]. by rewrite Ea.
  - change (JS.trimEnd (String a (String b t))) with
      (match JS.trimEnd (String b t) with
       | EmptyString => if JS.is_ws a then EmptyString else String a EmptyString
       | u => String a u
       end).
    by rewrite IH.
Qed.

Lemma trimStart_fixed s :
  (forall c, first_char s = Some c -> JS.is_ws c = false) ->
  JS.trimStart s = s.
Proof.
  destruct s as [|a s]; simpl; [done|]. intros H. by rewrite (H a eq_refl).
Qed.

(** Trimming a trimmed string changes nothing. *)
Lemma trim_idem s : JS.trim (JS.trim s) = JS.trim s.
Proof.
  unfold JS.trim at 1. rewrite trimStart_fixed by apply trim_trimmed.
  unfold JS.trim. apply trimEnd_idem.
Qed.

Lemma slice0_all max s :
  (String.length s <= max)%nat -> JS.slice0 max s = s.
Proof.
  revert s. induction max as [|m IH]; intros [|c s]; simpl; try done; [lia|].
  intros H. rewrite IH; [done|lia].
Qed.

End Sanitize.

(** X1. Whatever the request holds, a missing field included, the value
    that [sanitizeString] returns has at most [max] characters and neither
    starts nor ends with white space. *)
Theorem sanitizeString_capped_and_trimmed (v : option string) (max : nat) :
  (String.length (sanitizeString v max) <= max)%nat
  /\ trimmed (sanitizeString v max).
Proof.
  split; [apply sanitizeString_length|].
  unfold sanitizeString. destruct (JS.truthy v); [apply trim_trimmed|].
  by split.
Qed.

(** X2. [sanitizeString] is idempotent: a value that went through it
    once, with the same cap, comes back unchanged, so a stored field that
    is sent again is stored as it was. *)
Theorem sanitizeString_idempotent (v : option string) (max : nat) :
  sanitizeString (Some (sanitizeString v max)) max = sanitizeString v max.
Proof.
  pose proof (sanitizeString_length v max) as Hlen.
  unfold sanitizeString at 1.
  destruct (sanitizeString v max) as [|c t] eqn:E; [done|].
  simpl JS.truthy. cbv iota.
  change (default "" (Some (String c t))) with (String c t).
  rewrite slice0_all by exact Hlen.
  rewrite <- E. unfold sanitizeString.
  destruct (JS.truthy v); [apply trim_idem|done].
Qed.

(** ** The admin gate *)

(** X3. Without an admin session (no login, or a role other than
    'admin') every administration route answers 401 and touches neither
    the tables nor the upload directory nor the trace, whatever the id,
    the body or the filters are. *)
Theorem admin_routes_need_admin (s : session) (w : world) :
  isAdmin s = false ->
  (forall id_param body,
     patch_item s id_param body w
     = (res_status 401 (JError "Unauthorized"), w))
  /\ (forall id_param,
        delete_item s id_param w = (res_status 401 (JError "Unauthorized"), w))
  /\ (forall id_param status,
        patch_claim s id_param status w
        = (res_status 401 (JError "Unauthorized"), w))
  /\ (forall status q,
        admin_items s status q w = (a_status 401 (AError "Unauthorized"), w))
  /\ (forall status,
        admin_claims s status w = (a_status 401 (AError "Unauthorized"), w))
  /\ admin_stats s w = (a_status 401 (AError "Unauthorized"), w).
Proof.
  intros H.
  unfold patch_item, delete_item, patch_claim, admin_items, admin_claims,
    admin_stats, requireAdmin, requireAdminA.
  rewrite H. repeat split.
Qed.

(** An instance: a session with the role 'user' may not delete item 1. *)
Lemma admin_routes_need_admin_witness :
  isAdmin (Some "user") = false
  /\ delete_item (Some "user") "1" (Sample.one "approved")
     = (res_status 401 (JError "Unauthorized"), Sample.one "approved").
Proof.
  split; [reflexivity|].
  apply (admin_routes_need_admin (Some "user") (Sample.one "approved") eq_refl).
Defined.

(** ** More on the public listing *)

(** What SQLite takes as a count is the number that was bound. *)
Lemma integer_Some x z : Sql.integer x = Some z -> x = JS.Num z.
Proof.
  destruct x as [y| |]; simpl; [|done|done].
  destruct (JS.to_double y); [|done|done].
  destruct (_ && _); [|done]. by intros [= <-].
Qed.

Lemma limit_offset_length {A} l o (rows : list A) :
  0 <= l -> Z.of_nat (length (Sql.limit_offset l o rows)) <= l.
Proof.
  intros Hl. rewrite limit_offset_eq; cbv zeta.
  destruct (Z.ltb_spec l 0); [lia|]. rewrite length_take. lia.
Qed.

(** X4. When the page and the limit of a listing request are absent or
    parse to integers [n] and [m], the page of the request is [max 1 n]
    and its limit [max 1 (min 50 m)]: zero and negative values are raised
    to 1 and a limit above 50 is cut to 50.  Every answer that is a page
    carries this page and this limit, and at most that many rows.  With
    a page up to 2^53 the answer is such a page; with a page from 2^63
    on the offset leaves the range of the 64-bit integers of SQLite and
    the answer is 500. *)
Theorem get_items_clamps (r : Query.t) (w : world) (n m : Z) :
  match Query.page r with Some s => JS.parseInt s | None => JS.Num 1 end
  = JS.Num n ->
  match Query.limit r with Some s => JS.parseInt s | None => JS.Num 20 end
  = JS.Num m ->
  pageNum r = JS.Num (Z.max 1 n)
  /\ perPage r = JS.Num (Z.max 1 (Z.min 50 m))
  /\ (forall page limit total rows,
        body (get_items r w).1 = JPage page limit total rows ->
        page = JS.Num (Z.max 1 n)
        /\ limit = JS.Num (Z.max 1 (Z.min 50 m))
        /\ Z.of_nat (length rows) <= Z.max 1 (Z.min 50 m))
  /\ (n <= 2 ^ 53 ->
        exists rows,
          get_items r w
          = (res_json
               (JPage (JS.Num (Z.max 1 n)) (JS.Num (Z.max 1 (Z.min 50 m)))
                  (Z.of_nat (length (matching r w))) rows), w))
  /\ (2 ^ 63 <= n ->
        get_items r w = (res_status 500 (JError "Failed to fetch items"), w)).
Proof.
  intros Hn Hm.
  assert (Hp : pageNum r = JS.Num (Z.max 1 n))
    by (unfold pageNum; by rewrite Hn).
  assert (HL : perPage r = JS.Num (Z.max 1 (Z.min 50 m)))
    by (unfold perPage; by rewrite Hm).
  split; [done|]. split; [done|]. split; [|split].
  - intros page limit total rows. rewrite get_items_unfold.
    destruct (Sql.integer (perPage r)) as [l|] eqn:El; [|done].
    destruct (Sql.integer (offset r)) as [o|]; [|done].
    cbn [fst body res_json]. intros [= <- <- _ <-].
    apply integer_Some in El. rewrite HL in El. injection El as <-.
    repeat split; [done..|].
    rewrite List.length_map. apply limit_offset_length. lia.
  - intros Hsafe. eexists.
    by rewrite (get_items_page r w _ _ Hp HL) by lia.
  - intros Hbig. apply get_items_out_of_range; [|by rewrite HL].
    left. exists (Z.max 1 n). split; [done|lia].
Qed.

(** Instances: [?page=0&limit=1000] on the shelf is page 1 with limit 50,
    and [?page=99999999999999999999] is answered 500. *)
Lemma get_items_clamps_witness :
  (exists rows,
     get_items (paging (Some "0") (Some "1000")) shelf
     = (res_json (JPage (JS.Num 1) (JS.Num 50) 3 rows), shelf))
  /\ get_items (paging (Some "99999999999999999999") None) shelf
     = (res_status 500 (JError "Failed to fetch items"), shelf).
Proof.
  split.
  - destruct (get_items_clamps (paging (Some "0") (Some "1000")) shelf 0 1000
                eq_refl eq_refl) as (_ & _ & _ & H & _).
    destruct H as [rows H]; [vm_compute; discriminate|].
    exists rows. exact H.
  - apply (get_items_clamps (paging (Some "99999999999999999999") None) shelf
             100000000000000000000 20 eq_refl eq_refl).
    vm_compute. discriminate.
Defined.

(** X5. The listing respects the status filter: without a [status]
    parameter every row of every page has the status 'approved', and with
    a non-empty [status] every row has exactly that status. *)
Theorem get_items_status_filter (r : Query.t) (w : world) (lr : Item.listed) :
  default "approved" (Query.status r) <> "" ->
  In lr (page_rows (get_items r w).1) ->
  Item.l_status lr = default "approved" (Query.status r).
Proof.
  intros Hst Hin.
  apply page_rows_matching in Hin as (it & _ & Hw & ->).
  apply whereSql_matches in Hw. destruct Hw as [Hw _].
  simpl. by apply Hw.
Qed.

(** An instance: the only row of page 2 of [?limit=2] on the shelf. *)
Lemma get_items_status_filter_witness :
  Item.l_status (Item.project (on_shelf 1 "Blue Backpack" "approved" "2025-01-10"))
  = "approved".
Proof.
  apply (get_items_status_filter (with_page (Some "2") two_per_page) shelf).
  - discriminate.
  - left. reflexivity.
Defined.

(** X6. The number of rows of a page is what is left of the matching
    rows after the pages before it, at most [limit]: full pages first,
    then the rest, then no rows, all with the same total.  A page up to
    2^53 is answered 200 with that total; the count holds for such a page
    and, when at most 2^53 rows match, for every page (a page whose
    offset SQLite refuses is answered 500, without rows). *)
Theorem get_items_page_size (r : Query.t) (w : world) (p L : Z) :
  pageNum r = JS.Num p -> perPage r = JS.Num L ->
  let total := Z.of_nat (length (matching r w)) in
  (p <= 2 ^ 53 ->
     exists rows,
       get_items r w = (res_json (JPage (JS.Num p) (JS.Num L) total rows), w))
  /\ (p <= 2 ^ 53 \/ total <= 2 ^ 53 ->
        Z.of_nat (length (page_rows (get_items r w).1))
        = Z.max 0 (Z.min L (total - (p - 1) * L))).
Proof.
  intros Hp HL total. split.
  - intros Hsafe. eexists. by rewrite (get_items_page r w p L Hp HL Hsafe).
  - intros Hcase.
    pose proof (pageNum_range _ _ Hp) as Hp1.
    pose proof (perPage_range _ _ HL) as HL1.
    destruct (Z.le_gt_cases p (2 ^ 53)) as [Hsafe|Hbig].
    + rewrite (get_items_page r w p L Hp HL Hsafe).
      unfold page_rows. cbn [fst body res_json].
      rewrite List.length_map, length_take, length_drop, orderSql_length.
      assert (Ho : 0 <= (p - 1) * L) by nia.
      unfold total. generalize dependent ((p - 1) * L). intros o Ho. lia.
    + destruct Hcase as [?|Htotal]; [lia|].
      assert (Hzero : Z.max 0 (Z.min L (total - (p - 1) * L)) = 0) by nia.
      rewrite Hzero, get_items_unfold. unfold offset. rewrite Hp, HL.
      rewrite (integer_small L) by lia. cbn [JS.sub].
      destruct (JS.to_double (p - 1)) as [y|b|] eqn:E.
      * pose proof (to_double_pow2 53 (p - 1) y ltac:(lia) ltac:(lia) E).
        cbn [JS.mul].
        destruct (Sql.integer (JS.Num (y * L))) as [o|] eqn:Eo; [|done].
        apply integer_Some in Eo. injection Eo as <-.
        rewrite limit_offset_eq; cbv zeta. unfold page_rows. cbn [fst body res_json].
        destruct (Z.ltb_spec L 0); [lia|].
        rewrite List.length_map, length_take, length_drop, orderSql_length.
        fold total. nia.
      * cbn [JS.mul]. by destruct (L =? 0).
      * done.
Qed.

(** Instances: of the three approved items of the shelf, page 2 of
    [?limit=2] has one row. *)
Lemma get_items_page_size_witness :
  Z.of_nat (length (page_rows
                      (get_items (with_page (Some "2") two_per_page) shelf).1))
  = 1.
Proof.
  apply (get_items_page_size (with_page (Some "2") two_per_page) shelf 2 2
           eq_refl eq_refl).
  left. vm_compute. discriminate.
Defined.

(** ** Every request, case by case *)

Section Outcome.

Lemma post_item_outcome now b file w :
  outcome file w (handle (PostItem now b file) w).2.
Proof.
  simpl. unfold bind at 1.
  destruct (upload_single file w) as [[] w1] eqn:Eup.
  assert (Hw1 : items w1 = items w /\ items_seq w1 = items_seq w
                /\ claims w1 = claims w /\ claims_seq w1 = claims_seq w
                /\ uploads w1 = with_file file (uploads w)).
  { unfold upload_single in Eup. injection Eup as <-. by destruct file. }
  destruct Hw1 as (H1 & H2 & H3 & H4 & H5).
  unfold post_item. destruct (_ || _).
  - apply out_same; destruct file; unfold bind; simpl in *; congruence.
  - eapply out_item; unfold bind; simpl;
      rewrite ?H1, ?H2, ?H3, ?H4, ?H5; reflexivity.
Qed.

Lemma post_claim_outcome now id_param b file w :
  outcome file w (handle (PostClaim now id_param b file) w).2.
Proof.
  simpl. unfold bind at 1.
  destruct (upload_single file w) as [[] w1] eqn:Eup.
  assert (Hw1 : items w1 = items w /\ items_seq w1 = items_seq w
                /\ claims w1 = claims w /\ claims_seq w1 = claims_seq w
                /\ uploads w1 = with_file file (uploads w)).
  { unfold upload_single in Eup. injection Eup as <-. by destruct file. }
  destruct Hw1 as (H1 & H2 & H3 & H4 & H5).
  unfold post_claim. unfold bind at 1. unfold select_item.
  destruct (List.find _ (items w1)) as [it|] eqn:Efind.
  - destruct (String.eqb _ _).
    + apply out_same; destruct file; unfold bind; simpl in *; congruence.
    + destruct (_ || _).
      * apply out_same; destruct file; unfold bind; simpl in *; congruence.
      * apply find_item_id in Efind as [_ Hin]. rewrite H1 in Hin.
        eapply (out_claim _ _ _ _ it); unfold bind; simpl;
          rewrite ?H1, ?H2, ?H3, ?H4, ?H5; done.
  - apply out_same; destruct file; unfold bind; simpl in *; congruence.
Qed.

Lemma patch_item_outcome s id_param body w :
  outcome None w (patch_item s id_param body w).2.
Proof.
  unfold patch_item, requireAdmin.
  destruct (negb (isAdmin s)); [by apply out_same|].
  unfold bind at 1. unfold select_item.
  destruct (List.find _ _) as [it|]; [|by apply out_same].
  unfold action_update.
  destruct (is_action _ "approve");
    [eapply out_items; simpl; try reflexivity;
     apply rewrite_status; simpl; tauto|].
  destruct (is_action _ "archive");
    [eapply out_items; simpl; try reflexivity;
     apply rewrite_status; simpl; tauto|].
  destruct (is_action _ "mark_claimed");
    [eapply out_items; simpl; try reflexivity;
     apply rewrite_status; simpl; tauto|].
  destruct (is_action _ "edit");
    [eapply out_items; simpl; try reflexivity; apply rewrite_fields|].
  by apply out_same.
Qed.

Lemma delete_item_outcome s id_param w :
  outcome None w (delete_item s id_param w).2.
Proof.
  destruct (isAdmin s) eqn:Hadm.
  - destruct (List.find (fun x => Sql.id_is (JS.parseInt id_param) (Item.id x))
                (items w)) as [it|] eqn:Efind.
    + rewrite (delete_item_found s id_param w it Hadm Efind).
      pose proof Efind as Hid. apply find_item_id in Hid as [Hid _].
      rewrite Hid in *. by apply (out_deleted _ _ _ it).
    + unfold delete_item, requireAdmin. rewrite Hadm. simpl.
      unfold bind, select_item. rewrite Efind. by apply out_same.
  - unfold delete_item, requireAdmin. rewrite Hadm. by apply out_same.
Qed.

Lemma includes_In l st : includes l (Some st) = true -> In st l.
Proof.
  unfold includes. intros H. apply existsb_exists in H as (x & Hin & Hx).
  apply String.eqb_eq in Hx. by subst.
Qed.

Lemma patch_claim_outcome s id_param status w :
  outcome None w (patch_claim s id_param status w).2.
Proof.
  unfold patch_claim, requireAdmin.
  destruct (negb (isAdmin s)); [by apply out_same|].
  destruct (includes valid status) eqn:Hinc; simpl; [|by apply out_same].
  destruct status as [st|]; [|done].
  apply includes_In in Hinc.
  by eapply (out_claims _ _ _ _ st).
Qed.

Lemma get_items_outcome r w : outcome None w (get_items r w).2.
Proof.
  rewrite get_items_unfold.
  destruct (Sql.integer (perPage r)); [|by apply out_same].
  destruct (Sql.integer (offset r)); by apply out_same.
Qed.

Lemma get_item_outcome s id_param w :
  outcome None w (get_item s id_param w).2.
Proof.
  unfold get_item, bind, select_item.
  destruct (List.find _ _); [|by apply out_same].
  destruct (_ && _); by apply out_same.
Qed.

(** One request changes the world in one of the six ways of [outcome]. *)
Lemma handle_outcome rq w : outcome (uploaded rq) w (handle rq w).2.
Proof.
  destruct rq.
  - apply get_items_outcome.
  - apply get_item_outcome.
  - apply post_item_outcome.
  - apply post_claim_outcome.
  - apply patch_item_outcome.
  - apply delete_item_outcome.
  - apply patch_claim_outcome.
Qed.

End Outcome.

(** ** Invariants of the reachable worlds *)

Section LifecycleInvariants.

Lemma item_rewrite_id f x : item_rewrite f -> Item.id (f x) = Item.id x.
Proof. by destruct 1. Qed.

Lemma item_rewrite_photo f x :
  item_rewrite f -> Item.photo_filename (f x) = Item.photo_filename x.
Proof. by destruct 1. Qed.

Lemma item_rewrite_status f x :
  item_rewrite f ->
  In (Item.status x) item_statuses -> In (Item.status (f x)) item_statuses.
Proof. by destruct 1. Qed.

Lemma Forall_filter_bool {A} (P : A -> Prop) (c : A -> bool) l :
  Forall P l -> Forall P (List.filter c l).
Proof.
  rewrite !Forall_forall. intros H x Hx. apply H.
  apply list_elem_of_In. apply list_elem_of_In in Hx.
  by apply List.filter_In in Hx as [Hx _].
Qed.

Lemma Forall_update {A} (P : A -> Prop) (c : A -> bool) (f : A -> A) l :
  (forall a, P a -> P (f a)) ->
  Forall P l -> Forall P (List.map (fun a => if c a then f a else a) l).
Proof.
  intros Hf H. induction H as [|a l Ha _ IH]; simpl; constructor; [|done].
  destruct (c a); auto.
Qed.

Lemma statuses_outcome up w w' :
  outcome up w w' -> statuses_ok w -> statuses_ok w'.
Proof.
  intros Hout [Hi Hc]. unfold statuses_ok.
  destruct Hout as [E1 _ E3 _ _|row E1 _ _ Hst _ E3 _ _
                   |row it E3 _ _ Hst _ _ _ E1 _ _|id f _ Hf E1 _ E3 _ _
                   |id st _ Hst E3 _ E1 _ _|it _ _ E1 _ E3 _ _];
    rewrite E1, E3.
  - done.
  - split; [|done]. apply Forall_app. split; [done|].
    constructor; [|done]. rewrite Hst. simpl. tauto.
  - split; [done|]. apply Forall_app. split; [done|].
    constructor; [|done]. rewrite Hst. simpl. tauto.
  - split; [|done]. apply Forall_update; [|done].
    intros a. by apply item_rewrite_status.
  - split; [done|]. apply Forall_update; [|done]. by intros a _.
  - split; by apply Forall_filter_bool.
Qed.

Lemma claims_owned_outcome up w w' :
  outcome up w w' -> claims_owned w -> claims_owned w'.
Proof.
  intros Hout Hown. unfold claims_owned in *.
  destruct Hout as [E1 _ E3 _ _|row E1 _ _ Hst _ E3 _ _
                   |row it E3 _ _ Hst _ Hin Hit E1 _ _|id f _ Hf E1 _ E3 _ _
                   |id st _ Hst E3 _ E1 _ _|it _ _ E1 _ E3 _ _];
    rewrite E1, E3.
  - done.
  - eapply Forall_impl; [exact Hown|]. simpl.
    intros c (i & Hi & Hid). exists i. split; [|done].
    apply in_or_app. by left.
  - apply Forall_app. split; [done|]. constructor; [|done]. by exists it.
  - eapply Forall_impl; [exact Hown|]. simpl.
    intros c (i & Hi & Hid).
    exists (if Sql.id_is id (Item.id i) then f i else i). split.
    + apply in_map_iff. by exists i.
    + destruct (Sql.id_is id (Item.id i)); [|done].
      by rewrite item_rewrite_id.
  - apply Forall_update; [by intros a|done].
  - rewrite Forall_forall in Hown. apply Forall_forall. intros c Hc.
    apply list_elem_of_In, List.filter_In in Hc as [Hc Hne].
    apply list_elem_of_In in Hc.
    destruct (Hown c Hc) as (i & Hi & Hid). exists i. split; [|done].
    apply List.filter_In. split; [done|]. by rewrite Hid.
Qed.

Lemma seq_outcome up w w' :
  outcome up w w' ->
  items_seq w <= items_seq w' /\ claims_seq w <= claims_seq w'.
Proof. destruct 1; lia. Qed.

Lemma reachable_statuses w : reachable w -> statuses_ok w.
Proof.
  induction 1 as [|w rq _ IH]; [by split|].
  eapply statuses_outcome; [apply handle_outcome|done].
Qed.

Lemma reachable_owned w : reachable w -> claims_owned w.
Proof.
  induction 1 as [|w rq _ IH]; [by constructor|].
  eapply claims_owned_outcome; [apply handle_outcome|done].
Qed.

Lemma reachable_claims_link w c :
  reachable w -> In c (claims w) ->
  exists it, In it (items w) /\ Item.id it = Claim.item_id c.
Proof.
  intros H Hin. apply reachable_owned in H. unfold claims_owned in H.
  rewrite Forall_forall in H. by apply H, list_elem_of_In.
Qed.

Lemma reachable_run rqs w : reachable w -> reachable (run rqs w).
Proof.
  revert w. induction rqs as [|rq rqs IH]; intros w H; [done|].
  simpl. by apply IH, reachable_step.
Qed.

End LifecycleInvariants.

(** X7. In every world that the server reaches from the empty database,
    the ids of the items are pairwise different and so are the ids of the
    claims, and no id is above the AUTOINCREMENT counter of its table. *)
Theorem reachable_ids_unique (w : world) :
  reachable w ->
  NoDup (List.map Item.id (items w))
  /\ NoDup (List.map Claim.id (claims w))
  /\ (forall it, In it (items w) -> Item.id it <= items_seq w)
  /\ (forall c, In c (claims w) -> Claim.id c <= claims_seq w).
Proof.
  intros H. apply reachable_wf in H as (H1 & H2 & H3 & H4).
  rewrite Forall_forall in H1. rewrite Forall_forall in H3.
  repeat split; [done|done| |].
  - intros it Hin. by apply H1, list_elem_of_In.
  - intros c Hin. by apply H3, list_elem_of_In.
Qed.

(** An instance: the world after two reports. *)
Lemma reachable_ids_unique_witness :
  NoDup (List.map Item.id
           (items (handle (PostItem "2025-01-11 09:00:00" Sample.form None)
                     (handle (PostItem "2025-01-10 09:00:00" Sample.form None)
                        empty_world).2).2)).
Proof.
  apply (reachable_ids_unique
           (handle (PostItem "2025-01-11 09:00:00" Sample.form None)
              (handle (PostItem "2025-01-10 09:00:00" Sample.form None)
                 empty_world).2).2).
  apply reachable_step, reachable_step, reachable_init.
Defined.

(** X8. In every reachable world every item has one of the statuses
    pending, approved, claimed, archived and every claim one of new,
    in_review, approved, rejected, resolved: no request stores another
    value. *)
Theorem reachable_statuses_valid (w : world) :
  reachable w ->
  (forall it, In it (items w) -> In (Item.status it) item_statuses)
  /\ (forall c, In c (claims w) -> In (Claim.status c) valid).
Proof.
  intros H. apply reachable_statuses in H as [H1 H2].
  rewrite Forall_forall in H1. rewrite Forall_forall in H2.
  split.
  - intros it Hin. by apply H1, list_elem_of_In.
  - intros c Hin. by apply H2, list_elem_of_In.
Qed.

(** An instance: a report that an admin archives. *)
Lemma reachable_statuses_valid_witness :
  In (Item.status
        (set_status "archived"
           (reported "2025-01-10 09:00:00" Sample.form None 1)))
     item_statuses.
Proof.
  apply (proj1 (reachable_statuses_valid
                  (run [PostItem "2025-01-10 09:00:00" Sample.form None;
                        PatchItem (Some "admin") "1"
                          (Sample.only_action "archive")] empty_world)
                  (reachable_run _ _ reachable_init))
           (set_status "archived"
              (reported "2025-01-10 09:00:00" Sample.form None 1))).
  left. reflexivity.
Defined.

(** X9. In every reachable world every claim belongs to an item that is
    still in the table: a claim is only inserted for an item that exists,
    and the claims of a deleted item go with it. *)
Theorem reachable_claims_owned (w : world) (c : Claim.t) :
  reachable w -> In c (claims w) ->
  exists it, In it (items w) /\ Item.id it = Claim.item_id c.
Proof.
  intros H Hin. apply reachable_owned in H. unfold claims_owned in H.
  rewrite Forall_forall in H. by apply H, list_elem_of_In.
Qed.

(** An instance: a claim on the first report. *)
Lemma reachable_claims_owned_witness :
  exists it,
    In it (items (run [PostItem "2025-01-10 09:00:00" Sample.form None;
                       PostClaim "2025-01-11 10:00:00" "1" Sample.claim_form
                         None] empty_world))
    /\ Item.id it = 1.
Proof.
  apply (reachable_claims_owned
           (run [PostItem "2025-01-10 09:00:00" Sample.form None;
                 PostClaim "2025-01-11 10:00:00" "1" Sample.claim_form None]
              empty_world)
           (Sample.inquiry 1 1 None)).
  - apply reachable_run, reachable_init.
  - left. reflexivity.
Defined.

(** ** Files and rows *)

Section Files.

Lemma filter_split {A} (c : A -> bool) (l : list A) :
  l ≡ₚ List.filter c l ++ List.filter (fun x => negb (c x)) l.
Proof.
  induction l as [|a l IH]; simpl; [done|].
  destruct (c a); simpl.
  - by constructor.
  - rewrite <- Permutation_middle. by constructor.
Qed.

Lemma filter_none {A} (c : A -> bool) (l : list A) :
  (forall x, In x l -> c x = false) -> List.filter c l = [].
Proof.
  induction l as [|a l IH]; simpl; [done|]. intros H.
  rewrite (H a) by (by left). apply IH. intros x Hx. apply H. by right.
Qed.

Lemma filter_found (l : list Item.t) (it : Item.t) :
  NoDup (List.map Item.id l) ->
  List.find (fun x => Item.id it =? Item.id x) l = Some it ->
  List.filter (fun x => Item.id it =? Item.id x) l = [it].
Proof.
  induction l as [|a l IH]; simpl; [done|].
  intros Hnd Hfind. apply NoDup_cons in Hnd as [Hna Hnd].
  destruct (Item.id it =? Item.id a) eqn:E.
  - injection Hfind as ->. f_equal. apply filter_none.
    intros x Hx. apply Z.eqb_neq. intros Hid. apply Hna.
    rewrite Hid. apply list_elem_of_In. by apply in_map.
  - by apply IH.
Qed.

Lemma photo_file_named (it : Item.t) name :
  Item.photo_filename it = Some name -> name <> "" -> photo_file it = [name].
Proof.
  unfold photo_file. intros -> Hne. by destruct name.
Qed.

Lemma photo_file_none (it : Item.t) :
  Item.photo_filename it = None -> photo_file it = [].
Proof. unfold photo_file. by intros ->. Qed.

Lemma proof_files_app cs1 cs2 :
  proof_files (cs1 ++ cs2) = proof_files cs1 ++ proof_files cs2.
Proof. unfold proof_files. apply List.flat_map_app. Qed.

Lemma proof_files_named (c : Claim.t) name :
  Claim.proof_filename c = Some name -> name <> "" -> proof_files [c] = [name].
Proof.
  unfold proof_files. simpl. intros -> Hne. by destruct name.
Qed.

Lemma proof_files_none (c : Claim.t) :
  Claim.proof_filename c = None -> proof_files [c] = [].
Proof. unfold proof_files. simpl. by intros ->. Qed.

Lemma photo_files_update (c : Item.t -> bool) (f : Item.t -> Item.t) l :
  item_rewrite f ->
  List.flat_map photo_file (List.map (fun x => if c x then f x else x) l)
  = List.flat_map photo_file l.
Proof.
  intros Hf. induction l as [|a l IH]; simpl; [done|]. rewrite IH. f_equal.
  destruct (c a); [|done]. unfold photo_file.
  by rewrite (item_rewrite_photo f a Hf).
Qed.

Lemma proof_files_update (c : Claim.t -> bool) st l :
  proof_files (List.map (fun x => if c x then set_claim_status st x else x) l)
  = proof_files l.
Proof.
  unfold proof_files. induction l as [|a l IH]; simpl; [done|].
  rewrite IH. f_equal. by destruct (c a).
Qed.

Lemma upload_comes_and_goes (u : gset string) name :
  name ∉ u -> ({[ name ]} ∪ u) ∖ {[ name ]} = u.
Proof.
  intros H.
  rewrite difference_union_distr_l_L, difference_diag_L, union_empty_l_L.
  apply difference_disjoint_L. by apply disjoint_singleton_r.
Qed.

Lemma refs_added (refs refs' : list string) name (u : gset string) :
  refs' ≡ₚ name :: refs -> NoDup refs -> u = list_to_set refs -> name ∉ u ->
  NoDup refs' /\ {[ name ]} ∪ u = list_to_set refs'.
Proof.
  intros Hp Hnd -> Hfresh. rewrite Hp. split.
  - apply NoDup_cons. split; [|done].
    intros Hin. apply Hfresh. by apply elem_of_list_to_set.
  - by rewrite list_to_set_cons.
Qed.

Lemma refs_removed (refs refs' names : list string) (u : gset string) :
  refs ≡ₚ names ++ refs' -> NoDup refs -> u = list_to_set refs ->
  NoDup refs' /\ u ∖ list_to_set names = list_to_set refs'.
Proof.
  intros Hp Hnd ->. rewrite Hp in Hnd |- *.
  apply NoDup_app in Hnd as (_ & Hdis & Hnd'). split; [done|].
  rewrite list_to_set_app_L, difference_union_distr_l_L, difference_diag_L,
    union_empty_l_L.
  apply difference_disjoint_L. apply elem_of_disjoint.
  intros x Hx Hn. apply elem_of_list_to_set in Hx.
  apply elem_of_list_to_set in Hn. by apply (Hdis x Hn).
Qed.

Lemma swap_middle {A} (a b d e : list A) :
  (a ++ b) ++ (d ++ e) ≡ₚ (d ++ a) ++ (b ++ e).
Proof.
  rewrite <- !app_assoc. rewrite (Permutation_app_swap_app b d e).
  apply Permutation_app_swap_app.
Qed.

Lemma files_outcome up w w' :
  wf w ->
  match up with
  | Some name => name <> "" /\ name ∉ uploads w
  | None => True
  end ->
  outcome up w w' -> files_ok w -> files_ok w'.
Proof.
  intros Hwf Hfresh Hout [Hnd Hup]. unfold files_ok, file_refs in *.
  destruct Hout as [E1 _ E3 _ Eu|row E1 _ _ _ Hph E3 _ Eu
                   |row it E3 _ _ _ Hpf _ _ E1 _ Eu|id f _ Hf E1 _ E3 _ Eu
                   |id st _ _ E3 _ E1 _ Eu|it _ Hfind E1 _ E3 _ Eu];
    rewrite E1, E3, Eu.
  - split; [done|]. destruct up as [name|]; simpl; [|done].
    rewrite upload_comes_and_goes; [done|tauto].
  - rewrite List.flat_map_app. simpl. rewrite app_nil_r.
    destruct up as [name|]; cbn [with_file].
    + destruct Hfresh as [Hne Hnot].
      rewrite (photo_file_named row name Hph Hne).
      apply (refs_added (List.flat_map photo_file (items w)
                         ++ proof_files (claims w))); try done.
      rewrite <- app_assoc. simpl. by rewrite <- Permutation_middle.
    + rewrite (photo_file_none row Hph), app_nil_r. done.
  - rewrite proof_files_app.
    destruct up as [name|]; cbn [with_file].
    + destruct Hfresh as [Hne Hnot].
      rewrite (proof_files_named row name Hpf Hne).
      apply (refs_added (List.flat_map photo_file (items w)
                         ++ proof_files (claims w))); try done.
      rewrite app_assoc. by rewrite <- Permutation_cons_append.
    + rewrite (proof_files_none row Hpf), app_nil_r. done.
  - by rewrite photo_files_update.
  - by rewrite proof_files_update.
  - destruct Hwf as (_ & Hids & _).
    apply (refs_removed (List.flat_map photo_file (items w)
                         ++ proof_files (claims w))); try done.
    pose proof (filter_split (fun x => Item.id it =? Item.id x) (items w))
      as Hi.
    rewrite (filter_found _ _ Hids Hfind) in Hi.
    apply (Permutation_flat_map photo_file) in Hi.
    rewrite List.flat_map_app in Hi. simpl in Hi. rewrite app_nil_r in Hi.
    pose proof (filter_split (fun c => Item.id it =? Claim.item_id c)
                  (claims w)) as Hc.
    apply (Permutation_flat_map
             (fun c => if JS.truthy (Claim.proof_filename c)
                       then [default "" (Claim.proof_filename c)] else []))
      in Hc.
    rewrite List.flat_map_app in Hc.
    etransitivity; [apply Permutation_app; [exact Hi|exact Hc]|].
    apply swap_middle.
Qed.

Lemma fresh_uploaded rq w :
  fresh_upload rq w ->
  match uploaded rq with
  | Some name => name <> "" /\ name ∉ uploads w
  | None => True
  end.
Proof. by destruct rq as [| |? ? [?|]|? ? ? [?|]| | |]. Qed.

Lemma reachable_fresh_reachable w : reachable_fresh w -> reachable w.
Proof.
  induction 1 as [|w rq _ IH _]; [apply reachable_init|].
  by apply reachable_step.
Qed.

Lemma files_empty : files_ok empty_world.
Proof. split; [constructor|done]. Qed.

Lemma reachable_files w : reachable_fresh w -> files_ok w.
Proof.
  induction 1 as [|w rq Hr IH Hf]; [apply files_empty|].
  eapply files_outcome; [|by apply fresh_uploaded|apply handle_outcome|done].
  by apply reachable_wf, reachable_fresh_reachable.
Qed.

End Files.

(** X10. When every upload gets a fresh, non-empty name, the upload
    directory of every reachable world holds exactly the files that the
    rows point to (the photos of the items and the proofs of the claims),
    and no file belongs to two rows: a turned-down request leaves no file
    behind and a deletion leaves neither a file nor a row that points to
    a missing one. *)
Theorem uploads_match_rows (w : world) :
  reachable_fresh w ->
  NoDup (file_refs w)
  /\ (forall name, name ∈ uploads w <-> In name (file_refs w)).
Proof.
  intros H. apply reachable_files in H as [Hnd Hup]. split; [done|].
  intros name. rewrite Hup, elem_of_list_to_set. apply list_elem_of_In.
Qed.

(** An instance: a report with a photo, then a claim with a proof on an id
    without item, which is turned down. *)
Lemma uploads_match_rows_witness :
  "a.png" ∈ uploads
              (run [PostItem "2025-01-10 09:00:00" Sample.form (Some "a.png");
                    PostClaim "2025-01-11 10:00:00" "7" Sample.claim_form
                      (Some "b.png")] empty_world)
  <-> In "a.png"
        (file_refs
           (run [PostItem "2025-01-10 09:00:00" Sample.form (Some "a.png");
                 PostClaim "2025-01-11 10:00:00" "7" Sample.claim_form
                   (Some "b.png")] empty_world)).
Proof.
  apply (uploads_match_rows
           (run [PostItem "2025-01-10 09:00:00" Sample.form (Some "a.png");
                 PostClaim "2025-01-11 10:00:00" "7" Sample.claim_form
                   (Some "b.png")] empty_world)).
  cbn [run]. apply fresh_step.
  - apply fresh_step; [apply fresh_init|].
    split; [discriminate|apply not_elem_of_empty].
  - split; [discriminate|]. simpl.
    rewrite union_empty_r_L. apply not_elem_of_singleton. discriminate.
Defined.

Section Counters.

Lemma run_seq rqs w :
  items_seq w <= items_seq (run rqs w)
  /\ claims_seq w <= claims_seq (run rqs w).
Proof.
  revert w. induction rqs as [|rq rqs IH]; intros w; simpl; [lia|].
  pose proof (seq_outcome _ _ _ (handle_outcome rq w)).
  specialize (IH (handle rq w).2). lia.
Qed.

Lemma post_item_accepted now b file w :
  item_form_ok b = true ->
  (post_item now b file w).1
  = res_status 201 (JCreated (items_seq w + 1) "pending" "Submitted for review").
Proof.
  intros Hok. unfold post_item. unfold item_form_ok in Hok.
  rewrite <- !negb_andb, Hok. reflexivity.
Qed.

End Counters.

(** X11. An item id is never given twice: whatever requests are served
    in between, deletions included, the id that a later accepted report
    gets is above the counter and above the id of every item that was in
    the table before. *)
Theorem ids_never_reused (w : world) (rqs : list request) (now : string)
    (b : ItemForm.t) (file : option string) :
  wf w -> item_form_ok b = true ->
  exists id',
    (post_item now b file (run rqs w)).1
    = res_status 201 (JCreated id' "pending" "Submitted for review")
    /\ items_seq w < id'
    /\ forall it, In it (items w) -> Item.id it < id'.
Proof.
  intros (Hle & _) Hok. exists (items_seq (run rqs w) + 1).
  split; [by apply post_item_accepted|].
  pose proof (run_seq rqs w) as [Hseq _]. split; [lia|].
  intros it Hin. rewrite Forall_forall in Hle.
  apply list_elem_of_In, Hle in Hin. lia.
Qed.

(** An instance: item 1 is deleted and the next report gets an id above 1. *)
Lemma ids_never_reused_witness :
  exists id',
    (post_item "2025-01-12 09:00:00" Sample.form None
       (run [DeleteItem (Some "admin") "1"] (Sample.one "approved"))).1
    = res_status 201 (JCreated id' "pending" "Submitted for review")
    /\ 1 < id'.
Proof.
  destruct (ids_never_reused (Sample.one "approved")
              [DeleteItem (Some "admin") "1"] "2025-01-12 09:00:00"
              Sample.form None (wf_sample "approved") eq_refl)
    as (id' & Hres & Hlt & _).
  exists id'. split; [exact Hres|exact Hlt].
Defined.

(** ** The lifecycle of an item, step after step *)

Section Lifecycle.

(** The world after an admin action on an existing item: well formed,
    with the rewritten row at the id. *)
Lemma patch_item_after s id_param body w it f :
  isAdmin s = true -> wf w -> item_at w (JS.parseInt id_param) it ->
  action_update (JS.parseInt id_param) body
  = Some (update_item (JS.parseInt id_param) f) ->
  (forall x, Item.id (f x) = Item.id x) ->
  wf (patch_item s id_param body w).2
  /\ item_at (patch_item s id_param body w).2 (JS.parseInt id_param) (f it)
  /\ claims (patch_item s id_param body w).2 = claims w
  /\ uploads (patch_item s id_param body w).2 = uploads w.
Proof.
  intros Hadm Hwf Hat Hact Hf. split; [by apply wf_patch_item|].
  rewrite (patch_item_found s id_param body w it f Hadm
             (find_item_at _ _ _ Hwf Hat) Hact Hf).
  split; [by apply item_at_updated|done].
Qed.

Lemma get_item_found s id_param w it :
  wf w -> item_at w (JS.parseInt id_param) it ->
  get_item s id_param w
  = (if negb (String.eqb (Item.status it) "approved") && negb (isAdmin s)
     then res_status 403 (JError "Item not accessible")
     else res_json (JItem it), w).
Proof.
  intros Hwf Hat. unfold get_item, bind, select_item.
  rewrite (find_item_at _ _ _ Hwf Hat). by destruct (_ && _).
Qed.

Lemma post_claim_found now id_param b file w it :
  wf w -> item_at w (JS.parseInt id_param) it ->
  Item.status it = "archived" ->
  post_claim now id_param b file w
  = (res_status 404 (JError "Item not found"), (unlink_file file w).2).
Proof.
  intros Hwf Hat Hst. unfold post_claim, bind, select_item.
  rewrite (find_item_at _ _ _ Hwf Hat), Hst. simpl. by destruct file.
Qed.

End Lifecycle.

(** X12. Approval publishes: after an admin approves an existing item,
    whatever its status was, [Get] on its id by anybody, logged in or not,
    answers 200 with the row, now 'approved', and for every listing
    request whose filters the row passes it is among the rows of the
    responses for the pages 1 to [n], once [n * limit] reaches the
    number of matching rows. *)
Theorem approve_publishes (s s' : session) (id_param : string)
    (body : PatchBody.t) (w : world) (it : Item.t) :
  isAdmin s = true -> wf w -> item_at w (JS.parseInt id_param) it ->
  PatchBody.action body = Some "approve" ->
  let w' := (patch_item s id_param body w).2 in
  get_item s' id_param w' = (res_json (JItem (set_status "approved" it)), w')
  /\ (forall r L (pages : nat -> option string) (n : nat),
        perPage r = JS.Num L ->
        (forall k, (k < n)%nat ->
           pageNum (with_page (pages k) r) = JS.Num (Z.of_nat (S k))) ->
        Z.of_nat (length (matching r w')) <= Z.of_nat n * L ->
        whereSql (where_ r) (set_status "approved" it) = true ->
        In (Item.project (set_status "approved" it))
           (pages_rows r w' pages n)).
Proof.
  intros Hadm Hwf Hat Hact w'.
  destruct (patch_item_after s id_param body w it (set_status "approved")
              Hadm Hwf Hat (action_update_approve _ _ Hact))
    as (Hwf' & Hat' & _); [done|].
  fold w' in Hwf', Hat'. split.
  - by rewrite (get_item_found s' id_param w' _ Hwf' Hat').
  - intros r L pages n HL Hpages Hn Hr.
    rewrite (pages_rows_all r w' L pages n HL Hpages Hn).
    apply in_map, orderSql_In, matching_In.
    split; [|done]. by destruct Hat'.
Qed.

(** An instance: the pending backpack is approved, then fetched without
    a session and found on the first page of the public listing. *)
Lemma approve_publishes_witness :
  get_item None "1"
    (patch_item (Some "admin") "1" (Sample.only_action "approve")
       (Sample.one "pending")).2
  = (res_json (JItem (set_status "approved" (Sample.backpack 1 "pending"))),
     (patch_item (Some "admin") "1" (Sample.only_action "approve")
        (Sample.one "pending")).2)
  /\ In (Item.project (set_status "approved" (Sample.backpack 1 "pending")))
        (page_rows
           (get_items Sample.no_query
              (patch_item (Some "admin") "1" (Sample.only_action "approve")
                 (Sample.one "pending")).2).1).
Proof.
  destruct (approve_publishes (Some "admin") None "1"
              (Sample.only_action "approve") (Sample.one "pending")
              (Sample.backpack 1 "pending") eq_refl (wf_sample "pending"))
    as [Hget Hlist].
  - split; [by left|reflexivity].
  - reflexivity.
  - split; [exact Hget|].
    pose proof (Hlist Sample.no_query 20 (fun _ => None) 1%nat eq_refl) as H.
    unfold pages_rows in H. cbn [seq List.map concat] in H.
    rewrite app_nil_r in H. apply H.
    + intros [|k] Hk; [reflexivity|lia].
    + vm_compute. discriminate.
    + reflexivity.
Defined.

(** X13. Archiving withdraws: after an admin archives an existing item,
    [Get] on its id without an admin session answers 403, every claim on
    it is answered 404 whatever its fields are and inserts nothing, and
    no page of a listing asked without [status] shows a row with its id. *)
Theorem archive_withdraws (s s' : session) (id_param : string)
    (body : PatchBody.t) (w : world) (it : Item.t) :
  isAdmin s = true -> wf w -> item_at w (JS.parseInt id_param) it ->
  PatchBody.action body = Some "archive" ->
  isAdmin s' = false ->
  let w' := (patch_item s id_param body w).2 in
  get_item s' id_param w'
  = (res_status 403 (JError "Item not accessible"), w')
  /\ (forall now b file,
        (post_claim now id_param b file w').1
        = res_status 404 (JError "Item not found")
        /\ claims (post_claim now id_param b file w').2 = claims w)
  /\ (forall r lr, Query.status r = None ->
        In lr (page_rows (get_items r w').1) -> Item.l_id lr <> Item.id it).
Proof.
  intros Hadm Hwf Hat Hact Hpub w'.
  destruct (patch_item_after s id_param body w it (set_status "archived")
              Hadm Hwf Hat (action_update_archive _ _ Hact))
    as (Hwf' & Hat' & Hcl & _); [done|].
  fold w' in Hwf', Hat', Hcl. split; [|split].
  - rewrite (get_item_found s' id_param w' _ Hwf' Hat'). simpl.
    by rewrite Hpub.
  - intros now b file.
    rewrite (post_claim_found now id_param b file w' _ Hwf' Hat' eq_refl).
    split; [done|]. simpl. rewrite <- Hcl. by destruct file.
  - intros r lr Hs Hin Hid.
    apply page_rows_matching in Hin as (x & Hx & Hw & ->).
    apply (where_default_status _ _ Hs) in Hw. simpl in Hid.
    assert (Hx' : item_at w' (JS.parseInt id_param) x).
    { split; [done|]. destruct Hat' as [_ ->]. simpl. by rewrite Hid. }
    pose proof (find_item_at _ _ _ Hwf' Hx') as F1.
    pose proof (find_item_at _ _ _ Hwf' Hat') as F2.
    rewrite F1 in F2. injection F2 as ->. discriminate Hw.
Qed.

(** An instance: the approved backpack is archived; the public no longer
    gets it. *)
Lemma archive_withdraws_witness :
  get_item None "1"
    (patch_item (Some "admin") "1" (Sample.only_action "archive")
       (Sample.one "approved")).2
  = (res_status 403 (JError "Item not accessible"),
     (patch_item (Some "admin") "1" (Sample.only_action "archive")
        (Sample.one "approved")).2).
Proof.
  apply (archive_withdraws (Some "admin") None "1"
           (Sample.only_action "archive") (Sample.one "approved")
           (Sample.backpack 1 "approved") eq_refl (wf_sample "approved")).
  - split; [by left|reflexivity].
  - reflexivity.
  - reflexivity.
Defined.

(** ** Round trips and refusals *)

Section RoundTrip.

Lemma post_item_stored now b file w :
  item_form_ok b = true ->
  items (post_item now b file w).2
  = items w ++ [reported now b file (items_seq w + 1)].
Proof.
  intros Hok. unfold post_item. unfold item_form_ok in Hok.
  rewrite <- !negb_andb, Hok. reflexivity.
Qed.

Lemma is_action_other (a : option string) name :
  (forall x, a = Some x -> x <> name) -> is_action a name = false.
Proof.
  intros H. destruct a as [x|]; [|done]. simpl.
  apply String.eqb_neq. by apply H.
Qed.

End RoundTrip.

(** X14. What is reported can be read back: after an accepted report the
    id of the answer addresses a row that holds the sanitized fields of
    the form, the name of the stored photo, the status 'pending' and the
    time of the insertion; an admin gets it with [Get], and a requester
    without admin session is answered 403. *)
Theorem report_round_trip (now : string) (b : ItemForm.t)
    (file : option string) (w : world) (s : session) (id_param : string) :
  wf w -> item_form_ok b = true ->
  JS.parseInt id_param = JS.Num (items_seq w + 1) ->
  let w' := (post_item now b file w).2 in
  (post_item now b file w).1
  = res_status 201 (JCreated (items_seq w + 1) "pending" "Submitted for review")
  /\ get_item s id_param w'
     = (if isAdmin s
        then res_json (JItem (reported now b file (items_seq w + 1)))
        else res_status 403 (JError "Item not accessible"), w').
Proof.
  intros Hwf Hok Hid w'. split; [by apply post_item_accepted|].
  assert (Hat : item_at w' (JS.parseInt id_param)
                  (reported now b file (items_seq w + 1))).
  { split; [|done]. unfold w'. rewrite post_item_stored by done.
    apply in_or_app. right. by left. }
  rewrite (get_item_found s id_param w' _ (wf_post_item now b file w Hwf) Hat).
  simpl. by destruct (isAdmin s).
Qed.

(** An instance: the first report is read back by an admin under '1'. *)
Lemma report_round_trip_witness :
  get_item (Some "admin") "1"
    (post_item "2025-01-10 09:00:00" Sample.form None empty_world).2
  = (res_json (JItem (reported "2025-01-10 09:00:00" Sample.form None 1)),
     (post_item "2025-01-10 09:00:00" Sample.form None empty_world).2).
Proof.
  apply (report_round_trip "2025-01-10 09:00:00" Sample.form None empty_world
           (Some "admin") "1" wf_empty eq_refl eq_refl).
Defined.

(** X15. A claim on an existing item that is not archived, with an empty
    name, email or message after [sanitizeString], is answered 400:
    no claim is inserted, no table changes, and the only effect is the
    unlinking of the stored proof file, if there is one. *)
Theorem post_claim_invalid (now id_param : string) (b : ClaimForm.t)
    (file : option string) (w : world) (it : Item.t) :
  wf w -> item_at w (JS.parseInt id_param) it ->
  Item.status it <> "archived" -> claim_form_ok b = false ->
  turned_down (res_status 400 (JError "Name, email, and message are required"))
    file w (post_claim now id_param b file w).
Proof.
  intros Hwf Hat Hst Hbad. unfold post_claim, bind, select_item.
  rewrite (find_item_at _ _ _ Hwf Hat).
  apply String.eqb_neq in Hst. rewrite Hst.
  unfold claim_form_ok in Hbad. rewrite <- !negb_andb, Hbad.
  unfold turned_down. reject_branch file.
Qed.

(** An instance: a claim without message on the approved backpack. *)
Lemma post_claim_invalid_witness :
  turned_down (res_status 400 (JError "Name, email, and message are required"))
    (Some "proof2.png") (Sample.one "approved")
    (post_claim "2025-01-12 08:00:00" "1"
       {| ClaimForm.claimant_name := Some "B";
          ClaimForm.claimant_email := Some "b@x.com";
          ClaimForm.student_id := None; ClaimForm.message := Some "   " |}
       (Some "proof2.png") (Sample.one "approved")).
Proof.
  apply (post_claim_invalid "2025-01-12 08:00:00" "1" _ (Some "proof2.png")
           (Sample.one "approved") (Sample.backpack 1 "approved")
           (wf_sample "approved")).
  - split; [by left|reflexivity].
  - discriminate.
  - reflexivity.
Defined.

(** X16. An admin action is refused without any effect in two cases:
    with no item of the id the answer is 404, whatever the action is, and
    for an existing item with a missing action or one that is not
    approve, archive, mark_claimed or edit the answer is 400. *)
Theorem patch_item_refusals (s : session) (id_param : string)
    (body : PatchBody.t) (w : world) :
  isAdmin s = true ->
  (no_item_at w (JS.parseInt id_param) ->
     patch_item s id_param body w = (res_status 404 (JError "Not found"), w))
  /\ (forall it, wf w -> item_at w (JS.parseInt id_param) it ->
        (forall a, PatchBody.action body = Some a -> ~ In a actions) ->
        patch_item s id_param body w
        = (res_status 400 (JError "Unknown action"), w)).
Proof.
  intros Hadm. split.
  - intros Hno. unfold patch_item, requireAdmin. rewrite Hadm. simpl.
    unfold bind, select_item. by rewrite (find_item_none _ _ Hno).
  - intros it Hwf Hat Hact.
    apply (patch_item_unknown s id_param body w it Hadm
             (find_item_at _ _ _ Hwf Hat)).
    unfold action_update.
    rewrite !is_action_other; [done|..];
      intros x Hx ->; apply (Hact _ Hx); simpl; tauto.
Qed.

(** Instances: 'approve' on an id without item, and 'publish' on item 1. *)
Lemma patch_item_refusals_witness :
  patch_item (Some "admin") "7" (Sample.only_action "approve")
    (Sample.one "pending")
  = (res_status 404 (JError "Not found"), Sample.one "pending")
  /\ patch_item (Some "admin") "1" (Sample.only_action "publish")
       (Sample.one "pending")
     = (res_status 400 (JError "Unknown action"), Sample.one "pending").
Proof.
  split.
  - apply (proj1 (patch_item_refusals (Some "admin") "7"
                    (Sample.only_action "approve") (Sample.one "pending")
                    eq_refl)).
    intros it [<-|[]]. discriminate.
  - apply (proj2 (patch_item_refusals (Some "admin") "1"
                    (Sample.only_action "publish") (Sample.one "pending")
                    eq_refl) (Sample.backpack 1 "pending")
             (wf_sample "pending")).
    + split; [by left|reflexivity].
    + intros a [= <-]. simpl. intros [H|[H|[H|[H|[]]]]]; discriminate H.
Defined.

(** X17. Triage of a claim: for an admin and an existing claim, each of
    new, in_review, approved, rejected and resolved is accepted whatever
    the status was before; the answer carries the claim with that status
    and all its other columns as before, and neither the items nor the
    upload directory change. *)
Theorem patch_claim_sets_status (s : session) (id_param st : string)
    (w : world) (c : Claim.t) :
  isAdmin s = true -> wf w -> claim_at w (JS.parseInt id_param) c ->
  In st valid ->
  exists c',
    (patch_claim s id_param (Some st) w).1 = res_json (JClaim (Some c'))
    /\ claim_at (patch_claim s id_param (Some st) w).2 (JS.parseInt id_param) c'
    /\ Claim.status c' = st
    /\ Claim.id c' = Claim.id c /\ Claim.item_id c' = Claim.item_id c
    /\ Claim.claimant_name c' = Claim.claimant_name c
    /\ Claim.claimant_email c' = Claim.claimant_email c
    /\ Claim.student_id c' = Claim.student_id c
    /\ Claim.message c' = Claim.message c
    /\ Claim.proof_filename c' = Claim.proof_filename c
    /\ Claim.created_at c' = Claim.created_at c
    /\ items (patch_claim s id_param (Some st) w).2 = items w
    /\ uploads (patch_claim s id_param (Some st) w).2 = uploads w.
Proof.
  intros Hadm Hwf Hat Hst. exists (set_claim_status st c).
  destruct (patch_claim_valid s id_param st w c Hadm Hwf Hat Hst)
    as (Hres & Hat' & _).
  split; [done|]. split; [done|].
  unfold patch_claim, requireAdmin. rewrite Hadm.
  assert (Hinc : includes valid (Some st) = true).
  { unfold includes. apply existsb_exists. exists st. split; [done|].
    apply String.eqb_refl. }
  rewrite Hinc. repeat split.
Qed.

(** An instance: claim 2 of the sample goes from 'new' to 'resolved'. *)
Lemma patch_claim_sets_status_witness :
  exists c',
    (patch_claim (Some "admin") "2" (Some "resolved") (Sample.one "approved")).1
    = res_json (JClaim (Some c'))
    /\ Claim.status c' = "resolved".
Proof.
  destruct (patch_claim_sets_status (Some "admin") "2" "resolved"
              (Sample.one "approved") (Sample.inquiry 2 1 None) eq_refl
              (wf_sample "approved"))
    as (c' & Hres & _ & Hst & _).
  - split; [right; by left|reflexivity].
  - simpl. tauto.
  - exists c'. split; [exact Hres|exact Hst].
Defined.

(** X18. A claim status that is missing or not one of the five values
    is answered 400 for every id, also one that no claim has, and nothing
    changes: no claim is rewritten and no effect is logged. *)
Theorem patch_claim_refuses_status (s : session) (id_param : string)
    (status : option string) (w : world) :
  isAdmin s = true ->
  (forall st, status = Some st -> ~ In st valid) ->
  patch_claim s id_param status w
  = (res_status 400 (JError "Invalid status"), w).
Proof.
  intros Hadm Hst. apply patch_claim_invalid; [done|].
  destruct status as [st|]; [|done].
  destruct (includes valid (Some st)) eqn:E; [|done].
  apply includes_In in E. by destruct (Hst st eq_refl).
Qed.

(** An instance: the status 'done' is not accepted. *)
Lemma patch_claim_refuses_status_witness :
  patch_claim (Some "admin") "1" (Some "done") (Sample.one "approved")
  = (res_status 400 (JError "Invalid status"), Sample.one "approved").
Proof.
  apply (patch_claim_refuses_status (Some "admin") "1" (Some "done")
           (Sample.one "approved") eq_refl).
  intros st [= <-]. simpl. intros [H|[H|[H|[H|[H|[]]]]]]; discriminate H.
Defined.

(** X19. An 'edit' of an existing item by an admin stores the sanitized
    title, description, category, location and date of the request, each
    within its cap of 120, 2000, 60, 120 and 10 characters and without
    white space at its ends, and keeps the id, the status, the photo, the
    reporter and the time stamp of the row; the claims and the upload
    directory stay as they are. *)
Theorem edit_stores_sanitized (s : session) (id_param : string)
    (body : PatchBody.t) (w : world) (it : Item.t) :
  isAdmin s = true -> wf w -> item_at w (JS.parseInt id_param) it ->
  PatchBody.action body = Some "edit" ->
  exists it',
    (patch_item s id_param body w).1 = res_json (JUpdated (Some it'))
    /\ item_at (patch_item s id_param body w).2 (JS.parseInt id_param) it'
    /\ Item.title it' = sanitizeString (PatchBody.title body) 120
    /\ Item.description it' = sanitizeString (PatchBody.description body) 2000
    /\ Item.category it' = sanitizeString (PatchBody.category body) 60
    /\ Item.location_found it'
       = sanitizeString (PatchBody.location_found body) 120
    /\ Item.date_found it' = sanitizeString (PatchBody.date_found body) 10
    /\ (String.length (Item.title it') <= 120
        /\ String.length (Item.description it') <= 2000
        /\ String.length (Item.category it') <= 60
        /\ String.length (Item.location_found it') <= 120
        /\ String.length (Item.date_found it') <= 10)%nat
    /\ (trimmed (Item.title it') /\ trimmed (Item.description it')
        /\ trimmed (Item.category it') /\ trimmed (Item.location_found it')
        /\ trimmed (Item.date_found it'))
    /\ Item.id it' = Item.id it /\ Item.status it' = Item.status it
    /\ Item.photo_filename it' = Item.photo_filename it
    /\ Item.reporter_name it' = Item.reporter_name it
    /\ Item.reporter_email it' = Item.reporter_email it
    /\ Item.created_at it' = Item.created_at it
    /\ claims (patch_item s id_param body w).2 = claims w
    /\ uploads (patch_item s id_param body w).2 = uploads w.
Proof.
  intros Hadm Hwf Hat Hact.
  pose proof (action_update_edit (JS.parseInt id_param) body Hact) as Hupd.
  destruct (patch_item_after s id_param body w it _ Hadm Hwf Hat Hupd)
    as (_ & Hat' & Hcl & Hup); [done|].
  rewrite (patch_item_found s id_param body w it _ Hadm
             (find_item_at _ _ _ Hwf Hat) Hupd) in * by done.
  eexists. split; [reflexivity|]. split; [exact Hat'|].
  simpl. repeat split; try apply sanitizeString_length;
    try (unfold sanitizeString; destruct (JS.truthy _);
         [apply trim_trimmed|done]).
Qed.

(** An instance: the title of the backpack is replaced; it stays
    approved. *)
Lemma edit_stores_sanitized_witness :
  exists it',
    (patch_item (Some "admin") "1"
       {| PatchBody.action := Some "edit"; PatchBody.title := Some " Red bag ";
          PatchBody.description := Some "d"; PatchBody.category := Some "Bags";
          PatchBody.location_found := Some "Gym";
          PatchBody.date_found := Some "2025-02-01" |}
       (Sample.one "approved")).1
    = res_json (JUpdated (Some it'))
    /\ Item.title it' = "Red bag" /\ Item.status it' = "approved".
Proof.
  destruct (edit_stores_sanitized (Some "admin") "1"
              {| PatchBody.action := Some "edit";
                 PatchBody.title := Some " Red bag ";
                 PatchBody.description := Some "d";
                 PatchBody.category := Some "Bags";
                 PatchBody.location_found := Some "Gym";
                 PatchBody.date_found := Some "2025-02-01" |}
              (Sample.one "approved") (Sample.backpack 1 "approved") eq_refl
              (wf_sample "approved"))
    as (it' & Hres & _ & Ht & _ & _ & _ & _ & _ & _ & _ & Hst & _).
  - split; [by left|reflexivity].
  - reflexivity.
  - exists it'. split; [exact Hres|]. split; [exact Ht|exact Hst].
Defined.

(** ** The administration listings and the statistics *)

Section AdminListings.

#[global] Instance claim_desc_total : Total claim_desc.
Proof.
  intros a b. unfold claim_desc, Sql.text_le. apply String.leb_total.
Qed.

#[global] Instance claim_desc_trans : Transitive claim_desc.
Proof.
  intros a b c H1 H2. unfold claim_desc in *. by eapply text_le_trans.
Qed.

Lemma limit_all {A} (l : list A) :
  (length l <= 200)%nat -> Sql.limit_offset 200 0 l = l.
Proof.
  intros H. rewrite limit_offset_eq; cbv zeta. simpl. by apply firstn_all2.
Qed.

Lemma limit_length {A} (l : list A) :
  (length (Sql.limit_offset 200 0 l) <= 200)%nat.
Proof.
  rewrite limit_offset_eq; cbv zeta. simpl.
  rewrite length_take. lia.
Qed.

Lemma limit_sorted {A} (R : relation A) (l : list A) :
  StronglySorted R l -> StronglySorted R (Sql.limit_offset 200 0 l).
Proof.
  rewrite limit_offset_eq; cbv zeta. simpl. intros H.
  rewrite <- (take_drop (Z.to_nat 200) l) in H.
  by apply StronglySorted_app_1_l in H.
Qed.

(** At most one row has a given id. *)
Lemma at_most_one_id (l : list Item.t) (k : Z) :
  NoDup (List.map Item.id l) ->
  (length (List.filter (fun i => (Item.id i =? k)%Z) l) <= 1)%nat.
Proof.
  induction l as [|a l IH]; simpl; [lia|].
  intros Hnd. apply NoDup_cons in Hnd as [Hna Hnd].
  destruct (Z.eqb_spec (Item.id a) k) as [E|_]; [|by apply IH].
  simpl. rewrite filter_none; [simpl; lia|].
  intros x Hx. apply Z.eqb_neq. intros Hid. apply Hna.
  rewrite E, <- Hid. apply list_elem_of_In. by apply in_map.
Qed.

Lemma join_length w :
  wf w -> (length (claims_join_items w) <= length (claims w))%nat.
Proof.
  intros (_ & Hnd & _). unfold claims_join_items.
  induction (claims w) as [|c cs IH]; simpl; [lia|].
  rewrite length_app, List.length_map.
  pose proof (at_most_one_id (items w) (Claim.item_id c) Hnd). lia.
Qed.

Lemma filter_length_le {A} (c : A -> bool) (l : list A) :
  (length (List.filter c l) <= length l)%nat.
Proof.
  induction l as [|a l IH]; simpl; [lia|]. destruct (c a); simpl; lia.
Qed.

(** The four counts of the items add up when every status is one of the
    four. *)
Lemma count_by_status (l : list Item.t) :
  Forall (fun it => In (Item.status it) item_statuses) l ->
  length l
  = (length (List.filter (fun it => String.eqb (Item.status it) "pending") l)
     + length (List.filter (fun it => String.eqb (Item.status it) "approved") l)
     + length (List.filter (fun it => String.eqb (Item.status it) "claimed") l)
     + length (List.filter (fun it => String.eqb (Item.status it) "archived") l))%nat.
Proof.
  induction 1 as [|a l Ha _ IH]; simpl; [done|].
  simpl in Ha. destruct Ha as [<-|[<-|[<-|[<-|[]]]]]; simpl; lia.
Qed.

End AdminListings.

(** X20. The administration listing of items, for an admin: at most 200
    rows, newest first, each the projection of a stored item that has the
    given status (if one is given) and passes the text filter; with no
    status every status is listed, and as long as at most 200 items match,
    the rows are exactly the matching items. *)
Theorem admin_items_spec (s : session) (status q : option string) (w : world) :
  isAdmin s = true ->
  exists rows,
    admin_items s status q w = (a_json (AItems rows), w)
    /\ (length rows <= 200)%nat
    /\ StronglySorted admin_desc rows
    /\ (forall row, In row rows ->
          exists it, In it (items w) /\ row = AdminRow.project it
                     /\ whereSql (admin_where status q) it = true
                     /\ (forall st, status = Some st -> st <> "" ->
                           AdminRow.status row = st))
    /\ ((length (List.filter (whereSql (admin_where status q)) (items w))
         <= 200)%nat ->
        rows ≡ₚ List.map AdminRow.project
                  (List.filter (whereSql (admin_where status q)) (items w))).
Proof.
  intros Hadm. unfold admin_items, requireAdminA. rewrite Hadm. simpl.
  unfold bind, select_admin_items, ret. eexists. split; [reflexivity|].
  set (found := List.filter (whereSql (admin_where status q)) (items w)).
  split; [|split; [|split]].
  - rewrite List.length_map. apply limit_length.
  - change (List.map AdminRow.project) with (fmap (M:=list) AdminRow.project).
    eapply StronglySorted_fmap;
      [|apply limit_sorted, StronglySorted_order_by; apply _].
    done.
  - intros row Hrow. apply in_map_iff in Hrow as (it & <- & Hin).
    apply limit_offset_In in Hin.
    apply list_elem_of_In in Hin. rewrite order_by_Permutation in Hin.
    apply list_elem_of_In, List.filter_In in Hin as [Hin Hw].
    exists it. repeat split; try done.
    intros st -> Hne. simpl. unfold admin_where in Hw. simpl in Hw.
    apply nonempty_iff in Hne. rewrite Hne in Hw.
    rewrite whereSql_app in Hw. apply andb_prop in Hw as [Hw _].
    unfold whereSql in Hw. simpl in Hw. rewrite andb_true_r in Hw.
    by apply String.eqb_eq in Hw.
  - intros Hlen. rewrite limit_all.
    + change (List.map AdminRow.project) with (fmap (M:=list) AdminRow.project).
      by rewrite order_by_Permutation.
    + by rewrite order_by_Permutation.
Qed.

(** An instance: all six items of the shelf, whatever their status. *)
Lemma admin_items_spec_witness :
  exists rows,
    admin_items (Some "admin") None None shelf = (a_json (AItems rows), shelf)
    /\ rows ≡ₚ List.map AdminRow.project (items shelf).
Proof.
  destruct (admin_items_spec (Some "admin") None None shelf eq_refl)
    as (rows & Hres & _ & _ & _ & Hall).
  exists rows. split; [exact Hres|]. apply Hall. simpl. lia.
Defined.

(** X21. The administration listing of claims, for an admin: at most 200
    rows, newest first, each a stored claim together with the title and
    the status of the item that it belongs to, with the given status if
    one is given; in a reachable world with at most 200 claims every
    claim that passes the status filter is listed with its item. *)
Theorem admin_claims_spec (s : session) (status : option string) (w : world) :
  isAdmin s = true ->
  exists rows,
    admin_claims s status w = (a_json (AClaims rows), w)
    /\ (length rows <= 200)%nat
    /\ StronglySorted claim_desc rows
    /\ (forall row, In row rows ->
          exists c it, In c (claims w) /\ In it (items w)
                       /\ Item.id it = Claim.item_id c
                       /\ row = ClaimRow.join c it
                       /\ (forall st, status = Some st -> st <> "" ->
                             ClaimRow.status row = st))
    /\ (reachable w -> (length (claims w) <= 200)%nat ->
        forall c, In c (claims w) ->
          (forall st, status = Some st -> st <> "" -> Claim.status c = st) ->
          exists it, In it (items w) /\ Item.id it = Claim.item_id c
                     /\ In (ClaimRow.join c it) rows).
Proof.
  intros Hadm. unfold admin_claims, requireAdminA. rewrite Hadm. simpl.
  unfold bind, select_admin_claims, ret. eexists. split; [reflexivity|].
  set (pass := fun r => forallb (fun c : ClaimRow.t -> bool => c r)
                          (claim_where status)).
  assert (Hpass : forall r, pass r = true <->
            (forall st, status = Some st -> st <> "" -> ClaimRow.status r = st)).
  { intros r. unfold pass, claim_where. destruct status as [st|]; simpl.
    - destruct (JS.nonempty st) eqn:E; simpl.
      + rewrite andb_true_r, String.eqb_eq. split.
        * by intros -> ? [= <-] _.
        * intros H. apply H; [done|]. by apply nonempty_iff.
      + apply nonempty_false in E. subst. split; [|done].
        by intros _ ? [= <-] ?.
    - split; [|done]. by intros _ ? [=]. }
  split; [|split; [|split]].
  - apply limit_length.
  - apply limit_sorted, StronglySorted_order_by; apply _.
  - intros row Hrow. apply limit_offset_In in Hrow.
    apply list_elem_of_In in Hrow. rewrite order_by_Permutation in Hrow.
    apply list_elem_of_In, List.filter_In in Hrow as [Hrow Hw].
    unfold claims_join_items in Hrow.
    apply in_flat_map in Hrow as (c & Hc & Hrow).
    apply in_map_iff in Hrow as (it & <- & Hit).
    apply List.filter_In in Hit as [Hit Hid]. apply Z.eqb_eq in Hid.
    exists c, it. repeat split; try done. by apply Hpass.
  - intros Hreach Hlen c Hc Hst.
    destruct (reachable_claims_link w c Hreach Hc) as (it & Hit & Hid).
    exists it. split; [done|]. split; [done|].
    rewrite limit_all.
    + apply list_elem_of_In. rewrite order_by_Permutation.
      apply list_elem_of_In, List.filter_In. split.
      * unfold claims_join_items. apply in_flat_map. exists c.
        split; [done|]. apply in_map, List.filter_In. split; [done|].
        by apply Z.eqb_eq.
      * by apply Hpass.
    + rewrite order_by_Permutation.
      pose proof (filter_length_le pass (claims_join_items w)).
      pose proof (join_length w (reachable_wf w Hreach)). lia.
Qed.

(** An instance: the two claims of the sample and the title of their
    item. *)
Lemma admin_claims_spec_witness :
  exists rows,
    admin_claims (Some "admin") None (Sample.one "approved")
    = (a_json (AClaims rows), Sample.one "approved")
    /\ forall row, In row rows -> ClaimRow.item_title row = "Blue Backpack".
Proof.
  destruct (admin_claims_spec (Some "admin") None (Sample.one "approved")
              eq_refl) as (rows & Hres & _ & _ & Hrow & _).
  exists rows. split; [exact Hres|].
  intros row Hin. destruct (Hrow row Hin) as (c & it & _ & Hit & _ & -> & _).
  destruct Hit as [<-|[]]. reflexivity.
Defined.

(** X22. The statistics, for an admin in a reachable world: the total is
    the number of items, the counts of pending, approved and claimed items
    and the number of archived items, which is not reported, add up to it,
    and the new claims are among the claims. *)
Theorem admin_stats_spec (s : session) (w : world) :
  isAdmin s = true -> reachable w ->
  exists st,
    admin_stats s w = (a_json (AStats st), w)
    /\ Stats.items_total st = Z.of_nat (length (items w))
    /\ Stats.claims_total st = Z.of_nat (length (claims w))
    /\ Stats.items_total st
       = Stats.items_pending st + Stats.items_approved st
         + Stats.items_claimed st
         + Z.of_nat (length (List.filter
                               (fun it => String.eqb (Item.status it) "archived")
                               (items w)))
    /\ 0 <= Stats.claims_new st <= Stats.claims_total st.
Proof.
  intros Hadm Hreach. unfold admin_stats, requireAdminA. rewrite Hadm. simpl.
  unfold bind, count_all_items, count_items_status, count_all_claims,
    count_claims_status, ret.
  eexists. split; [reflexivity|]. simpl.
  split; [done|]. split; [done|]. split.
  - apply reachable_statuses in Hreach as [Hst _].
    rewrite (count_by_status _ Hst) at 1. lia.
  - pose proof (filter_length_le
                  (fun c => String.eqb (Claim.status c) "new") (claims w)).
    lia.
Qed.

(** An instance: the statistics after a report that was archived. *)
Lemma admin_stats_spec_witness :
  exists st,
    admin_stats (Some "admin")
      (run [PostItem "2025-01-10 09:00:00" Sample.form None;
            PatchItem (Some "admin") "1" (Sample.only_action "archive")]
         empty_world)
    = (a_json (AStats st),
       run [PostItem "2025-01-10 09:00:00" Sample.form None;
            PatchItem (Some "admin") "1" (Sample.only_action "archive")]
         empty_world)
    /\ Stats.items_total st = 1.
Proof.
  destruct (admin_stats_spec (Some "admin")
              (run [PostItem "2025-01-10 09:00:00" Sample.form None;
                    PatchItem (Some "admin") "1" (Sample.only_action "archive")]
                 empty_world) eq_refl)
    as (st & Hres & Htot & _).
  - apply reachable_run, reachable_init.
  - exists st. split; [exact Hres|]. rewrite Htot. reflexivity.
Defined.

(** ** Login, password change and the seeded admin *)

Section Accounts.

Lemma find_user_by_name (l : list User.t) (u : User.t) :
  NoDup (List.map User.username l) -> In u l ->
  List.find (fun x => String.eqb (User.username x) (User.username u)) l
  = Some u.
Proof.
  induction l as [|a l IH]; simpl; [done|].
  intros Hnd [->|Hin]; [by rewrite String.eqb_refl|].
  apply NoDup_cons in Hnd as [Hna Hnd].
  destruct (String.eqb_spec (User.username a) (User.username u)) as [E|_];
    [|by apply IH].
  destruct Hna. rewrite E. apply list_elem_of_In. by apply in_map.
Qed.

Lemma find_user_by_id (l : list User.t) (u : User.t) :
  NoDup (List.map User.id l) -> In u l ->
  List.find (fun x => User.id x =? User.id u) l = Some u.
Proof.
  induction l as [|a l IH]; simpl; [done|].
  intros Hnd [->|Hin]; [by rewrite Z.eqb_refl|].
  apply NoDup_cons in Hnd as [Hna Hnd].
  destruct (Z.eqb_spec (User.id a) (User.id u)) as [E|_]; [|by apply IH].
  destruct Hna. rewrite E. apply list_elem_of_In. by apply in_map.
Qed.

Lemma find_user_rehashed (c : User.t -> bool) (P : string -> bool) h l :
  List.find (fun x => P (User.username x))
    (List.map (fun x => if c x then set_hash h x else x) l)
  = option_map (fun x => if c x then set_hash h x else x)
      (List.find (fun x => P (User.username x)) l).
Proof.
  induction l as [|a l IH]; simpl; [done|].
  destruct (c a) eqn:E; simpl; destruct (P (User.username a)); simpl;
    rewrite ?E; done.
Qed.

Lemma users_rehashed (c : User.t -> bool) h (db : accounts) :
  accounts_wf db ->
  accounts_wf
    {| users := List.map (fun x => if c x then set_hash h x else x) (users db);
       users_seq := users_seq db |}.
Proof.
  intros (H1 & H2 & H3). unfold accounts_wf. simpl.
  rewrite !List.map_map.
  rewrite (List.map_ext (fun x => User.id (if c x then set_hash h x else x))
             User.id) by (intros a; by destruct (c a)).
  rewrite (List.map_ext
             (fun x => User.username (if c x then set_hash h x else x))
             User.username) by (intros a; by destruct (c a)).
  split; [done|]. split; [done|].
  apply Forall_update; [by intros a|done].
Qed.

Lemma find_after {A} (P : A -> bool) (l l' : list A) :
  List.find P l = None -> List.find P (l ++ l') = List.find P l'.
Proof.
  induction l as [|a l IH]; simpl; [done|]. by destruct (P a).
Qed.

Lemma seeded_wf h : accounts_wf (seed_admin h no_accounts).
Proof.
  split; [|split]; simpl.
  - apply NoDup_singleton.
  - apply NoDup_singleton.
  - constructor; [apply Z.le_refl|constructor].
Qed.

End Accounts.

(** X23. A login is refused in the same way, 401 'Invalid credentials',
    whether no user has the (trimmed) name or the password does not match
    the hash of the user, and the session stays as it was. *)
Theorem login_refused (compare : string -> string -> bool) (db : accounts)
    (sess : option SessionUser.t) (username password : option string) :
  (forall u, In u (users db) ->
     User.username u = JS.trim (default "" username) ->
     compare (default "" password) (User.password_hash u) = false) ->
  login compare db sess username password
  = (a_status 401 (AError "Invalid credentials"), sess).
Proof.
  intros H. unfold login.
  destruct (List.find _ _) as [u|] eqn:E; [|done].
  apply List.find_some in E as [Hin Hname].
  apply String.eqb_eq in Hname. by rewrite (H u Hin Hname).
Qed.

(** An instance, with a hash that is the password itself: a wrong
    password for the seeded admin. *)
Lemma login_refused_witness :
  login String.eqb (seed_admin "admin123" no_accounts) None (Some "admin")
    (Some "letmein")
  = (a_status 401 (AError "Invalid credentials"), None).
Proof.
  apply (login_refused String.eqb (seed_admin "admin123" no_accounts) None
           (Some "admin") (Some "letmein")).
  intros u [<-|[]] _. reflexivity.
Defined.

(** X24. A login with the name of a user, possibly with white space
    around it, and a password that matches the hash of the user sets the
    session to the id, the name and the role of that user; the session is
    an admin session exactly when the role is 'admin'. *)
Theorem login_accepted (compare : string -> string -> bool) (db : accounts)
    (sess : option SessionUser.t) (username password : string) (u : User.t) :
  accounts_wf db -> In u (users db) ->
  JS.trim username = User.username u ->
  compare password (User.password_hash u) = true ->
  login compare db sess (Some username) (Some password)
  = (a_json (ALoggedIn "Logged in" (User.username u) (User.role u)),
     Some (session_for u))
  /\ isAdmin (session_of (Some (session_for u)))
     = String.eqb (User.role u) "admin".
Proof.
  intros (_ & Hnames & _) Hin Hname Hok. split; [|done].
  unfold login. simpl. rewrite Hname.
  by rewrite (find_user_by_name _ _ Hnames Hin), Hok.
Qed.

(** An instance: the seeded admin logs in with ' admin '. *)
Lemma login_accepted_witness :
  login String.eqb (seed_admin "ChangeMe123!" no_accounts) None
    (Some " admin ") (Some "ChangeMe123!")
  = (a_json (ALoggedIn "Logged in" "admin" "admin"),
     Some {| SessionUser.id := 1; SessionUser.username := "admin";
             SessionUser.role := "admin" |}).
Proof.
  apply (login_accepted String.eqb (seed_admin "ChangeMe123!" no_accounts) None
           " admin " "ChangeMe123!"
           {| User.id := 1; User.username := "admin";
              User.password_hash := "ChangeMe123!"; User.role := "admin" |}).
  - apply seeded_wf.
  - by left.
  - reflexivity.
  - reflexivity.
Defined.

(** X25. A changed password works: when the user of an admin session
    gives the current password and a new one of at least 8 characters,
    the answer is 200, only the hash of that user changes, and a login
    with the name of the user and the new password is accepted
    afterwards ([hash] is the hash that bcrypt made of the new password,
    so it matches it). *)
Theorem change_password_round_trip (compare : string -> string -> bool)
    (db : accounts) (su : SessionUser.t) (u : User.t)
    (current next hash : string) :
  accounts_wf db -> In u (users db) ->
  SessionUser.id su = User.id u -> SessionUser.role su = "admin" ->
  compare current (User.password_hash u) = true ->
  (8 <= String.length next)%nat ->
  compare next hash = true ->
  let out :=
    change_password compare db (Some su) (Some current) (Some next) hash in
  out.1 = a_json (AMessage "Password changed")
  /\ accounts_wf out.2
  /\ In (set_hash hash u) (users out.2)
  /\ (forall v, In v (users db) -> User.id v <> User.id u -> In v (users out.2))
  /\ (forall sess name, JS.trim name = User.username u ->
        login compare out.2 sess (Some name) (Some next)
        = (a_json (ALoggedIn "Logged in" (User.username u) (User.role u)),
           Some (session_for u))).
Proof.
  intros Hwf Hin Hid Hrole Hcur Hlen Hnew out.
  pose proof Hwf as (Hids & Hnames & _).
  assert (Hout : out
    = (a_json (AMessage "Password changed"),
       {| users := List.map (fun x => if User.id x =? User.id u
                                      then set_hash hash x else x) (users db);
          users_seq := users_seq db |})).
  { unfold out, change_password. simpl. rewrite Hrole. simpl.
    rewrite Hid, (find_user_by_id _ _ Hids Hin), Hcur. simpl.
    destruct (Nat.ltb_spec (String.length next) 8) as [?|_]; [lia|done]. }
  rewrite Hout. simpl. split; [done|]. split; [by apply users_rehashed|].
  split; [|split].
  - apply in_map_iff. exists u. by rewrite Z.eqb_refl.
  - intros v Hv Hne. apply in_map_iff. exists v. split; [|done].
    by apply Z.eqb_neq in Hne as ->.
  - intros sess name Hname. unfold login. simpl. rewrite Hname.
    rewrite (find_user_rehashed
               (fun x => User.id x =? User.id u)
               (fun n => String.eqb n (User.username u))).
    rewrite (find_user_by_name _ _ Hnames Hin). simpl.
    rewrite Z.eqb_refl. simpl. by rewrite Hnew.
Qed.

(** An instance, with a hash that is the password itself: the seeded
    admin moves to a new password and logs in with it. *)
Lemma change_password_round_trip_witness :
  login String.eqb
      (change_password String.eqb (seed_admin "ChangeMe123!" no_accounts)
         (Some {| SessionUser.id := 1; SessionUser.username := "admin";
                  SessionUser.role := "admin" |})
         (Some "ChangeMe123!") (Some "correct horse") "correct horse").2
      None (Some "admin") (Some "correct horse")
    = (a_json (ALoggedIn "Logged in" "admin" "admin"),
       Some {| SessionUser.id := 1; SessionUser.username := "admin";
               SessionUser.role := "admin" |}).
Proof.
  assert (Hlen : (8 <= String.length "correct horse")%nat) by (simpl; lia).
  destruct (change_password_round_trip String.eqb
              (seed_admin "ChangeMe123!" no_accounts)
              {| SessionUser.id := 1; SessionUser.username := "admin";
                 SessionUser.role := "admin" |}
              {| User.id := 1; User.username := "admin";
                 User.password_hash := "ChangeMe123!"; User.role := "admin" |}
              "ChangeMe123!" "correct horse" "correct horse"
              (seeded_wf "ChangeMe123!")
              (or_introl eq_refl) eq_refl eq_refl eq_refl Hlen eq_refl)
    as (_ & _ & _ & _ & Hlogin).
  apply (Hlogin None "admin"). reflexivity.
Defined.

(** X26. A password change is refused without touching the table: 400
    'Current password incorrect' when the current password does not match,
    whatever the new one is, and 400 'New password too short' when it
    matches and the new password has fewer than 8 characters; a missing
    new password counts as empty. *)
Theorem change_password_refused (compare : string -> string -> bool)
    (db : accounts) (su : SessionUser.t) (u : User.t)
    (current next : option string) (hash : string) :
  accounts_wf db -> In u (users db) ->
  SessionUser.id su = User.id u -> SessionUser.role su = "admin" ->
  (compare (default "" current) (User.password_hash u) = false ->
     change_password compare db (Some su) current next hash
     = (a_status 400 (AError "Current password incorrect"), db))
  /\ (compare (default "" current) (User.password_hash u) = true ->
      (String.length (default "" next) < 8)%nat ->
      change_password compare db (Some su) current next hash
      = (a_status 400 (AError "New password too short"), db)).
Proof.
  intros (Hids & _) Hin Hid Hrole.
  unfold change_password. simpl. rewrite Hrole. simpl.
  rewrite Hid, (find_user_by_id _ _ Hids Hin). split.
  - by intros ->.
  - intros -> Hlen. simpl.
    by destruct (Nat.ltb_spec (String.length (default "" next)) 8) as [_|?];
      [|lia].
Qed.

(** An instance: seven characters are not enough. *)
Lemma change_password_refused_witness :
  change_password String.eqb (seed_admin "ChangeMe123!" no_accounts)
    (Some {| SessionUser.id := 1; SessionUser.username := "admin";
             SessionUser.role := "admin" |})
    (Some "ChangeMe123!") (Some "1234567") "1234567"
  = (a_status 400 (AError "New password too short"),
     seed_admin "ChangeMe123!" no_accounts).
Proof.
  apply (proj2 (change_password_refused String.eqb
                  (seed_admin "ChangeMe123!" no_accounts)
                  {| SessionUser.id := 1; SessionUser.username := "admin";
                     SessionUser.role := "admin" |}
                  {| User.id := 1; User.username := "admin";
                     User.password_hash := "ChangeMe123!";
                     User.role := "admin" |}
                  (Some "ChangeMe123!") (Some "1234567") "1234567"
                  (seeded_wf "ChangeMe123!")
                  (or_introl eq_refl) eq_refl eq_refl)).
  - reflexivity.
  - simpl. lia.
Defined.

(** X27. The seeding of [init] keeps what is there: when a user 'admin'
    exists the table is left as it is, so a restart does not reset a
    changed password; on a table without it one admin is added, the
    table stays well formed, and seeding again changes nothing. *)
Theorem seed_admin_once (hash hash' : string) (db : accounts) :
  accounts_wf db ->
  accounts_wf (seed_admin hash db)
  /\ seed_admin hash' (seed_admin hash db) = seed_admin hash db
  /\ (forall u, In u (users db) -> In u (users (seed_admin hash db)))
  /\ exists u, In u (users (seed_admin hash db))
               /\ User.username u = "admin"
               /\ ((forall v, In v (users db) -> User.username v <> "admin") ->
                   User.password_hash u = hash /\ User.role u = "admin").
Proof.
  intros (Hids & Hnames & Hle). unfold seed_admin.
  destruct (List.find _ (users db)) as [a|] eqn:E.
  - rewrite E. repeat split; try done.
    apply List.find_some in E as [Hin Hname]. apply String.eqb_eq in Hname.
    exists a. split; [done|]. split; [done|].
    intros Hno. by destruct (Hno a Hin).
  - assert (Hnone : forall v, In v (users db) -> User.username v <> "admin").
    { intros v Hv Hname.
      pose proof (List.find_none _ _ E v Hv) as Hf. simpl in Hf.
      by rewrite Hname in Hf. }
    split; [|split; [|split]].
    + unfold accounts_wf. simpl. rewrite !List.map_app. simpl.
      split; [|split].
      * apply NoDup_app. split; [done|]. split; [|apply NoDup_singleton].
        intros k Hk Hk'. apply list_elem_of_singleton in Hk'. subst.
        apply list_elem_of_In, in_map_iff in Hk as (v & Hv & Hin).
        rewrite Forall_forall in Hle. apply list_elem_of_In, Hle in Hin. lia.
      * apply NoDup_app. split; [done|]. split; [|apply NoDup_singleton].
        intros k Hk Hk'. apply list_elem_of_singleton in Hk'. subst.
        apply list_elem_of_In, in_map_iff in Hk as (v & Hv & Hin).
        by apply (Hnone v).
      * apply Forall_app. split.
        -- eapply Forall_impl; [exact Hle|]. simpl. intros; lia.
        -- constructor; [simpl; lia|constructor].
    + simpl. by rewrite (find_after _ _ _ E).
    + intros u Hu. simpl. apply in_or_app. by left.
    + eexists. split; [simpl; apply in_or_app; right; by left|]. done.
Qed.

(** An instance: the first start of the server adds the admin. *)
Lemma seed_admin_once_witness :
  seed_admin "other" (seed_admin "hash" no_accounts)
  = seed_admin "hash" no_accounts.
Proof.
  apply (seed_admin_once "hash" "other" no_accounts).
  split; [|split]; simpl; constructor.
Defined.

(** ** The page that keeps its items in the browser *)

Section BrowserPage.

Lemma lower_char_idem c : Browser.lower_char (Browser.lower_char c) = Browser.lower_char c.
Proof. by destruct c as [[] [] [] [] [] [] [] []]. Qed.

Lemma toLowerCase_idem s :
  Browser.toLowerCase (Browser.toLowerCase s) = Browser.toLowerCase s.
Proof.
  induction s as [|c s IH]; simpl; [done|]. by rewrite lower_char_idem, IH.
Qed.

(** What the browse page shows is stored and approved. *)
Lemma browse_shown search cat st it :
  In it (Browser.renderBrowseItems search cat st) ->
  In it (Browser.getItems st) /\ Browser.status it = "approved".
Proof.
  unfold Browser.renderBrowseItems. intros H.
  assert (Happ : In it (List.filter
                          (fun it => String.eqb (Browser.status it) "approved")
                          (Browser.getItems st))).
  { destruct (negb _); [apply List.filter_In in H as [H _]|];
      (destruct (JS.nonempty _); [apply List.filter_In in H as [H _]|]); done. }
  apply List.filter_In in Happ as [Hin Hst]. by apply String.eqb_eq in Hst.
Qed.

Lemma findIndex_fresh k l x :
  (forall it, In it l -> Browser.id it <> k) -> Browser.id x = k ->
  Browser.findIndex k (l ++ [x]) = Some (length l).
Proof.
  intros Hfresh Hx. induction l as [|a l IH]; simpl.
  - by apply Z.eqb_eq in Hx as ->.
  - assert (Ha : Browser.id a <> k) by (apply Hfresh; by left).
    apply Z.eqb_neq in Ha as ->. rewrite IH; [done|].
    intros it Hit. apply Hfresh. by right.
Qed.

Lemma findIndex_none k l :
  (forall it, In it l -> Browser.id it <> k) -> Browser.findIndex k l = None.
Proof.
  intros Hfresh. induction l as [|a l IH]; simpl; [done|].
  assert (Ha : Browser.id a <> k) by (apply Hfresh; by left).
  apply Z.eqb_neq in Ha as ->. rewrite IH; [done|].
  intros it Hit. apply Hfresh. by right.
Qed.

Lemma filter_sublist {A} (c : A -> bool) (l : list A) :
  sublist (List.filter c l) l.
Proof.
  induction l as [|a l IH]; simpl; [done|].
  destruct (c a); by constructor.
Qed.

Lemma filter_twice {A} (c : A -> bool) (l : list A) :
  List.filter c (List.filter c l) = List.filter c l.
Proof.
  induction l as [|a l IH]; simpl; [done|].
  destruct (c a) eqn:E; simpl; [|done]. by rewrite E, IH.
Qed.

End BrowserPage.

(** X28. On the page that keeps its items in the browser, a report
    without a photo stores nothing.  A report with a photo appends one
    item with the status 'pending' and the time as id; the browse page
    shows exactly what it showed before, whatever the search and the
    category are; and when no stored item has that id, approving the id
    turns exactly this item to 'approved' and the browse page without
    filters shows it. *)
Theorem browser_report_hidden_until_approved (f : Browser.form)
    (result : option string) (now : Z) (st : Browser.storage) :
  let new :=
    {| Browser.id := now; Browser.name := Browser.itemName f;
       Browser.category := Browser.itemCategory f;
       Browser.location := Browser.locationFound f;
       Browser.date := Browser.dateFound f;
       Browser.description := Browser.itemDescription f;
       Browser.photo := result; Browser.status := "pending" |} in
  let st1 := Browser.handleReportSubmit f (Some result) now st in
  Browser.handleReportSubmit f None now st = st
  /\ Browser.getItems st1 = Browser.getItems st ++ [new]
  /\ (forall search cat,
        Browser.renderBrowseItems search cat st1
        = Browser.renderBrowseItems search cat st)
  /\ ((forall it, In it (Browser.getItems st) -> Browser.id it <> now) ->
      Browser.getItems (Browser.updateItemStatus now "approved" st1)
      = Browser.getItems st ++ [Browser.with_status "approved" new]
      /\ In (Browser.with_status "approved" new)
            (Browser.renderBrowseItems None None
               (Browser.updateItemStatus now "approved" st1))).
Proof.
  intros new st1. split; [done|]. split; [done|]. split.
  - intros search cat. unfold Browser.renderBrowseItems, st1. simpl.
    rewrite List.filter_app. simpl. by rewrite app_nil_r.
  - intros Hfresh.
    assert (Hupd : Browser.getItems (Browser.updateItemStatus now "approved" st1)
                   = Browser.getItems st
                     ++ [Browser.with_status "approved" new]).
    { unfold Browser.updateItemStatus, st1. simpl.
      erewrite findIndex_fresh; [|exact Hfresh|reflexivity]. simpl.
      rewrite <- (Nat.add_0_r (length (Browser.getItems st))).
      by rewrite alter_app_r. }
    split; [done|].
    unfold Browser.renderBrowseItems. rewrite Hupd. simpl.
    apply List.filter_In. split; [|done]. apply in_or_app. right. by left.
Qed.

(** An instance: the first report, approved under its id. *)
Lemma browser_report_hidden_until_approved_witness :
  In {| Browser.id := 1736499600000; Browser.name := "Blue Backpack";
        Browser.category := "Bags"; Browser.location := "Library";
        Browser.date := "2025-01-10";
        Browser.description := "Found near the stairs";
        Browser.photo := Some "data:image/png;base64,AAAA";
        Browser.status := "approved" |}
     (Browser.renderBrowseItems None None
        (Browser.updateItemStatus 1736499600000 "approved"
           (Browser.handleReportSubmit
              {| Browser.itemName := "Blue Backpack";
                 Browser.itemCategory := "Bags";
                 Browser.locationFound := "Library";
                 Browser.dateFound := "2025-01-10";
                 Browser.itemDescription := "Found near the stairs" |}
              (Some (Some "data:image/png;base64,AAAA")) 1736499600000 None))).
Proof.
  destruct (browser_report_hidden_until_approved
              {| Browser.itemName := "Blue Backpack";
                 Browser.itemCategory := "Bags";
                 Browser.locationFound := "Library";
                 Browser.dateFound := "2025-01-10";
                 Browser.itemDescription := "Found near the stairs" |}
              (Some "data:image/png;base64,AAAA") 1736499600000 None)
    as (_ & _ & _ & H).
  destruct H as [_ Hin]; [by intros it []|]. exact Hin.
Defined.

(** X29. On that page [deleteItem] removes every item with the id and
    keeps the other items in their order; deleting again changes nothing,
    and afterwards the browse page never shows an item with the id. *)
Theorem browser_delete_removes (k : Z) (st : Browser.storage) :
  let st' := Browser.deleteItem k st in
  (forall it, In it (Browser.getItems st') <->
              In it (Browser.getItems st) /\ Browser.id it <> k)
  /\ sublist (Browser.getItems st') (Browser.getItems st)
  /\ Browser.deleteItem k st' = st'
  /\ (forall search cat it,
        In it (Browser.renderBrowseItems search cat st') ->
        Browser.id it <> k).
Proof.
  intros st'.
  assert (Hin : forall it, In it (Browser.getItems st') <->
                  In it (Browser.getItems st) /\ Browser.id it <> k).
  { intros it. unfold st', Browser.deleteItem. simpl.
    rewrite List.filter_In, negb_true_iff, Z.eqb_neq. done. }
  split; [done|]. split; [|split].
  - unfold st', Browser.deleteItem. simpl. apply filter_sublist.
  - unfold st', Browser.deleteItem. simpl. f_equal. apply filter_twice.
  - intros search cat it Hshown.
    apply browse_shown in Hshown as [Hshown _].
    apply Hin in Hshown as [_ Hne]. exact Hne.
Qed.

(** X30. The browse page of that script shows stored items only, in the
    order of the storage, all of them approved, of the chosen category
    unless it is empty or 'all', and with the search term in the name or
    in the description whatever the case of the letters is; with no
    search term and no category it shows every approved item. *)
Theorem browser_browse_filters (search cat : option string)
    (st : Browser.storage) :
  sublist (Browser.renderBrowseItems search cat st) (Browser.getItems st)
  /\ (forall it, In it (Browser.renderBrowseItems search cat st) ->
        Browser.status it = "approved"
        /\ (forall c, cat = Some c -> c <> "" -> c <> "all" ->
              Browser.category it = c)
        /\ (forall v, search = Some v -> Browser.toLowerCase v <> "" ->
              Browser.includes (Browser.toLowerCase v)
                (Browser.toLowerCase (Browser.name it)) = true
              \/ Browser.includes (Browser.toLowerCase v)
                   (Browser.toLowerCase (Browser.description it)) = true))
  /\ (forall v, Browser.renderBrowseItems (Some v) cat st
                = Browser.renderBrowseItems (Some (Browser.toLowerCase v)) cat st)
  /\ Browser.renderBrowseItems None None st
     = List.filter (fun it => String.eqb (Browser.status it) "approved")
         (Browser.getItems st).
Proof.
  split; [|split; [|split]].
  - unfold Browser.renderBrowseItems.
    destruct (negb _); [etransitivity; [apply filter_sublist|]|];
      (destruct (JS.nonempty _); [etransitivity; [apply filter_sublist|]|]);
      apply filter_sublist.
  - intros it Hin. pose proof (browse_shown _ _ _ _ Hin) as [_ Hs].
    split; [exact Hs|]. split.
    + intros c -> Hne Hall. unfold Browser.renderBrowseItems in Hin.
      apply nonempty_iff in Hne. rewrite Hne in Hin.
      apply String.eqb_neq in Hall. rewrite Hall in Hin. simpl in Hin.
      apply List.filter_In in Hin as [_ Hc]. by apply String.eqb_eq in Hc.
    + intros v -> Hne. unfold Browser.renderBrowseItems in Hin.
      apply nonempty_iff in Hne. rewrite Hne in Hin.
      assert (H : In it (List.filter
                (fun it => Browser.includes (Browser.toLowerCase v)
                             (Browser.toLowerCase (Browser.name it))
                           || Browser.includes (Browser.toLowerCase v)
                                (Browser.toLowerCase (Browser.description it)))
                (List.filter
                   (fun it => String.eqb (Browser.status it) "approved")
                   (Browser.getItems st))))
        by (destruct (negb _); [by apply List.filter_In in Hin as [Hin _]|done]).
      apply List.filter_In in H as [_ H]. by apply orb_true_iff in H.
  - intros v. unfold Browser.renderBrowseItems. by rewrite toLowerCase_idem.
  - reflexivity.
Qed.

(** An instance: the search terms 'BACK' and 'back' show the same. *)
Lemma browser_browse_filters_witness :
  Browser.renderBrowseItems (Some "BACK") (Some "Bags")
    (Some [{| Browser.id := 1; Browser.name := "Blue Backpack";
              Browser.category := "Bags"; Browser.location := "Library";
              Browser.date := "2025-01-10"; Browser.description := "d";
              Browser.photo := None; Browser.status := "approved" |}])
  = Browser.renderBrowseItems (Some "back") (Some "Bags")
      (Some [{| Browser.id := 1; Browser.name := "Blue Backpack";
                Browser.category := "Bags"; Browser.location := "Library";
                Browser.date := "2025-01-10"; Browser.description := "d";
                Browser.photo := None; Browser.status := "approved" |}]).
Proof.
  apply (browser_browse_filters (Some "BACK") (Some "Bags")
           (Some [{| Browser.id := 1; Browser.name := "Blue Backpack";
                     Browser.category := "Bags"; Browser.location := "Library";
                     Browser.date := "2025-01-10"; Browser.description := "d";
                     Browser.photo := None; Browser.status := "approved" |}])).
Defined.
